(** * Sorna manager: kernel placement, lifecycle and event dispatch

    A shallow embedding of [sorna/manager.py] (instance and kernel
    registries, the two kernel drivers, the request loop [handle_api]) and of
    [sorna/gateway/events.py] (the event dispatcher and subscriber), followed
    by the properties stated about them.

    Python objects that are shared and mutated in place (the [Instance]
    records held by the instance registry and referenced from every [Kernel])
    live in one store: the instance registry itself, in iteration order.  A
    reference to an instance is its position in that store. *)

From Stdlib Require Import ZArith Ascii String DecimalString.
From stdpp Require Import gmap strings list.
From Equations Require Import Equations.

Open Scope Z_scope.

(** ** Python built-ins used by the sources *)

Module Py.

(** Exceptions raised by the modelled code.  An [AssertionError] carries
    the source line of the [assert] statement that raised it; [Foreign]
    stands for an exception class of a library (the docker client, a codec),
    by its name. *)
Inductive exn :=
| AssertionError (line : nat)
| NameError (name : string)
| NotImplementedError
| KeyError
| ValueError
| AttributeError
| TypeError
| IndexError
| ProcessLookupError
| Foreign (class_name : string).

(** Result of a library call that may raise. *)
Inductive try (A : Type) :=
| Val (a : A)
| Exn (e : exn).
Arguments Val {A} a.
Arguments Exn {A} e.

(** [str(n)] for an integer. *)
Definition str (n : Z) : string := NilZero.string_of_int (Z.to_int n).

Definition is_digit (c : ascii) : bool :=
  let n := nat_of_ascii c in (48 <=? n)%nat && (n <=? 57)%nat.

Definition is_alpha (c : ascii) : bool :=
  let n := nat_of_ascii c in
  ((65 <=? n)%nat && (n <=? 90)%nat) || ((97 <=? n)%nat && (n <=? 122)%nat).

Fixpoint all_chars (p : ascii -> bool) (s : string) : bool :=
  match s with
  | EmptyString => true
  | String c s' => p c && all_chars p s'
  end.

Fixpoint contains (c : ascii) (s : string) : bool :=
  match s with
  | EmptyString => false
  | String c' s' => Ascii.eqb c' c || contains c s'
  end.

Fixpoint int_digits (acc : Z) (s : string) : Z :=
  match s with
  | EmptyString => acc
  | String c s' => int_digits (acc * 10 + Z.of_nat (nat_of_ascii c - 48)) s'
  end.

(** [int(s, 10)] on an unsigned decimal literal; every other string is
    answered with [ValueError] (signs, surrounding blanks and digit
    separators, which [int] also accepts, are outside this model). *)
Definition int (s : string) : try Z :=
  match s with
  | EmptyString => Exn ValueError
  | _ => if all_chars is_digit s then Val (int_digits 0 s) else Exn ValueError
  end.

(** [s.partition(sep)] for a one-character separator: [None] when [sep]
    does not occur, otherwise the text before and after its first
    occurrence. *)
Fixpoint partition (sep : ascii) (s : string) : option (string * string) :=
  match s with
  | EmptyString => None
  | String c s' =>
      if Ascii.eqb c sep then Some (EmptyString, s')
      else match partition sep s' with
           | Some (a, b) => Some (String c a, b)
           | None => None
           end
  end.

(** Third component of [s.rpartition(sep)] when [sep] occurs. *)
Fixpoint rpartition_tail (sep : ascii) (s : string) : option string :=
  match s with
  | EmptyString => None
  | String c s' =>
      match rpartition_tail sep s' with
      | Some t => Some t
      | None => if Ascii.eqb c sep then Some s' else None
      end
  end.

(** A value as [msgpack] unpacks it: nil, a boolean, an integer, a float
    (its binary64 pattern), text (characters with code below 256, one
    [ascii] each), bytes, an array, or a map (its items in order, keys
    pairwise different). *)
#[local] Unset Elimination Schemes.
Inductive value :=
| VNone
| VBool (b : bool)
| VInt (n : Z)
| VFloat (bits : Z)
| VStr (s : string)
| VBytes (b : string)
| VList (items : list value)
| VMap (items : list (value * value)).
#[local] Set Elimination Schemes.

(** [0.0] and [-0.0]: every bit but the sign is clear. *)
Definition float_is_zero (bits : Z) : bool := Z.land bits (2 ^ 63 - 1) =? 0.

(** [bool(v)] *)
Definition truth (v : value) : bool :=
  match v with
  | VNone => false
  | VBool b => b
  | VInt n => negb (n =? 0)
  | VFloat bits => negb (float_is_zero bits)
  | VStr s | VBytes s => negb (String.eqb s "")
  | VList items => negb (Nat.eqb (length items) 0)
  | VMap items => negb (Nat.eqb (length items) 0)
  end.

(** [k == 0] for a key of a [dict]: the integer [0], [False] and the two
    float zeros are one and the same key. *)
Definition equals_zero (k : value) : bool :=
  match k with
  | VInt n => n =? 0
  | VBool b => negb b
  | VFloat bits => float_is_zero bits
  | _ => false
  end.

Fixpoint dict_get_zero (items : list (value * value)) : try value :=
  match items with
  | [] => Exn KeyError
  | (k, v) :: rest => if equals_zero k then Val v else dict_get_zero rest
  end.

(** [v[0]] *)
Definition subscript_zero (v : value) : try value :=
  match v with
  | VNone | VBool _ | VInt _ | VFloat _ => Exn TypeError
  | VStr EmptyString | VBytes EmptyString | VList [] => Exn IndexError
  | VStr (String c _) => Val (VStr (String c EmptyString))
  | VBytes (String c _) => Val (VInt (Z.of_nat (nat_of_ascii c)))
  | VList (x :: _) => Val x
  | VMap items => dict_get_zero items
  end.

Fixpoint characters (s : string) : list value :=
  match s with
  | EmptyString => []
  | String c s' => VStr (String c EmptyString) :: characters s'
  end.

Fixpoint byte_values (s : string) : list value :=
  match s with
  | EmptyString => []
  | String c s' => VInt (Z.of_nat (nat_of_ascii c)) :: byte_values s'
  end.

(** The positional arguments [*v] contributes to a call: the elements of
    an iterable (for a [dict], its keys); anything else is a [TypeError]. *)
Definition unpack (v : value) : try (list value) :=
  match v with
  | VNone | VBool _ | VInt _ | VFloat _ => Exn TypeError
  | VStr s => Val (characters s)
  | VBytes s => Val (byte_values s)
  | VList items => Val items
  | VMap items => Val (items.*1)
  end.

End Py.

(** ** [urllib.parse.urlparse(url).port]

    The standard library's algorithm (as of the Python 3.4 line the manager
    is written for), for schemes other than http: split off the scheme,
    take the network location after the two slashes up to the first of
    [/], [?], [#], drop user information, and read the port after the host. *)

Module urllib.
Import Py.

Definition scheme_char (c : ascii) : bool :=
  is_alpha c || is_digit c || contains c "+-.".

Definition strip_scheme (url : string) : string :=
  match partition ":" url with
  | Some (pre, rest) =>
      if negb (String.eqb pre "") && all_chars scheme_char pre
         && (String.eqb rest "" || negb (all_chars is_digit rest))
      then rest else url
  | None => url
  end.

Fixpoint splitnetloc (s : string) : string :=
  match s with
  | EmptyString => EmptyString
  | String c s' => if contains c "/?#" then EmptyString else String c (splitnetloc s')
  end.

(** [urlparse(url)], of which only the network location is kept.  A
    bracket without its partner is rejected as an invalid IPv6 URL. *)
Definition urlparse (url : string) : try string :=
  match strip_scheme url with
  | String "/" (String "/" rest) =>
      let n := splitnetloc rest in
      if xorb (contains "[" n) (contains "]" n) then Exn ValueError else Val n
  | _ => Val EmptyString
  end.

Definition hostinfo_port (netloc : string) : option string :=
  let hostinfo := default netloc (rpartition_tail "@" netloc) in
  match partition "[" hostinfo with
  | Some (_, bracketed) =>
      let port := match partition "]" bracketed with
                  | Some (_, p) => p
                  | None => EmptyString
                  end in
      snd <$> partition ":" port
  | None => snd <$> partition ":" hostinfo
  end.

(** The [port] attribute of a parse result: [None] when the location
    names no port or one outside 0..65535. *)
Definition port (netloc : string) : try (option Z) :=
  match hostinfo_port netloc with
  | None => Val None
  | Some port =>
      match int port with
      | Exn e => Exn e
      | Val p => if bool_decide (0 <= p <= 65535) then Val (Some p) else Val None
      end
  end.

End urllib.

(** ** Data model of [sorna/manager.py] *)

Inductive KernelDriverTypes := local | docker.

(** [AgentPortRange = tuple(range(5002, 5010))] *)
Definition AgentPortRange : list Z := seqZ 5002 8.

(** [Instance]: a mutable named list.  [ip] is only ever formatted into a
    URL and compared with ['127.0.0.1'], so it is kept as the text that
    formatting yields. *)
Record Instance := mkInstance {
  ip : string;
  docker_port : Z;
  tag : string;
  max_kernels : Z;
  cur_kernels : Z;
  used_ports : option (gset Z);
}.

Definition set_cur_kernels (n : Z) (i : Instance) : Instance :=
  mkInstance (ip i) (docker_port i) (tag i) (max_kernels i) n (used_ports i).

Definition set_used_ports (u : option (gset Z)) (i : Instance) : Instance :=
  mkInstance (ip i) (docker_port i) (tag i) (max_kernels i) (cur_kernels i) u.

(** The driver-private handle of a kernel: nothing yet, the child process
    of the local driver, or the container id the docker driver means to
    store (line 144, which no run reaches). *)
Inductive Priv :=
| PrivNone
| PrivProc (pid : nat)
| PrivContainer (id : string).

(** [Kernel]: [instance] is a reference into the instance store. *)
Record Kernel := mkKernel {
  instance : nat;
  kernel_id : string;
  spec : string;
  agent_sock : string;
  stdin_sock : option string;
  stdout_sock : option string;
  stderr_sock : option string;
  priv : Priv;
}.

Definition set_socks (i o e : option string) (k : Kernel) : Kernel :=
  mkKernel (instance k) (kernel_id k) (spec k) (agent_sock k) i o e (priv k).

(** Manager RPC messages (decoded). *)
Inductive Action := PING | CREATE | DESTROY.
Inductive Reply := PONG | SUCCESS | INVALID_INPUT | FAILURE.

Record ManagerRequest := mkRequest {
  action : Action;
  req_kernel_id : string;
  req_body : string;
}.

(** A response body is plain text or the JSON object built by [json.dumps]. *)
Inductive Body :=
| Text (s : string)
| Json (fields : list (string * option string)).

Record ManagerResponse := mkResponse {
  reply : Reply;
  resp_kernel_id : string;
  resp_body : Body;
}.

(** What the process does to the outside world, in order. *)
Inductive Effect :=
| ERead (req : ManagerRequest)
| EWrite (resp : ManagerResponse)
| ESleep (ms : Z)
| EHeartbeat (sock : string) (req_id : string)
| ESocketInfo (sock : string)
| ESpawn (cmdargs : list string)
| ETerminate (pid : nat)
| EDocker (base_url : string).

(** Module state: the selected driver, both registries, and the effects
    performed so far. *)
Record State := mkState {
  kernel_driver : KernelDriverTypes;
  instance_registry : list (string * Instance);
  kernel_registry : gmap string Kernel;
  trace : list Effect;
}.

Definition set_instances (l : list (string * Instance)) (st : State) : State :=
  mkState (kernel_driver st) l (kernel_registry st) (trace st).

Definition set_kernels (m : gmap string Kernel) (st : State) : State :=
  mkState (kernel_driver st) (instance_registry st) m (trace st).

Definition log (e : Effect) (st : State) : State :=
  mkState (kernel_driver st) (instance_registry st) (kernel_registry st) (trace st ++ [e]).

(** The module state at import time. *)
Definition initial_state : State :=
  mkState docker [("test"%string, mkInstance "127.0.0.1" 2375 "" 2 0 None)] ∅ [].

(** What the outside world supplies while one request is served. *)
Record Heartbeat := mkHeartbeat {
  hb_req_id : string;          (* the fresh [uuid4] sent as request body *)
  hb_reply : option string;    (* the reply body, [None] on the 2 s timeout *)
}.

(** How the child process of a kernel stands when the kernel is destroyed:
    it runs and exits on the signal; it has exited already; or it runs and
    does not exit on the signal. *)
Inductive Child := ChildRunning | ChildExited | ChildUnresponsive.

Record Env := mkEnv {
  env_uuid : string;                     (* [uuid.uuid4()] in [create_kernel] *)
  env_pid : nat;                         (* the spawned child process *)
  env_docker : option string;            (* the exception class the docker client
                                            raises, if it raises *)
  env_child : Child;                     (* the kernel's child process at [destroy_kernel] *)
  env_heartbeat : nat -> Heartbeat;      (* the n-th [ping_kernel] call *)
  env_socket_info : option (string * string * string);
                                         (* stdin, stdout, stderr; [None]: no answer *)
}.

(** ** Computations: state, exceptions, and waiting forever *)

Inductive Res (A : Type) :=
| Ok (a : A) (st : State)
| Raise (e : Py.exn) (st : State)
| Blocked (st : State).
Arguments Ok {A} a st.
Arguments Raise {A} e st.
Arguments Blocked {A} st.

Definition M (A : Type) : Type := State -> Res A.

Definition ret {A} (a : A) : M A := fun st => Ok a st.

Definition bind {A B} (m : M A) (k : A -> M B) : M B := fun st =>
  match m st with
  | Ok a st' => k a st'
  | Raise e st' => Raise e st'
  | Blocked st' => Blocked st'
  end.

Notation "'let*' x ':=' m 'in' k" := (bind m (fun x => k))
  (at level 10, x name, m at level 100, k at level 200).
Notation "'run' m 'in' k" := (bind m (fun _ => k))
  (at level 10, m at level 100, k at level 200).

Definition raise {A} (e : Py.exn) : M A := fun st => Raise e st.
Definition emit (e : Effect) : M unit := fun st => Ok tt (log e st).
Definition assert (line : nat) (b : bool) : M unit :=
  if b then ret tt else raise (Py.AssertionError line).
Definition sleep (ms : Z) : M unit := emit (ESleep ms).

(** The state a computation leaves behind, whatever its outcome. *)
Definition final {A} (r : Res A) : State :=
  match r with Ok _ st | Raise _ st | Blocked st => st end.

(** Attribute access through an instance reference. *)
Definition get_instance (ref : nat) : M Instance := fun st =>
  match instance_registry st !! ref with
  | Some (_, i) => Ok i st
  | None => Raise Py.AttributeError st
  end.

Definition update_instance (ref : nat) (f : Instance -> Instance) : M unit := fun st =>
  match instance_registry st !! ref with
  | Some (k, i) => Ok tt (set_instances (<[ref := (k, f i)]> (instance_registry st)) st)
  | None => Raise Py.AttributeError st
  end.

(** [kernel_registry[kernel_id]], assignment to it, and [del]. *)
Definition registry_get (kernel_id : string) : M Kernel := fun st =>
  match kernel_registry st !! kernel_id with
  | Some k => Ok k st
  | None => Raise Py.KeyError st
  end.

Definition registry_set (kernel_id : string) (k : Kernel) : M unit := fun st =>
  Ok tt (set_kernels (<[kernel_id := k]> (kernel_registry st)) st).

Definition registry_del (kernel_id : string) : M unit := fun st =>
  match kernel_registry st !! kernel_id with
  | Some _ => Ok tt (set_kernels (delete kernel_id (kernel_registry st)) st)
  | None => Raise Py.KeyError st
  end.

Definition lift_try {A} (t : Py.try A) : M A :=
  match t with Py.Val a => ret a | Py.Exn e => raise e end.

(** ** The kernel drivers *)

(** The abstract base class: the three operations every driver supplies. *)
Record KernelDriver := mkDriver {
  find_avail_instance : M (option nat);
  create_kernel : nat -> Env -> M string;
  destroy_kernel : string -> Env -> M unit;
}.

(** [KernelDriver.ping_kernel]: a HEARTBEAT carrying a fresh request id is
    sent to the kernel's agent socket; the answer counts only when it
    arrives within two seconds and echoes the id. *)
Definition ping_kernel (kernel_id : string) (hb : Heartbeat) : M bool :=
  let* kernel := registry_get kernel_id in
  let req_id := hb_req_id hb in
  run emit (EHeartbeat (agent_sock kernel) req_id) in
  match hb_reply hb with
  | Some body => ret (String.eqb body req_id)
  | None => ret false
  end.

(** [KernelDriver.get_socket_info]: the read has no deadline. *)
Definition get_socket_info (kernel_id : string)
    (answer : option (string * string * string)) : M unit :=
  let* kernel := registry_get kernel_id in
  run emit (ESocketInfo (agent_sock kernel)) in
  match answer with
  | None => fun st => Blocked st
  | Some (i, o, e) =>
      registry_set kernel_id (set_socks (Some i) (Some o) (Some e) kernel)
  end.

(** The port scan both [create_kernel] bodies spell out:
    [for p in AgentPortRange: if p not in used_ports: add; agent_port = p; break],
    starting from [agent_port = 0]. *)
Fixpoint scan_ports (range : list Z) (used : gset Z) : gset Z * Z :=
  match range with
  | [] => (used, 0)
  | p :: rest =>
      if decide (p ∈ used) then scan_ports rest used
      else ({[p]} ∪ used, p)
  end.

(** [kernel.instance.used_ports.remove(agent_url.port)] *)
Definition used_ports_remove (ref : nat) (agent_url : string) : M unit :=
  let* inst := get_instance ref in
  match used_ports inst with
  | None => raise Py.AttributeError
  | Some used =>
      let* port := lift_try (urllib.port agent_url) in
      match port with
      | Some p =>
          if decide (p ∈ used)
          then update_instance ref (set_used_ports (Some (used ∖ {[p]})))
          else raise Py.KeyError
      | None => raise Py.KeyError
      end
  end.

Definition lazy_init_used_ports (ref : nat) : M unit :=
  let* inst := get_instance ref in
  match used_ports inst with
  | None => update_instance ref (set_used_ports (Some ∅))
  | Some _ => ret tt
  end.

Definition agent_sock_url (ip : string) (agent_port : Z) : string :=
  "tcp://" +:+ ip +:+ ":" +:+ Py.str agent_port.

(** [docker.Client(base_url=..., timeout=5, version='auto')] followed by
    [cli.create_container(...)] (lines 134-142): the daemon at [base_url] is
    asked for its version and then for a new container.  Either call may
    raise an exception of the client library; otherwise the client hands
    back the daemon's answer, a [dict]. *)
Definition docker_create_container (base_url : string) (env : Env) : M unit :=
  run emit (EDocker base_url) in
  match env_docker env with
  | Some class_name => raise (Py.Foreign class_name)
  | None => ret tt
  end.

(** [proc.terminate()]: an exited child cannot be signalled. *)
Definition terminate (pid : nat) (child : Child) : M unit :=
  match child with
  | ChildExited => raise Py.ProcessLookupError
  | ChildRunning | ChildUnresponsive => emit (ETerminate pid)
  end.

(** [yield from proc.wait()]: returns once the child has exited. *)
Definition wait (child : Child) : M unit :=
  match child with
  | ChildUnresponsive => fun st => Blocked st
  | ChildRunning | ChildExited => ret tt
  end.

Module DockerKernelDriver.

Fixpoint scan_instances (values : list (string * Instance)) (ref : nat) : option nat :=
  match values with
  | [] => None
  | (_, inst) :: rest =>
      if bool_decide (cur_kernels inst < max_kernels inst) then Some ref
      else scan_instances rest (S ref)
  end.

Definition find_avail_instance : M (option nat) := fun st =>
  match scan_instances (instance_registry st) 0 with
  | Some ref =>
      (run update_instance ref (fun i => set_cur_kernels (cur_kernels i + 1) i) in
       ret (Some ref)) st
  | None => Ok None st
  end.

Definition create_kernel (instance : nat) (env : Env) : M string :=
  run lazy_init_used_ports instance in
  let* inst := get_instance instance in
  run assert 126 (bool_decide (max_kernels inst <= Z.of_nat (length AgentPortRange))) in
  let '(used, agent_port) := scan_ports AgentPortRange (default ∅ (used_ports inst)) in
  run update_instance instance (set_used_ports (Some used)) in
  run assert 132 (negb (agent_port =? 0)) in
  run docker_create_container
        ("tcp://" +:+ ip inst +:+ ":" +:+ Py.str (docker_port inst)) env in
  (* line 143, [container.id]: [container] is a [dict], which has no
     attribute [id].  The rest of the body (the record, its entry in the
     registry, and [return kernel_id], a name bound nowhere) is never
     reached. *)
  raise Py.AttributeError.

Definition destroy_kernel (kernel_id : string) (env : Env) : M unit :=
  let* kernel := registry_get kernel_id in
  run update_instance (instance kernel) (fun i => set_cur_kernels (cur_kernels i - 1) i) in
  let* inst := get_instance (instance kernel) in
  run assert 155 (bool_decide (cur_kernels inst >= 0)) in
  let* agent_url := lift_try (urllib.urlparse (agent_sock kernel)) in
  run used_ports_remove (instance kernel) agent_url in
  run registry_del kernel_id in
  raise Py.NotImplementedError.

Definition driver : KernelDriver :=
  mkDriver find_avail_instance create_kernel destroy_kernel.

End DockerKernelDriver.

Module LocalKernelDriver.

Fixpoint scan_instances (values : list (string * Instance)) (ref : nat) : option nat :=
  match values with
  | [] => None
  | (_, inst) :: rest =>
      if negb (String.eqb (ip inst) "127.0.0.1") then scan_instances rest (S ref)
      else if bool_decide (cur_kernels inst < max_kernels inst) then Some ref
      else scan_instances rest (S ref)
  end.

Definition find_avail_instance : M (option nat) := fun st =>
  match scan_instances (instance_registry st) 0 with
  | Some ref =>
      (run update_instance ref (fun i => set_cur_kernels (cur_kernels i + 1) i) in
       ret (Some ref)) st
  | None => Ok None st
  end.

Definition create_kernel (instance : nat) (env : Env) : M string :=
  run lazy_init_used_ports instance in
  let* inst := get_instance instance in
  run assert 179 (bool_decide (max_kernels inst < Z.of_nat (length AgentPortRange))) in
  let '(used, agent_port) := scan_ports AgentPortRange (default ∅ (used_ports inst)) in
  run update_instance instance (set_used_ports (Some used)) in
  run assert 185 (negb (agent_port =? 0)) in
  let unique_id := env_uuid env in
  let kernel_id := "local/" +:+ unique_id in
  let cmdargs := ["/usr/bin/python3"; "-m"; "sorna.kernel_agent";
                  "--kernel-id"; kernel_id; "--agent-port"; Py.str agent_port]%string in
  run emit (ESpawn cmdargs) in
  let kernel :=
    mkKernel instance kernel_id "python34"
             (agent_sock_url (ip inst) agent_port) None None None
             (PrivProc (env_pid env)) in
  run registry_set kernel_id kernel in
  ret kernel_id.

Definition destroy_kernel (kernel_id : string) (env : Env) : M unit :=
  let* kernel := registry_get kernel_id in
  run update_instance (instance kernel) (fun i => set_cur_kernels (cur_kernels i - 1) i) in
  let* inst := get_instance (instance kernel) in
  run assert 203 (bool_decide (cur_kernels inst >= 0)) in
  let* pid := match priv kernel with
              | PrivProc pid => ret pid
              | _ => raise Py.AttributeError
              end in
  run terminate pid (env_child env) in
  run wait (env_child env) in
  let* agent_url := lift_try (urllib.urlparse (agent_sock kernel)) in
  run used_ports_remove (instance kernel) agent_url in
  registry_del kernel_id.

Definition driver : KernelDriver :=
  mkDriver find_avail_instance create_kernel destroy_kernel.

End LocalKernelDriver.

Definition driver_of (t : KernelDriverTypes) : KernelDriver :=
  match t with
  | docker => DockerKernelDriver.driver
  | local => LocalKernelDriver.driver
  end.

(** ** The request loop [handle_api] *)

Definition write (r : Reply) (kernel_id : string) (body : Body) : M unit :=
  emit (EWrite (mkResponse r kernel_id body)).

(** The probe loop of the CREATE branch:
    [while tries < 5: ... break ... tries += 1 / else: ...].
    The result is [true] when the loop was left by [break], [false] when
    its [else] clause runs. *)
Equations probe_loop (kernel_id : string) (env : Env) (tries : nat) (st : State)
  : Res bool by wf (5 - tries)%nat lt :=
  probe_loop kernel_id env tries st with decide (tries < 5)%nat := {
    | right _ => Ok false st
    | left _ with ping_kernel kernel_id (env_heartbeat env tries) st := {
        | Ok true st1 => Ok true st1
        | Ok false st1 => probe_loop kernel_id env (S tries) (log (ESleep 1000) st1)
        | Raise e st1 => Raise e st1
        | Blocked st1 => Blocked st1 } }.
Next Obligation. lia. Qed.

(** How one pass through the body of [while True] ends. *)
Inductive Control := Continue | Return.

Definition handle_request (req : ManagerRequest) (env : Env) : M Control :=
  run emit (ERead req) in
  let* driver := (fun st => Ok (driver_of (kernel_driver st)) st) in
  match action req with
  | PING =>
      run write PONG "" (Text (req_body req)) in
      ret Continue
  | CREATE =>
      let* instance := find_avail_instance driver in
      match instance with
      | None =>
          run write FAILURE "" (Text "No instance is available to launch a new kernel.") in
          ret Return
      | Some instance =>
          let* kernel_id := create_kernel driver instance env in
          run sleep 200 in
          let* success := probe_loop kernel_id env 0 in
          if success : bool then
            run get_socket_info kernel_id (env_socket_info env) in
            let* kernel := registry_get kernel_id in
            run write SUCCESS kernel_id
                  (Json [("agent_sock", Some (agent_sock kernel));
                         ("stdin_sock", None);
                         ("stdout_sock", stdout_sock kernel);
                         ("stderr_sock", stderr_sock kernel)]%string) in
            ret Continue
          else
            run write FAILURE "" (Text "The created kernel did not respond!") in
            ret Return
      end
  | DESTROY =>
      let* known := (fun st =>
        Ok (bool_decide (is_Some (kernel_registry st !! req_kernel_id req))) st) in
      if known : bool then
        run destroy_kernel driver (req_kernel_id req) env in
        run write SUCCESS (req_kernel_id req) (Text "") in
        ret Continue
      else
        run write INVALID_INPUT "" (Text "No such kernel.") in
        ret Continue
  end.

(** How the coroutine [handle_api] ends on a finite supply of requests. *)
Inductive Exit :=
| Returned
| Crashed (e : Py.exn)
| AwaitingRequest
| AwaitingAgent.

Fixpoint handle_api (inputs : list (ManagerRequest * Env)) (st : State) : Exit * State :=
  match inputs with
  | [] => (AwaitingRequest, st)
  | (req, env) :: rest =>
      match handle_request req env st with
      | Ok Continue st' => handle_api rest st'
      | Ok Return st' => (Returned, st')
      | Raise e st' => (Crashed e, st')
      | Blocked st' => (AwaitingAgent, st')
      end
  end.

(** ** [sorna/gateway/events.py]: the event dispatcher and subscriber *)

Module events.

(** How many positional arguments a callback takes: at least [min_args],
    and at most [max_args] unless it has a [*args] parameter. *)
Record Signature := mkSignature {
  min_args : nat;
  max_args : option nat;
}.

Definition accepts (s : Signature) (n : nat) : bool :=
  (min_args s <=? n)%nat
  && match max_args s with
     | Some m => (n <=? m)%nat
     | None => true
     end.

(** A registered callback: a coroutine function or an ordinary callable. *)
Inductive Handler :=
| Coroutine (name : string) (sig : Signature)
| Plain (name : string).

(** What the event loop has been asked to run:
    [loop.create_task(handler(app, agent_id, *args))] or
    [loop.call_soon(partial(handler, app, agent_id, *args))]. *)
Inductive Scheduled :=
| Task (handler : string) (agent_id : string) (args : list Py.value)
| CallSoon (handler : string) (agent_id : string) (args : list Py.value).

(** [EventDispatcher]: [handlers] is a [defaultdict(list)]; [loop] is
    the queue of the event loop it schedules on. *)
Record EventDispatcher := mkDispatcher {
  handlers : gmap string (list Handler);
  loop : list Scheduled;
}.

Definition add_handler (d : EventDispatcher) (event_name : string)
    (callback : Handler) : EventDispatcher :=
  mkDispatcher
    (<[event_name := default [] (handlers d !! event_name) ++ [callback]]> (handlers d))
    (loop d).

(** Line 49: [args[0] if args else ''], read for the log line only. *)
Definition first_arg (args : Py.value) : Py.try (option Py.value) :=
  if Py.truth args then
    match Py.subscript_zero args with
    | Py.Val x => Py.Val (Some x)
    | Py.Exn e => Py.Exn e
    end
  else Py.Val None.

(** The body of [for handler in self.handlers[event_name]].  Calling a
    coroutine function binds [app, agent_id, *args] to its parameters, which
    fails at once when [args] cannot be unpacked or the count does not fit.
    The module never imports [functools], so the branch for ordinary
    callables stops at the name lookup, before its arguments are looked at. *)
Fixpoint dispatch_handlers (hs : list Handler) (agent_id : string)
    (args : Py.value) (queue : list Scheduled) : list Scheduled * option Py.exn :=
  match hs with
  | [] => (queue, None)
  | Coroutine h sig :: rest =>
      match Py.unpack args with
      | Py.Exn e => (queue, Some e)
      | Py.Val items =>
          if accepts sig (2 + length items)
          then dispatch_handlers rest agent_id args (queue ++ [Task h agent_id items])
          else (queue, Some Py.TypeError)
      end
  | Plain h :: rest => (queue, Some (Py.NameError "functools"))
  end.

(** [EventDispatcher.dispatch]; indexing the [defaultdict] enters a
    missing event name with an empty list. *)
Definition dispatch (d : EventDispatcher) (event_name agent_id : string)
    (args : Py.value) : EventDispatcher * option Py.exn :=
  match first_arg args with
  | Py.Exn e => (d, Some e)
  | Py.Val _ =>
      let hs := default [] (handlers d !! event_name) in
      let '(queue, e) := dispatch_handlers hs agent_id args (loop d) in
      (mkDispatcher (<[event_name := hs]> (handlers d)) queue, e)
  end.

(** A decoded frame of the local bus. *)
Record Frame := mkFrame {
  event_name : string;
  agent_id : string;
  args : Py.value;
}.

(** One message read from the socket: its three parts decode (lines 65-67)
    to a frame, or decoding raises (a part is missing, the event name is not
    ASCII, the agent id is not UTF-8, the body is not msgpack). *)
Inductive Received :=
| Decoded (f : Frame)
| Undecodable (e : Py.exn).

(** How [event_subscriber] stands after the messages received so far: still
    reading, or ended by the catch-all handler that logs the exception
    and closes the socket. *)
Inductive Subscriber :=
| Reading
| Ended (e : Py.exn).

Fixpoint event_subscriber (d : EventDispatcher) (received : list Received)
  : EventDispatcher * Subscriber :=
  match received with
  | [] => (d, Reading)
  | Undecodable e :: _ => (d, Ended e)
  | Decoded f :: rest =>
      match dispatch d (event_name f) (agent_id f) (args f) with
      | (d', None) => event_subscriber d' rest
      | (d', Some e) => (d', Ended e)
      end
  end.

(** The schedule the dispatcher is meant to produce for one frame: every
    handler of the chain, in registration order, each by its kind. *)
Definition schedule_of (agent_id : string) (args : list Py.value) (h : Handler) : Scheduled :=
  match h with
  | Coroutine n _ => Task n agent_id args
  | Plain n => CallSoon n agent_id args
  end.

End events.

(** * Properties *)

(** The availability filter of [find_avail_instance], as the specification
    words it: spare capacity, and for the local driver the loopback
    address. *)
Definition available (t : KernelDriverTypes) (inst : Instance) : bool :=
  match t with
  | docker => bool_decide (cur_kernels inst < max_kernels inst)
  | local =>
      String.eqb (ip inst) "127.0.0.1"
      && bool_decide (cur_kernels inst < max_kernels inst)
  end.

Definition scan_of (t : KernelDriverTypes) :=
  match t with
  | docker => DockerKernelDriver.scan_instances
  | local => LocalKernelDriver.scan_instances
  end.

(** Writing [inst] back through the reference [ref]. *)
Definition put_instance (ref : nat) (key : string) (inst : Instance) (st : State) : State :=
  set_instances (<[ref := (key, inst)]> (instance_registry st)) st.




(** Appending effects to the trace, leaving the rest of the state alone. *)
Definition add_trace (es : list Effect) (st : State) : State :=
  mkState (kernel_driver st) (instance_registry st) (kernel_registry st) (trace st ++ es).

(** The verdict of one [ping_kernel] call: the reply came in time and
    echoes the request id. *)
Definition ping_ok (hb : Heartbeat) : bool :=
  match hb_reply hb with
  | Some body => String.eqb body (hb_req_id hb)
  | None => false
  end.

Definition heartbeat_of (sock : string) (env : Env) (i : nat) : Effect :=
  EHeartbeat sock (hb_req_id (env_heartbeat env i)).

(** [n] failed attempts starting with attempt [from]: each a heartbeat
    followed by the one-second sleep. *)
Definition failed_attempts (sock : string) (env : Env) (from n : nat) : list Effect :=
  flat_map (λ i, [heartbeat_of sock env i; ESleep 1000]) (seq from n).

Definition is_heartbeat (e : Effect) : bool :=
  match e with EHeartbeat _ _ => true | _ => false end.

(** Number of [ping_kernel] requests sent in a trace. *)
Definition heartbeats (tr : list Effect) : nat := length (List.filter is_heartbeat tr).

(** The two FAILURE responses of the CREATE branch. *)
Definition no_instance_response : ManagerResponse :=
  mkResponse FAILURE "" (Text "No instance is available to launch a new kernel.").

Definition no_answer_response : ManagerResponse :=
  mkResponse FAILURE "" (Text "The created kernel did not respond!").

(** The registry invariant: every key is the [kernel_id] of its record. *)
Definition keys_match_ids (m : gmap string Kernel) : Prop :=
  ∀ key k, m !! key = Some k → kernel_id k = key.

(** [m] changes the kernel registry only as [R] allows, whatever its outcome. *)
Definition kernels_after {A} (R : relation (gmap string Kernel)) (m : M A) : Prop :=
  ∀ st, R (kernel_registry st) (kernel_registry (final (m st))).

(** The registry is as before, or one record was entered under its own id. *)
Definition entered_own_id (m m' : gmap string Kernel) : Prop :=
  m' = m ∨ ∃ k, m' = <[kernel_id k := k]> m.

(** The registry is as before, or the entry of [kernel_id] was deleted. *)
Definition deleted_at (kernel_id : string) (m m' : gmap string Kernel) : Prop :=
  m' = m ∨ m' = delete kernel_id m.

(** Sample inputs: the import-time state with the local driver selected,
    an environment in which the agent never answers, one in which it
    answers the third heartbeat, and one in which the kernel's child process
    has exited by the time the kernel is destroyed. *)
Definition local_state : State :=
  mkState local (instance_registry initial_state) ∅ [].

Definition silent_env : Env :=
  mkEnv "5f1c" 4242 None ChildRunning (λ _, mkHeartbeat "tok" None) None.

Definition answering_env : Env :=
  mkEnv "5f1c" 4242 None ChildRunning
        (λ n, mkHeartbeat "tok" (if (n <? 2)%nat then None else Some "tok"))
        (Some ("ipc://in", "ipc://out", "ipc://err")%string).

Definition exited_env : Env :=
  mkEnv "5f1c" 4242 None ChildExited (λ _, mkHeartbeat "tok" None) None.

Definition create_request : ManagerRequest := mkRequest CREATE "" "".

(** The state after a successful CREATE under the local driver. *)
Definition local_state_with_kernel : State :=
  final (handle_request create_request answering_env local_state).

(** The cleanup demanded on the probe-failure path of CREATE, for the
    kernel created under [kid]: FAILURE is written, the record is gone, and
    every instance has its count and occupied ports as before the request. *)
Definition probe_failure_destroys_kernel
    (st : State) (req : ManagerRequest) (env : Env) (kid : string) : Prop :=
  ∃ st',
    handle_request req env st = Ok Return st'
    ∧ last (trace st') = Some (EWrite no_answer_response)
    ∧ kernel_registry st' !! kid = None
    ∧ ∀ i key inst,
        instance_registry st !! i = Some (key, inst) →
        ∃ inst', instance_registry st' !! i = Some (key, inst')
                 ∧ cur_kernels inst' = cur_kernels inst
                 ∧ default ∅ (used_ports inst') = default ∅ (used_ports inst).


Definition test_instance : Instance := mkInstance "127.0.0.1" 2375 "" 2 0 None.

(** The import-time instance with both of its slots taken. *)
Definition full_state : State :=
  mkState local
    [("test"%string, mkInstance "127.0.0.1" 2375 "" 2 2 (Some ({[5002]} ∪ ({[5003]} ∪ ∅))))]
    ∅ [].

(** Three instances: a remote one, a full loopback one, a free loopback one. *)
Definition three_instances : State :=
  mkState local
    [("remote"%string, mkInstance "10.0.0.5" 2375 "" 2 0 None);
     ("busy"%string, mkInstance "127.0.0.1" 2375 "" 1 1 (Some ({[5002]} ∪ ∅)));
     ("test"%string, test_instance)]
    ∅ [].






Definition created_kernel : Kernel :=
  mkKernel 0 "local/5f1c" "python34" "tcp://127.0.0.1:5002"
           (Some "ipc://in") (Some "ipc://out") (Some "ipc://err") (PrivProc 4242).

(** The signature [(app, agent_id, status)] and the variadic
    [(app, agent_id, *args)]. *)
Definition three_parameters : events.Signature := events.mkSignature 3 (Some 3%nat).
Definition any_arguments : events.Signature := events.mkSignature 2 None.

Definition heartbeat_dispatcher : events.EventDispatcher :=
  events.add_handler
    (events.add_handler
       (events.add_handler (events.mkDispatcher ∅ []) "instance_heartbeat"
          (events.Coroutine "update_instance" three_parameters))
       "instance_heartbeat" (events.Plain "count_heartbeat"))
    "instance_heartbeat" (events.Coroutine "refresh_stats" three_parameters).

Definition heartbeat_frame : events.Frame :=
  events.mkFrame "instance_heartbeat" "i-01" (Py.VList [Py.VStr "alive"]).

(** The port [destroy_kernel] reads back from a kernel's agent socket. *)
Definition kernel_port (k : Kernel) : option Z :=
  match urllib.urlparse (agent_sock k) with
  | Py.Val n => match urllib.port n with
                | Py.Val (Some p) => Some p
                | _ => None
                end
  | Py.Exn _ => None
  end.

Definition occupied (inst : Instance) : gset Z := default ∅ (used_ports inst).

(** Consistency of the two registries: every registered kernel refers to an
    instance that holds the kernel's port as occupied (and, under the local
    driver, owns a child process); kernels of one instance have different
    ports; and no instance has more occupied ports than its count. *)
Record consistent (st : State) : Prop := mkConsistent {
  kernel_placed : ∀ kid k, kernel_registry st !! kid = Some k →
    ∃ key inst p,
      instance_registry st !! instance k = Some (key, inst)
      ∧ kernel_port k = Some p ∧ p ∈ occupied inst
      ∧ (kernel_driver st = local → ∃ pid, priv k = PrivProc pid);
  ports_distinct : ∀ kid1 kid2 k1 k2,
    kid1 ≠ kid2 →
    kernel_registry st !! kid1 = Some k1 → kernel_registry st !! kid2 = Some k2 →
    instance k1 = instance k2 → kernel_port k1 ≠ kernel_port k2;
  ports_counted : ∀ i key inst,
    instance_registry st !! i = Some (key, inst) →
    Z.of_nat (size (occupied inst)) <= cur_kernels inst;
}.

(** The handlers that the coroutine functions [cs], each a name and a
    signature, stand for. *)
Definition coroutines (cs : list (string * events.Signature)) : list events.Handler :=
  (λ c, events.Coroutine c.1 c.2) <$> cs.

(** A host name free of the characters that delimit parts of a URL. *)
Definition plain_host (s : string) : bool :=
  Py.all_chars (λ c, negb (Py.contains c "/?#@[]:")) s.

(** ** Registry updates, invariants and handler chains *)

(** Both registries of a state, without the trace. *)
Definition registries (st : State) : list (string * Instance) * gmap string Kernel :=
  (instance_registry st, kernel_registry st).

(** The elementary updates the drivers and the request loop make to the
    registries: an instance with spare capacity is claimed
    ([cur_kernels += 1] in [find_avail_instance]), a claim is given back
    ([cur_kernels -= 1] in [destroy_kernel]), the port set is created, a free
    port of the range is reserved, an occupied port is released, a record is
    entered under its own id, the endpoints of a registered record are
    filled in, a record is deleted. *)
Inductive reg_step :
  list (string * Instance) * gmap string Kernel →
  list (string * Instance) * gmap string Kernel → Prop :=
| step_claim l m i key inst :
    l !! i = Some (key, inst) → cur_kernels inst < max_kernels inst →
    reg_step (l, m) (<[i := (key, set_cur_kernels (cur_kernels inst + 1) inst)]> l, m)
| step_unclaim l m i key inst :
    l !! i = Some (key, inst) →
    reg_step (l, m) (<[i := (key, set_cur_kernels (cur_kernels inst - 1) inst)]> l, m)
| step_init l m i key inst :
    l !! i = Some (key, inst) → used_ports inst = None →
    reg_step (l, m) (<[i := (key, set_used_ports (Some ∅) inst)]> l, m)
| step_reserve l m i key inst used p :
    l !! i = Some (key, inst) → used_ports inst = Some used →
    5002 <= p < 5010 → p ∉ used →
    reg_step (l, m) (<[i := (key, set_used_ports (Some ({[p]} ∪ used)) inst)]> l, m)
| step_release l m i key inst used p :
    l !! i = Some (key, inst) → used_ports inst = Some used → p ∈ used →
    reg_step (l, m) (<[i := (key, set_used_ports (Some (used ∖ {[p]})) inst)]> l, m)
| step_enter l m k :
    reg_step (l, m) (l, <[kernel_id k := k]> m)
| step_sockets l m kid k i o e :
    m !! kid = Some k →
    reg_step (l, m) (l, <[kid := set_socks i o e k]> m)
| step_remove l m kid :
    reg_step (l, m) (l, delete kid m).

(** A property of the selected driver and the registries that every
    elementary update keeps. *)
Definition step_closed
    (P : KernelDriverTypes → list (string * Instance) * gmap string Kernel → Prop) : Prop :=
  ∀ d r r', reg_step r r' → P d r → P d r'.

(** [m] keeps [P] whatever its outcome: a value, an exception, or no end. *)
Definition keeps
    (P : KernelDriverTypes → list (string * Instance) * gmap string Kernel → Prop)
    {A} (m : M A) : Prop :=
  ∀ st, P (kernel_driver st) (registries st) →
        P (kernel_driver (final (m st))) (registries (final (m st))).

(** What [handle_api] never writes to: the key of an instance and its
    address, docker port, tag and capacity. *)
Definition static (entry : string * Instance) : string * (string * Z * string * Z) :=
  (entry.1, (ip entry.2, docker_port entry.2, tag entry.2, max_kernels entry.2)).

(** [Q] holds of every instance of the registry. *)
Definition all_instances (Q : Instance → Prop) (l : list (string * Instance)) : Prop :=
  ∀ i key inst, l !! i = Some (key, inst) → Q inst.

(** The answer to a request that touches no registry. *)
Definition read_only_answer (req : ManagerRequest) : ManagerResponse :=
  match action req with
  | PING => mkResponse PONG "" (Text (req_body req))
  | _ => mkResponse INVALID_INPUT "" (Text "No such kernel.")
  end.

(** A PING, or a DESTROY of an id that is not registered. *)
Definition read_only (st : State) (req : ManagerRequest) : Prop :=
  action req = PING
  ∨ (action req = DESTROY ∧ kernel_registry st !! req_kernel_id req = None).

(** The handler chain of an event name in a [defaultdict(list)]. *)
Definition chain (d : events.EventDispatcher) (event_name : string) : list events.Handler :=
  default [] (events.handlers d !! event_name).

(** The positional arguments a frame's [args] stand for; none when they
    cannot be unpacked. *)
Definition items_of (args : Py.value) : list Py.value :=
  match Py.unpack args with
  | Py.Val items => items
  | Py.Exn _ => []
  end.

(** [h] is a coroutine function that can be called with [app], [agent_id]
    and [n] more arguments. *)
Definition callable_with (n : nat) (h : events.Handler) : Prop :=
  ∃ name sig, h = events.Coroutine name sig ∧ events.accepts sig (2 + n) = true.

(** A frame the dispatcher handles without raising: reading its first
    argument for the log line succeeds, and either no handler is registered
    for its event name, or its arguments unpack and every handler of the
    chain is a coroutine function taking that many. *)
Definition dispatchable (d : events.EventDispatcher) (f : events.Frame) : Prop :=
  (∃ o, events.first_arg (events.args f) = Py.Val o)
  ∧ (chain d (events.event_name f) = []
     ∨ ∃ items, Py.unpack (events.args f) = Py.Val items
                ∧ Forall (callable_with (length items)) (chain d (events.event_name f))).

Definition dispatchable_message (d : events.EventDispatcher) (r : events.Received) : Prop :=
  ∃ f, r = events.Decoded f ∧ dispatchable d f.

(** The tasks one frame gives rise to, by the chain of its event name. *)
Definition tasks_for (d : events.EventDispatcher) (f : events.Frame) : list events.Scheduled :=
  events.schedule_of (events.agent_id f) (items_of (events.args f))
    <$> chain d (events.event_name f).

Definition tasks_of (d : events.EventDispatcher) (r : events.Received) : list events.Scheduled :=
  match r with
  | events.Decoded f => tasks_for d f
  | events.Undecodable _ => []
  end.

(** Unfolding of the state monad's operations, for computing with them. *)
Ltac mcompute :=
  cbv beta iota zeta delta
    [bind ret raise emit assert sleep write lift_try get_instance update_instance
     registry_get registry_set registry_del used_ports_remove lazy_init_used_ports
     set_instances set_kernels log instance_registry kernel_registry trace kernel_driver
     final terminate wait].

(** Sample inputs for the invariants and the request paths. *)
Definition destroy_request : ManagerRequest := mkRequest DESTROY "local/5f1c" "".

(** A registered kernel on an instance whose count is already zero. *)
Definition uncounted_state : State :=
  mkState local
    [("test"%string, mkInstance "127.0.0.1" 2375 "" 2 0 (Some ({[5002]} ∪ ∅)))]
    (<["local/5f1c"%string := created_kernel]> ∅) [].

Definition coroutine_dispatcher : events.EventDispatcher :=
  foldl (λ d h, events.add_handler d "instance_heartbeat" h)
        (events.add_handler (events.mkDispatcher ∅ []) "kernel_terminated"
           (events.Coroutine "forget_kernel" any_arguments))
        [events.Coroutine "update_instance" three_parameters;
         events.Coroutine "refresh_stats" three_parameters].

(** A frame whose arguments are a map: the handler is called with its keys. *)
Definition terminated_frame : events.Frame :=
  events.mkFrame "kernel_terminated" "i-01"
    (Py.VMap [(Py.VInt 0, Py.VStr "k1"); (Py.VStr "reason", Py.VStr "idle")]).

(** A frame nobody listens to, with arguments that cannot be unpacked. *)
Definition unknown_frame : events.Frame :=
  events.mkFrame "instance_started" "i-02" Py.VNone.

(** A heartbeat whose arguments are a map without the key [0]. *)
Definition map_frame : events.Frame :=
  events.mkFrame "instance_heartbeat" "i-01" (Py.VMap [(Py.VStr "status", Py.VStr "alive")]).

Ltac munfold :=
  unfold bind, ret, raise, emit, assert, sleep, write, lift_try,
    get_instance, update_instance, registry_get, registry_set, registry_del in *.

Section Placement.

Lemma scan_of_step t key inst rest n :
  scan_of t ((key, inst) :: rest) n =
  if available t inst then Some n else scan_of t rest (S n).
Proof.
  destruct t; simpl.
  - destruct (String.eqb (ip inst) "127.0.0.1"); simpl; reflexivity.
  - reflexivity.
Qed.

Lemma scan_of_none t l n :
  (∀ i key inst, l !! i = Some (key, inst) → available t inst = false) →
  scan_of t l n = None.
Proof.
  revert n. induction l as [|[key inst] rest IH]; intros n Hall.
  - destruct t; reflexivity.
  - rewrite scan_of_step, (Hall 0%nat key inst eq_refl).
    apply IH. intros i key' inst' Hi. exact (Hall (S i) key' inst' Hi).
Qed.

Lemma scan_of_first t l n i key inst :
  l !! i = Some (key, inst) →
  available t inst = true →
  (∀ j key' inst', (j < i)%nat → l !! j = Some (key', inst') →
                   available t inst' = false) →
  scan_of t l n = Some (n + i)%nat.
Proof.
  revert n i. induction l as [|[key0 inst0] rest IH]; intros n i Hi Hav Hbefore.
  - discriminate.
  - rewrite scan_of_step. destruct i as [|i].
    + simpl in Hi. injection Hi as -> ->. rewrite Hav. f_equal. lia.
    + rewrite (Hbefore 0%nat key0 inst0 ltac:(lia) eq_refl).
      rewrite (IH (S n) i Hi Hav).
      * f_equal. lia.
      * intros j key' inst' Hj. apply (Hbefore (S j)). lia.
Qed.

Lemma find_avail_instance_unfold t st :
  find_avail_instance (driver_of t) st =
  match scan_of t (instance_registry st) 0 with
  | Some ref =>
      (run update_instance ref (fun i => set_cur_kernels (cur_kernels i + 1) i) in
       ret (Some ref)) st
  | None => Ok None st
  end.
Proof. destruct t; reflexivity. Qed.

Lemma find_avail_instance_none t st :
  (∀ i key inst, instance_registry st !! i = Some (key, inst) →
                 available t inst = false) →
  find_avail_instance (driver_of t) st = Ok None st.
Proof.
  intros Hall. rewrite find_avail_instance_unfold.
  by rewrite (scan_of_none t _ 0 Hall).
Qed.

Lemma find_avail_instance_some t st i key inst :
  instance_registry st !! i = Some (key, inst) →
  available t inst = true →
  (∀ j key' inst', (j < i)%nat → instance_registry st !! j = Some (key', inst') →
                   available t inst' = false) →
  find_avail_instance (driver_of t) st =
  Ok (Some i)
     (set_instances
        (<[i := (key, set_cur_kernels (cur_kernels inst + 1) inst)]> (instance_registry st))
        st).
Proof.
  intros Hi Hav Hbefore. rewrite find_avail_instance_unfold.
  rewrite (scan_of_first t _ 0 i key inst Hi Hav Hbefore). simpl.
  munfold. by rewrite Hi.
Qed.

End Placement.

(** C6.  [find_avail_instance] answers with the first instance, in the
    iteration order of the registry, that has [cur_kernels < max_kernels]
    (and, for the local driver, the address 127.0.0.1); that instance's
    count goes up by one and nothing else changes.  When no instance
    qualifies the answer is [None] and the state is untouched. *)
Theorem find_avail_instance_first_available (t : KernelDriverTypes) (st : State) :
  (∀ i key inst,
      instance_registry st !! i = Some (key, inst) →
      available t inst = true →
      (∀ j key' inst', (j < i)%nat → instance_registry st !! j = Some (key', inst') →
                       available t inst' = false) →
      find_avail_instance (driver_of t) st =
      Ok (Some i)
         (mkState (kernel_driver st)
            (<[i := (key, set_cur_kernels (cur_kernels inst + 1) inst)]> (instance_registry st))
            (kernel_registry st) (trace st)))
  ∧
  ((∀ i key inst, instance_registry st !! i = Some (key, inst) →
                  available t inst = false) →
   find_avail_instance (driver_of t) st = Ok None st).
Proof.
  split.
  - intros i key inst Hi Hav Hbefore.
    exact (find_avail_instance_some t st i key inst Hi Hav Hbefore).
  - apply find_avail_instance_none.
Qed.

Section InstanceStore.

Lemma put_instance_lookup ref key inst st x :
  instance_registry st !! ref = Some x →
  instance_registry (put_instance ref key inst st) !! ref = Some (key, inst).
Proof.
  intros H. unfold put_instance; simpl.
  apply list_lookup_insert_eq. by eapply lookup_lt_Some.
Qed.

Lemma put_instance_lookup_ne ref ref' key inst st :
  ref ≠ ref' →
  instance_registry (put_instance ref key inst st) !! ref' = instance_registry st !! ref'.
Proof. intros H. unfold put_instance; simpl. by apply list_lookup_insert_ne. Qed.

Lemma put_instance_put ref key inst key' inst' st :
  put_instance ref key inst (put_instance ref key' inst' st) = put_instance ref key inst st.
Proof.
  unfold put_instance, set_instances; simpl. by rewrite list_insert_insert_eq.
Qed.

Lemma put_instance_id ref key inst st :
  instance_registry st !! ref = Some (key, inst) →
  put_instance ref key inst st = st.
Proof.
  intros H. unfold put_instance, set_instances. rewrite list_insert_id by done.
  by destruct st.
Qed.

Lemma lazy_init_used_ports_eq st ref key inst :
  instance_registry st !! ref = Some (key, inst) →
  lazy_init_used_ports ref st =
  Ok tt (put_instance ref key (set_used_ports (Some (default ∅ (used_ports inst))) inst) st).
Proof.
  intros H. unfold lazy_init_used_ports. munfold. rewrite H.
  destruct (used_ports inst) as [u|] eqn:Hu; simpl.
  - f_equal. symmetry. apply put_instance_id. rewrite H. do 2 f_equal.
    destruct inst; simpl in *; by subst.
  - by rewrite H.
Qed.

End InstanceStore.

Section CreateKernel.

Variables (st : State) (instance : nat) (key : string) (inst : Instance) (env : Env).
Hypothesis Hinst : instance_registry st !! instance = Some (key, inst).

Let used : gset Z := default ∅ (used_ports inst).
Let agent_port : Z := (scan_ports AgentPortRange used).2.
Let reserved : State :=
  put_instance instance key
    (set_used_ports (Some (scan_ports AgentPortRange used).1) inst) st.

Lemma local_create_kernel_eq :
  LocalKernelDriver.create_kernel instance env st =
  if bool_decide (max_kernels inst < 8) then
    if agent_port =? 0 then Raise (Py.AssertionError 185) reserved
    else
      let kernel_id := "local/" +:+ env_uuid env in
      Ok kernel_id
         (set_kernels
            (<[kernel_id :=
                 mkKernel instance kernel_id "python34"
                          (agent_sock_url (ip inst) agent_port)
                          None None None (PrivProc (env_pid env))]>
               (kernel_registry st))
            (log (ESpawn ["/usr/bin/python3"; "-m"; "sorna.kernel_agent"; "--kernel-id";
                          kernel_id; "--agent-port"; Py.str agent_port]%string)
                 reserved))
  else Raise (Py.AssertionError 179)
             (put_instance instance key (set_used_ports (Some used) inst) st).
Proof.
  subst used agent_port reserved.
  unfold LocalKernelDriver.create_kernel.
  unfold bind at 1. rewrite (lazy_init_used_ports_eq _ _ _ _ Hinst).
  set (inst1 := set_used_ports _ inst).
  pose proof (put_instance_lookup instance key inst1 st _ Hinst) as H1.
  unfold bind at 1. unfold get_instance at 1. rewrite H1.
  change (length AgentPortRange) with 8%nat. change (Z.of_nat 8) with 8.
  change (max_kernels inst1) with (max_kernels inst).
  unfold bind at 1. unfold assert at 1.
  destruct (bool_decide (max_kernels inst < 8)); [|reflexivity].
  unfold ret at 1.
  destruct (scan_ports AgentPortRange (default ∅ (used_ports inst))) as [used' p] eqn:Hscan.
  change (used_ports inst1) with (Some (default ∅ (used_ports inst))).
  cbn [default from_option id]. rewrite Hscan. cbn [fst snd].
  unfold bind at 1. unfold update_instance at 1. rewrite H1.
  change (set_instances _ _) with
    (put_instance instance key (set_used_ports (Some used') inst1)
                  (put_instance instance key inst1 st)).
  rewrite put_instance_put.
  change (set_used_ports (Some used') inst1) with (set_used_ports (Some used') inst).
  unfold bind at 1. unfold assert at 1.
  destruct (p =? 0); [reflexivity|].
  cbn [negb]. reflexivity.
Qed.

Lemma docker_create_kernel_eq :
  DockerKernelDriver.create_kernel instance env st =
  if bool_decide (max_kernels inst <= 8) then
    if agent_port =? 0 then Raise (Py.AssertionError 132) reserved
    else
      Raise (from_option Py.Foreign Py.AttributeError (env_docker env))
            (log (EDocker ("tcp://" +:+ ip inst +:+ ":" +:+ Py.str (docker_port inst)))
                 reserved)
  else Raise (Py.AssertionError 126)
             (put_instance instance key (set_used_ports (Some used) inst) st).
Proof.
  subst used agent_port reserved.
  unfold DockerKernelDriver.create_kernel.
  unfold bind at 1. rewrite (lazy_init_used_ports_eq _ _ _ _ Hinst).
  set (inst1 := set_used_ports _ inst).
  pose proof (put_instance_lookup instance key inst1 st _ Hinst) as H1.
  unfold bind at 1. unfold get_instance at 1. rewrite H1.
  change (length AgentPortRange) with 8%nat. change (Z.of_nat 8) with 8.
  change (max_kernels inst1) with (max_kernels inst).
  unfold bind at 1. unfold assert at 1.
  destruct (bool_decide (max_kernels inst <= 8)); [|reflexivity].
  unfold ret at 1.
  destruct (scan_ports AgentPortRange (default ∅ (used_ports inst))) as [used' p] eqn:Hscan.
  change (used_ports inst1) with (Some (default ∅ (used_ports inst))).
  cbn [default from_option id]. rewrite Hscan. cbn [fst snd].
  unfold bind at 1. unfold update_instance at 1. rewrite H1.
  change (set_instances _ _) with
    (put_instance instance key (set_used_ports (Some used') inst1)
                  (put_instance instance key inst1 st)).
  rewrite put_instance_put.
  change (set_used_ports (Some used') inst1) with (set_used_ports (Some used') inst).
  unfold bind at 1. unfold assert at 1.
  destruct (p =? 0); [reflexivity|].
  cbn [negb]. unfold ret at 1. unfold bind at 1.
  unfold docker_create_container, bind, emit.
  change (ip inst1) with (ip inst). change (docker_port inst1) with (docker_port inst).
  by destruct (env_docker env).
Qed.

End CreateKernel.

Section PortScan.

Lemma scan_ports_inv range used :
  ((scan_ports range used = (used, 0)) ∧ ∀ q, q ∈ range → q ∈ used)
  ∨ ∃ i p, range !! i = Some p ∧ (p ∉ used)
           ∧ scan_ports range used = ({[p]} ∪ used, p)
           ∧ ∀ j q, (j < i)%nat → range !! j = Some q → q ∈ used.
Proof.
  induction range as [|p rest IH]; simpl.
  - left. split; [done|]. intros q Hq. inversion Hq.
  - destruct (decide (p ∈ used)) as [Hin|Hout].
    + destruct IH as [[Heq Hall]|(i & p' & Hi & Hfree & Heq & Hbefore)].
      * left. split; [done|]. intros q Hq.
        apply elem_of_cons in Hq as [->|Hq]; auto.
      * right. exists (S i), p'. repeat split; try done.
        intros [|j] q Hj Hq; simpl in Hq.
        -- by injection Hq as <-.
        -- apply (Hbefore j); [lia|done].
    + right. exists 0%nat, p. repeat split; try done. intros j q Hj. lia.
Qed.

Lemma AgentPortRange_lookup i p :
  AgentPortRange !! i = Some p ↔ p = 5002 + Z.of_nat i ∧ (i < 8)%nat.
Proof.
  unfold AgentPortRange. rewrite lookup_seqZ. lia.
Qed.

Lemma AgentPortRange_elem p : p ∈ AgentPortRange ↔ 5002 <= p < 5010.
Proof. unfold AgentPortRange. rewrite elem_of_seqZ. lia. Qed.

(** Fewer than eight occupied ports leave one of the eight free. *)
Lemma free_port_exists (used : gset Z) :
  (size used < 8)%nat → ∃ p, p ∈ AgentPortRange ∧ p ∉ used.
Proof.
  intros Hsize.
  destruct (decide (Forall (λ p, p ∈ used) AgentPortRange)) as [Hall|Hnot].
  - exfalso.
    assert (list_to_set AgentPortRange ⊆ used) as Hsub.
    { intros p Hp. apply elem_of_list_to_set in Hp.
      rewrite Forall_forall in Hall. by apply Hall. }
    apply subseteq_size in Hsub.
    rewrite size_list_to_set in Hsub by apply NoDup_seqZ.
    change (length AgentPortRange) with 8%nat in Hsub. lia.
  - apply not_Forall_Exists in Hnot; [|intros p; apply _].
    apply Exists_exists in Hnot as (p & Hp & Hfree). eauto.
Qed.

(** The scan reserves the smallest free port of the range when there is
    one, and otherwise leaves [agent_port] at 0. *)
Lemma scan_ports_smallest (used : gset Z) :
  let '(used', agent_port) := scan_ports AgentPortRange used in
  (agent_port = 0 ∧ used' = used ∧ ∀ q, 5002 <= q < 5010 → q ∈ used)
  ∨ (5002 <= agent_port < 5010 ∧ (agent_port ∉ used)
     ∧ used' = {[agent_port]} ∪ used
     ∧ ∀ q, 5002 <= q < agent_port → q ∈ used).
Proof.
  destruct (scan_ports_inv AgentPortRange used)
    as [[Heq Hall]|(i & p & Hi & Hfree & Heq & Hbefore)]; rewrite Heq.
  - left. repeat split; try done. intros q Hq. by apply Hall, AgentPortRange_elem.
  - right. apply AgentPortRange_lookup in Hi as [-> Hi].
    repeat split; try done; try lia.
    intros q Hq. apply (Hbefore (Z.to_nat (q - 5002))); [lia|].
    apply AgentPortRange_lookup. lia.
Qed.

Lemma scan_ports_finds (used : gset Z) :
  (size used < 8)%nat → (scan_ports AgentPortRange used).2 ≠ 0.
Proof.
  intros Hsize. pose proof (scan_ports_smallest used) as H.
  destruct (scan_ports AgentPortRange used) as [used' p]; simpl.
  destruct H as [(-> & _ & Hall)|H]; [|lia].
  destruct (free_port_exists used Hsize) as (q & Hq & Hfree).
  exfalso. apply Hfree, Hall. by apply AgentPortRange_elem.
Qed.

End PortScan.

Section Reservation.

Variables (st : State) (instance : nat) (key : string) (inst : Instance) (env : Env).
Hypothesis Hinst : instance_registry st !! instance = Some (key, inst).

Lemma create_kernel_eq t :
  create_kernel (driver_of t) instance env st =
  match t with
  | docker => DockerKernelDriver.create_kernel instance env st
  | local => LocalKernelDriver.create_kernel instance env st
  end.
Proof. by destruct t. Qed.




End Reservation.



Section Probe.

Lemma add_trace_add es1 es2 st :
  add_trace es2 (add_trace es1 st) = add_trace (es1 ++ es2) st.
Proof. unfold add_trace; simpl. by rewrite app_assoc. Qed.

Lemma log_add_trace e st : log e st = add_trace [e] st.
Proof. reflexivity. Qed.

Lemma add_trace_nil st : add_trace [] st = st.
Proof. destruct st. unfold add_trace; simpl. by rewrite app_nil_r. Qed.

Lemma heartbeats_app tr1 tr2 : heartbeats (tr1 ++ tr2) = (heartbeats tr1 + heartbeats tr2)%nat.
Proof. unfold heartbeats. by rewrite List.filter_app, length_app. Qed.

Lemma heartbeats_failed_attempts sock env from n :
  heartbeats (failed_attempts sock env from n) = n.
Proof.
  revert from. induction n as [|n IH]; intros from; [done|].
  unfold failed_attempts in *. simpl. unfold heartbeats in *. simpl.
  by rewrite IH.
Qed.

Lemma failed_attempts_S sock env from n :
  failed_attempts sock env from (S n) =
  heartbeat_of sock env from :: ESleep 1000 :: failed_attempts sock env (S from) n.
Proof. reflexivity. Qed.

Lemma ping_kernel_known kernel_id hb st k :
  kernel_registry st !! kernel_id = Some k →
  ping_kernel kernel_id hb st =
  Ok (ping_ok hb) (log (EHeartbeat (agent_sock k) (hb_req_id hb)) st).
Proof.
  intros Hk. unfold ping_kernel, ping_ok. munfold. rewrite Hk.
  by destruct (hb_reply hb).
Qed.

Lemma ping_kernel_heartbeats kernel_id hb st :
  (heartbeats (trace (final (ping_kernel kernel_id hb st))) ≤ heartbeats (trace st) + 1)%nat.
Proof.
  destruct (kernel_registry st !! kernel_id) as [k|] eqn:Hk.
  - rewrite (ping_kernel_known _ _ _ _ Hk). simpl. rewrite heartbeats_app.
    unfold heartbeats at 2; simpl. lia.
  - unfold ping_kernel. munfold. rewrite Hk. simpl. lia.
Qed.

Lemma probe_loop_eq kernel_id env tries st :
  probe_loop kernel_id env tries st =
  if decide (tries < 5)%nat then
    match ping_kernel kernel_id (env_heartbeat env tries) st with
    | Ok true st1 => Ok true st1
    | Ok false st1 => probe_loop kernel_id env (S tries) (log (ESleep 1000) st1)
    | Raise e st1 => Raise e st1
    | Blocked st1 => Blocked st1
    end
  else Ok false st.
Proof.
  simp probe_loop. destruct (decide (tries < 5)%nat); simpl; [|reflexivity].
  destruct (ping_kernel kernel_id (env_heartbeat env tries) st)
    as [[|] st1|e st1|st1]; reflexivity.
Qed.

(** The loop body runs at most [5 - tries] more times. *)
Lemma probe_loop_heartbeats kernel_id env n : ∀ tries st,
  (5 - tries = n)%nat →
  (heartbeats (trace (final (probe_loop kernel_id env tries st)))
   ≤ heartbeats (trace st) + n)%nat.
Proof.
  induction n as [|n IH]; intros tries st Hn; rewrite probe_loop_eq.
  - destruct (decide (tries < 5)%nat); [lia|]. simpl. lia.
  - destruct (decide (tries < 5)%nat); [|lia].
    pose proof (ping_kernel_heartbeats kernel_id (env_heartbeat env tries) st) as Hping.
    destruct (ping_kernel kernel_id (env_heartbeat env tries) st)
      as [[|] st1|e st1|st1]; simpl in *; try lia.
    specialize (IH (S tries) (log (ESleep 1000) st1) ltac:(lia)).
    simpl in IH. rewrite heartbeats_app in IH. unfold heartbeats at 3 in IH.
    simpl in IH. lia.
Qed.

Variables (kernel_id : string) (env : Env) (k : Kernel).

Lemma probe_loop_all_fail n : ∀ tries st,
  (5 - tries = n)%nat →
  kernel_registry st !! kernel_id = Some k →
  (∀ i, (tries ≤ i < 5)%nat → ping_ok (env_heartbeat env i) = false) →
  probe_loop kernel_id env tries st =
  Ok false (add_trace (failed_attempts (agent_sock k) env tries n) st).
Proof.
  induction n as [|n IH]; intros tries st Hn Hk Hfail; rewrite probe_loop_eq.
  - destruct (decide (tries < 5)%nat); [lia|]. by rewrite add_trace_nil.
  - destruct (decide (tries < 5)%nat); [|lia].
    rewrite (ping_kernel_known _ _ _ _ Hk), (Hfail tries) by lia.
    rewrite (IH (S tries)); [|lia|done|intros i Hi; apply Hfail; lia].
    rewrite !log_add_trace, !add_trace_add. reflexivity.
Qed.

Lemma probe_loop_first_success n : ∀ tries st,
  (tries + n < 5)%nat →
  kernel_registry st !! kernel_id = Some k →
  (∀ i, (tries ≤ i < tries + n)%nat → ping_ok (env_heartbeat env i) = false) →
  ping_ok (env_heartbeat env (tries + n)) = true →
  probe_loop kernel_id env tries st =
  Ok true (add_trace (failed_attempts (agent_sock k) env tries n
                      ++ [heartbeat_of (agent_sock k) env (tries + n)]) st).
Proof.
  induction n as [|n IH]; intros tries st Hn Hk Hfail Hok; rewrite probe_loop_eq;
    (destruct (decide (tries < 5)%nat); [|lia]);
    rewrite (ping_kernel_known _ _ _ _ Hk).
  - rewrite Nat.add_0_r in *. rewrite Hok. reflexivity.
  - rewrite (Hfail tries) by lia.
    rewrite (IH (S tries)); [|lia|done|intros i Hi; apply Hfail; lia|].
    + rewrite !log_add_trace, !add_trace_add.
      replace (S tries + n)%nat with (tries + S n)%nat by lia. reflexivity.
    + by replace (S tries + n)%nat with (tries + S n)%nat by lia.
Qed.

End Probe.

(** C8.  The probe loop of the CREATE branch sends at most five
    heartbeats.  For a registered kernel it is left at the first attempt
    that succeeds, after exactly the failed attempts before it; every
    failed attempt is followed by a sleep of one second; and when all
    attempts fail, exactly five heartbeats have been sent. *)
Theorem probe_loop_five_attempts (kernel_id : string) (env : Env) (st : State) :
  (heartbeats (trace (final (probe_loop kernel_id env 0 st))) ≤ heartbeats (trace st) + 5)%nat
  ∧ ∀ k, kernel_registry st !! kernel_id = Some k →
      (∀ j, (j < 5)%nat →
            (∀ i, (i < j)%nat → ping_ok (env_heartbeat env i) = false) →
            ping_ok (env_heartbeat env j) = true →
            probe_loop kernel_id env 0 st =
            Ok true (add_trace (failed_attempts (agent_sock k) env 0 j
                                ++ [heartbeat_of (agent_sock k) env j]) st)
            ∧ heartbeats (failed_attempts (agent_sock k) env 0 j
                          ++ [heartbeat_of (agent_sock k) env j]) = S j)
      ∧ ((∀ i, (i < 5)%nat → ping_ok (env_heartbeat env i) = false) →
         probe_loop kernel_id env 0 st =
         Ok false (add_trace (failed_attempts (agent_sock k) env 0 5) st)
         ∧ heartbeats (failed_attempts (agent_sock k) env 0 5) = 5%nat).
Proof.
  split; [by apply probe_loop_heartbeats|].
  intros k Hk. split.
  - intros j Hj Hfail Hok. split.
    + apply (probe_loop_first_success kernel_id env k j 0 st); auto.
      intros i Hi. apply Hfail. lia.
    + rewrite heartbeats_app, heartbeats_failed_attempts. unfold heartbeats; simpl. lia.
  - intros Hfail. split; [|apply heartbeats_failed_attempts].
    apply (probe_loop_all_fail kernel_id env k 5 0 st); auto.
    intros i Hi. apply Hfail. lia.
Qed.

Section HandleRequest.

Variables (req : ManagerRequest) (env : Env) (st : State).

Lemma handle_request_create :
  action req = CREATE →
  handle_request req env st =
  match find_avail_instance (driver_of (kernel_driver st)) (log (ERead req) st) with
  | Ok None st1 => Ok Return (log (EWrite no_instance_response) st1)
  | Ok (Some instance) st1 =>
      match create_kernel (driver_of (kernel_driver st)) instance env st1 with
      | Ok kernel_id st2 =>
          match probe_loop kernel_id env 0 (log (ESleep 200) st2) with
          | Ok true st3 =>
              (run get_socket_info kernel_id (env_socket_info env) in
               let* kernel := registry_get kernel_id in
               run write SUCCESS kernel_id
                     (Json [("agent_sock", Some (agent_sock kernel));
                            ("stdin_sock", None);
                            ("stdout_sock", stdout_sock kernel);
                            ("stderr_sock", stderr_sock kernel)]%string) in
               ret Continue) st3
          | Ok false st3 => Ok Return (log (EWrite no_answer_response) st3)
          | Raise e st3 => Raise e st3
          | Blocked st3 => Blocked st3
          end
      | Raise e st2 => Raise e st2
      | Blocked st2 => Blocked st2
      end
  | Raise e st1 => Raise e st1
  | Blocked st1 => Blocked st1
  end.
Proof.
  intros Hact. unfold handle_request. rewrite Hact.
  unfold bind at 1. unfold emit at 1. unfold bind at 1.
  change (kernel_driver (log (ERead req) st)) with (kernel_driver st).
  unfold bind at 1.
  destruct (find_avail_instance _ _) as [[i|] st1|e st1|st1]; try reflexivity.
  unfold bind at 1.
  destruct (create_kernel _ _ _ _) as [kid st2|e st2|st2]; try reflexivity.
  unfold bind at 1. unfold sleep, emit at 1. unfold bind at 1.
  destruct (probe_loop _ _ _ _) as [[|] st3|e st3|st3]; reflexivity.
Qed.

Lemma handle_request_ping :
  action req = PING →
  handle_request req env st =
  Ok Continue (log (EWrite (mkResponse PONG "" (Text (req_body req)))) (log (ERead req) st)).
Proof. intros Hact. unfold handle_request. rewrite Hact. reflexivity. Qed.

Lemma handle_request_destroy :
  action req = DESTROY →
  handle_request req env st =
  if bool_decide (is_Some (kernel_registry st !! req_kernel_id req)) then
    match destroy_kernel (driver_of (kernel_driver st)) (req_kernel_id req) env
                         (log (ERead req) st) with
    | Ok _ st1 =>
        Ok Continue (log (EWrite (mkResponse SUCCESS (req_kernel_id req) (Text ""))) st1)
    | Raise e st1 => Raise e st1
    | Blocked st1 => Blocked st1
    end
  else
    Ok Continue (log (EWrite (mkResponse INVALID_INPUT "" (Text "No such kernel.")))
                     (log (ERead req) st)).
Proof.
  intros Hact. unfold handle_request. rewrite Hact.
  unfold bind at 1. unfold emit at 1. unfold bind at 1. unfold bind at 1.
  change (kernel_registry (log (ERead req) st)) with (kernel_registry st).
  change (kernel_driver (log (ERead req) st)) with (kernel_driver st).
  destruct (bool_decide _); [|reflexivity].
  unfold bind at 1.
  destruct (destroy_kernel _ _ _) as [[] st1|e st1|st1]; reflexivity.
Qed.

(** Every completed pass ends by writing one response, and it ends the
    coroutine exactly when that response is a FAILURE, which only the
    CREATE branch writes. *)
Lemma handle_request_completed c st' :
  handle_request req env st = Ok c st' →
  ∃ st0 resp,
    st' = log (EWrite resp) st0
    ∧ (reply resp = FAILURE ↔ c = Return)
    ∧ (reply resp = FAILURE →
       action req = CREATE ∧ (resp = no_instance_response ∨ resp = no_answer_response)).
Proof.
  destruct (action req) eqn:Hact.
  - rewrite (handle_request_ping Hact). intros [= <- <-].
    eexists _, _. split; [reflexivity|]. simpl. split; [split|]; discriminate.
  - rewrite (handle_request_create Hact).
    destruct (find_avail_instance _ _) as [[i|] st1|e st1|st1]; try discriminate.
    + destruct (create_kernel _ _ _ _) as [kid st2|e st2|st2]; try discriminate.
      destruct (probe_loop _ _ _ _) as [[|] st3|e st3|st3]; try discriminate.
      * unfold bind at 1.
        destruct (get_socket_info _ _ _) as [[] st4|e st4|st4]; try discriminate.
        unfold bind at 1.
        destruct (registry_get _ _) as [kernel st5|e st5|st5]; try discriminate.
        intros [= <- <-].
        eexists _, _. split; [reflexivity|]. simpl. split; [split|]; discriminate.
      * intros [= <- <-].
        eexists _, _. split; [reflexivity|]. simpl. split; [split|]; auto.
    + intros [= <- <-].
      eexists _, _. split; [reflexivity|]. simpl. split; [split|]; auto.
  - rewrite (handle_request_destroy Hact).
    destruct (bool_decide _).
    + destruct (destroy_kernel _ _ _) as [[] st1|e st1|st1]; try discriminate.
      intros [= <- <-].
      eexists _, _. split; [reflexivity|]. simpl. split; [split|]; discriminate.
    + intros [= <- <-].
      eexists _, _. split; [reflexivity|]. simpl. split; [split|]; discriminate.
Qed.

End HandleRequest.

Lemma handle_api_app pre rest st st1 :
  handle_api pre st = (AwaitingRequest, st1) →
  handle_api (pre ++ rest) st = handle_api rest st1.
Proof.
  revert st. induction pre as [|[req env] pre IH]; intros st; simpl.
  - by intros [= ->].
  - destruct (handle_request req env st) as [[|] st'|e st'|st']; try discriminate.
    apply IH.
Qed.

(** C5.  When no instance passes the availability filter of the
    selected driver, a CREATE request is answered with FAILURE, an empty
    kernel id and the text "No instance is available to launch a new
    kernel."; the coroutine returns, and neither registry (hence no port
    set and no counter) has changed: only the request read and the
    response written are added to the trace. *)
Theorem create_without_available_instance (req : ManagerRequest) (env : Env) (st : State) :
  action req = CREATE →
  (∀ i key inst, instance_registry st !! i = Some (key, inst) →
                 available (kernel_driver st) inst = false) →
  handle_request req env st =
  Ok Return
     (mkState (kernel_driver st) (instance_registry st) (kernel_registry st)
        (trace st ++ [ERead req;
                      EWrite (mkResponse FAILURE ""
                                (Text "No instance is available to launch a new kernel."))])).
Proof.
  intros Hact Hnone. rewrite (handle_request_create _ _ _ Hact).
  rewrite find_avail_instance_none by done.
  unfold log; simpl. by rewrite <-app_assoc.
Qed.

(** C10.  Once a pass of the loop has written a FAILURE response, which
    happens only for a CREATE request (no instance available, or no answer
    to the probes), the coroutine has returned: whatever requests follow in
    the input are neither read nor answered. *)
Theorem failure_reply_ends_handle_api
    (pre post : list (ManagerRequest * Env)) (req : ManagerRequest) (env : Env)
    (st st1 st2 : State) (c : Control) (resp : ManagerResponse) :
  handle_api pre st = (AwaitingRequest, st1) →
  handle_request req env st1 = Ok c st2 →
  last (trace st2) = Some (EWrite resp) →
  reply resp = FAILURE →
  c = Return
  ∧ action req = CREATE
  ∧ (resp = no_instance_response ∨ resp = no_answer_response)
  ∧ handle_api (pre ++ (req, env) :: post) st = (Returned, st2).
Proof.
  intros Hpre Hreq Hlast Hfail.
  destruct (handle_request_completed _ _ _ _ _ Hreq) as (st0 & resp' & -> & Hret & Hcreate).
  simpl in Hlast. rewrite last_snoc in Hlast. injection Hlast as ->.
  assert (c = Return) as -> by by apply Hret.
  destruct (Hcreate Hfail) as [Hact Hresp].
  repeat split; try done.
  rewrite (handle_api_app _ _ _ _ Hpre). simpl. by rewrite Hreq.
Qed.

Section RegistryFootprint.

Context {A B : Type}.

Lemma kernels_after_bind (R : relation (gmap string Kernel)) (m : M A) (k : A → M B) :
  Reflexive R →
  kernels_after eq m → (∀ a, kernels_after R (k a)) → kernels_after R (bind m k).
Proof.
  intros HR Hm Hk st. unfold bind. specialize (Hm st).
  destruct (m st) as [a st'|e st'|st']; simpl in *; rewrite Hm; [apply Hk|done..].
Qed.

Lemma kernels_after_bind_l (R : relation (gmap string Kernel)) (m : M A) (k : A → M B) :
  kernels_after R m → (∀ a, kernels_after eq (k a)) → kernels_after R (bind m k).
Proof.
  intros Hm Hk st. unfold bind. specialize (Hm st).
  destruct (m st) as [a st'|e st'|st']; simpl in *; [|done..].
  by rewrite <-(Hk a st').
Qed.

Lemma kernels_after_ret (R : relation (gmap string Kernel)) (a : A) :
  Reflexive R → kernels_after R (ret a).
Proof. intros HR st. apply HR. Qed.

Lemma kernels_after_raise (R : relation (gmap string Kernel)) (e : Py.exn) :
  Reflexive R → kernels_after R (raise (A := A) e).
Proof. intros HR st. apply HR. Qed.

End RegistryFootprint.

#[local] Instance entered_own_id_refl : Reflexive entered_own_id.
Proof. intros m. by left. Qed.

#[local] Instance deleted_at_refl kernel_id : Reflexive (deleted_at kernel_id).
Proof. intros m. by left. Qed.

Section Footprints.

Lemma get_instance_kernels ref : kernels_after eq (get_instance ref).
Proof. intros st. unfold get_instance. by destruct (_ !! ref) as [[]|]. Qed.

Lemma update_instance_kernels ref f : kernels_after eq (update_instance ref f).
Proof. intros st. unfold update_instance. by destruct (_ !! ref) as [[]|]. Qed.

Lemma assert_kernels line b : kernels_after eq (assert line b).
Proof. intros st. by destruct b. Qed.

Lemma emit_kernels e : kernels_after eq (emit e).
Proof. by intros st. Qed.

Lemma lift_try_kernels {A} (t : Py.try A) : kernels_after eq (lift_try t).
Proof. intros st. by destruct t. Qed.

Lemma registry_get_kernels kernel_id : kernels_after eq (registry_get kernel_id).
Proof. intros st. unfold registry_get. by destruct (_ !! kernel_id). Qed.

Lemma lazy_init_used_ports_kernels ref : kernels_after eq (lazy_init_used_ports ref).
Proof.
  apply kernels_after_bind; [apply _|apply get_instance_kernels|].
  intros inst. destruct (used_ports inst).
  - by apply kernels_after_ret.
  - apply update_instance_kernels.
Qed.

Lemma used_ports_remove_kernels ref agent_url :
  kernels_after eq (used_ports_remove ref agent_url).
Proof.
  apply kernels_after_bind; [apply _|apply get_instance_kernels|].
  intros inst. destruct (used_ports inst) as [used|]; [|by apply kernels_after_raise].
  apply kernels_after_bind; [apply _|apply lift_try_kernels|].
  intros [p|]; [|by apply kernels_after_raise].
  destruct (decide (p ∈ used)); [apply update_instance_kernels|by apply kernels_after_raise].
Qed.

Lemma docker_create_container_kernels base_url env :
  kernels_after eq (docker_create_container base_url env).
Proof. intros st. unfold docker_create_container. munfold. by destruct (env_docker env). Qed.

Lemma terminate_kernels pid child : kernels_after eq (terminate pid child).
Proof. intros st. by destruct child. Qed.

Lemma wait_kernels child : kernels_after eq (wait child).
Proof. intros st. by destruct child. Qed.

Lemma registry_set_kernels k : kernels_after entered_own_id (registry_set (kernel_id k) k).
Proof. intros st. right. by exists k. Qed.

Lemma registry_del_kernels kernel_id :
  kernels_after (deleted_at kernel_id) (registry_del kernel_id).
Proof.
  intros st. unfold registry_del.
  destruct (_ !! kernel_id); [by right|by left].
Qed.

Lemma create_kernel_kernels t instance env :
  kernels_after entered_own_id (create_kernel (driver_of t) instance env).
Proof.
  destruct t; simpl.
  - unfold LocalKernelDriver.create_kernel.
    apply kernels_after_bind; [apply _|apply lazy_init_used_ports_kernels|]. intros _.
    apply kernels_after_bind; [apply _|apply get_instance_kernels|]. intros inst.
    apply kernels_after_bind; [apply _|apply assert_kernels|]. intros _.
    destruct (scan_ports _ _) as [used agent_port].
    apply kernels_after_bind; [apply _|apply update_instance_kernels|]. intros _.
    apply kernels_after_bind; [apply _|apply assert_kernels|]. intros _.
    apply kernels_after_bind; [apply _|apply emit_kernels|]. intros _.
    apply kernels_after_bind_l.
    + apply (registry_set_kernels (mkKernel _ _ _ _ _ _ _ _)).
    + intros _. by apply kernels_after_ret.
  - unfold DockerKernelDriver.create_kernel.
    apply kernels_after_bind; [apply _|apply lazy_init_used_ports_kernels|]. intros _.
    apply kernels_after_bind; [apply _|apply get_instance_kernels|]. intros inst.
    apply kernels_after_bind; [apply _|apply assert_kernels|]. intros _.
    destruct (scan_ports _ _) as [used agent_port].
    apply kernels_after_bind; [apply _|apply update_instance_kernels|]. intros _.
    apply kernels_after_bind; [apply _|apply assert_kernels|]. intros _.
    apply kernels_after_bind; [apply _|apply docker_create_container_kernels|]. intros _.
    apply kernels_after_raise, _.
Qed.

Lemma destroy_kernel_kernels t kernel_id env :
  kernels_after (deleted_at kernel_id) (destroy_kernel (driver_of t) kernel_id env).
Proof.
  destruct t; simpl.
  - unfold LocalKernelDriver.destroy_kernel.
    apply kernels_after_bind; [apply _|apply registry_get_kernels|]. intros kernel.
    apply kernels_after_bind; [apply _|apply update_instance_kernels|]. intros _.
    apply kernels_after_bind; [apply _|apply get_instance_kernels|]. intros inst.
    apply kernels_after_bind; [apply _|apply assert_kernels|]. intros _.
    apply kernels_after_bind; [apply _| |].
    { destruct (priv kernel); by (apply kernels_after_ret || apply kernels_after_raise). }
    intros pid.
    apply kernels_after_bind; [apply _|apply terminate_kernels|]. intros _.
    apply kernels_after_bind; [apply _|apply wait_kernels|]. intros _.
    apply kernels_after_bind; [apply _|apply lift_try_kernels|]. intros agent_url.
    apply kernels_after_bind; [apply _|apply used_ports_remove_kernels|]. intros _.
    apply registry_del_kernels.
  - unfold DockerKernelDriver.destroy_kernel.
    apply kernels_after_bind; [apply _|apply registry_get_kernels|]. intros kernel.
    apply kernels_after_bind; [apply _|apply update_instance_kernels|]. intros _.
    apply kernels_after_bind; [apply _|apply get_instance_kernels|]. intros inst.
    apply kernels_after_bind; [apply _|apply assert_kernels|]. intros _.
    apply kernels_after_bind; [apply _|apply lift_try_kernels|]. intros agent_url.
    apply kernels_after_bind; [apply _|apply used_ports_remove_kernels|]. intros _.
    apply kernels_after_bind_l; [apply registry_del_kernels|].
    intros _. by apply kernels_after_raise.
Qed.

Lemma keys_match_ids_entered m m' :
  entered_own_id m m' → keys_match_ids m → keys_match_ids m'.
Proof.
  intros [->|[k ->]] Hm; [done|]. intros key k'.
  rewrite lookup_insert. case_decide; [by intros [= <-]|apply Hm].
Qed.

Lemma keys_match_ids_deleted kernel_id m m' :
  deleted_at kernel_id m m' → keys_match_ids m → keys_match_ids m'.
Proof.
  intros [->| ->] Hm; [done|]. intros key k'.
  rewrite lookup_delete. case_decide; [done|apply Hm].
Qed.

End Footprints.

(** C9.  Every entry of the kernel registry sits under the [kernel_id]
    of its record.  [create_kernel] of either driver, however it ends,
    leaves the registry as it was or with one record entered under its own
    id, so any entry it changed satisfies the property, and the property
    of the whole registry is kept; [destroy_kernel] of either driver only
    ever deletes an entry, and keeps the property too. *)
Theorem registry_keys_are_kernel_ids (t : KernelDriverTypes) (st : State) :
  (∀ instance env key k,
      kernel_registry (final (create_kernel (driver_of t) instance env st)) !! key = Some k →
      kernel_registry st !! key ≠ Some k →
      kernel_id k = key)
  ∧ (keys_match_ids (kernel_registry st) →
     (∀ instance env,
         keys_match_ids
           (kernel_registry (final (create_kernel (driver_of t) instance env st))))
     ∧ (∀ kernel_id env,
         keys_match_ids
           (kernel_registry (final (destroy_kernel (driver_of t) kernel_id env st))))).
Proof.
  split; [|intros Hst; split].
  - intros instance env key k Hnew Hold.
    destruct (create_kernel_kernels t instance env st) as [Heq|[k' Heq]];
      rewrite Heq in Hnew; [done|].
    rewrite lookup_insert in Hnew. case_decide; [by injection Hnew as <-|done].
  - intros instance env.
    exact (keys_match_ids_entered _ _ (create_kernel_kernels t instance env st) Hst).
  - intros kernel_id env.
    exact (keys_match_ids_deleted _ _ _ (destroy_kernel_kernels t kernel_id env st) Hst).
Qed.

Section ReturnedId.

Variables (st : State) (instance : nat) (env : Env).

Lemma create_kernel_dangling t :
  instance_registry st !! instance = None →
  create_kernel (driver_of t) instance env st = Raise Py.AttributeError st.
Proof.
  intros Hnone. destruct t; simpl.
  - unfold LocalKernelDriver.create_kernel, lazy_init_used_ports. munfold. by rewrite Hnone.
  - unfold DockerKernelDriver.create_kernel, lazy_init_used_ports. munfold. by rewrite Hnone.
Qed.

Lemma docker_create_kernel_not_ok kid st' :
  DockerKernelDriver.create_kernel instance env st ≠ Ok kid st'.
Proof.
  destruct (instance_registry st !! instance) as [[key inst]|] eqn:Hinst.
  - rewrite (docker_create_kernel_eq _ _ _ _ _ Hinst). cbv zeta.
    destruct (bool_decide _); [|discriminate]. destruct (_ =? 0); discriminate.
  - pose proof (create_kernel_dangling docker Hinst) as H. simpl in H. by rewrite H.
Qed.

Lemma local_create_kernel_ok kid st' :
  LocalKernelDriver.create_kernel instance env st = Ok kid st' →
  kid = "local/" +:+ env_uuid env
  ∧ ∃ k, kernel_registry st' !! kid = Some k ∧ kernel_id k = kid.
Proof.
  destruct (instance_registry st !! instance) as [[key inst]|] eqn:Hinst.
  - rewrite (local_create_kernel_eq _ _ _ _ _ Hinst). cbv zeta.
    destruct (bool_decide _); [|discriminate]. destruct (_ =? 0); [discriminate|].
    intros [= <- <-]. split; [done|]. simpl. rewrite lookup_insert_eq. eauto.
  - pose proof (create_kernel_dangling local Hinst) as H. simpl in H. by rewrite H.
Qed.

End ReturnedId.

(** C3.  The local driver returns the id ["local/" + uuid] under which
    it has just written the record.  The docker driver never returns an id
    and never writes a record: however its [create_kernel] ends, the kernel
    registry is as before.  On an instance with a free port and
    [max_kernels <= 8] it reserves the smallest free port, asks the docker
    daemon for a container, and stops: with the exception of the client if
    that raises, and otherwise with [AttributeError] at [container.id],
    because the client hands back a [dict]. *)
Theorem docker_create_kernel_never_returns
    (st : State) (instance : nat) (env : Env) :
  (∀ kid st',
      create_kernel (driver_of local) instance env st = Ok kid st' →
      kid = "local/" +:+ env_uuid env
      ∧ ∃ k, kernel_registry st' !! kid = Some k ∧ kernel_id k = kid)
  ∧ (∀ kid st',
      create_kernel (driver_of docker) instance env st ≠ Ok kid st')
  ∧ kernel_registry (final (create_kernel (driver_of docker) instance env st))
    = kernel_registry st
  ∧ (∀ key inst,
      instance_registry st !! instance = Some (key, inst) →
      max_kernels inst <= 8 →
      (size (default ∅ (used_ports inst)) < 8)%nat →
      ∃ st' p,
        create_kernel (driver_of docker) instance env st
        = Raise (from_option Py.Foreign Py.AttributeError (env_docker env)) st'
        ∧ trace st'
          = trace st
            ++ [EDocker ("tcp://" +:+ ip inst +:+ ":" +:+ Py.str (docker_port inst))]
        ∧ 5002 <= p < 5010
        ∧ (p ∉ default ∅ (used_ports inst))
        ∧ instance_registry st' !! instance
          = Some (key, set_used_ports (Some ({[p]} ∪ default ∅ (used_ports inst))) inst)).
Proof.
  split; [|split; [|split]].
  - apply local_create_kernel_ok.
  - apply docker_create_kernel_not_ok.
  - simpl. destruct (instance_registry st !! instance) as [[key inst]|] eqn:Hinst.
    + rewrite (docker_create_kernel_eq _ _ _ _ _ Hinst). cbv zeta.
      destruct (bool_decide _); [|done]. by destruct (_ =? 0).
    + pose proof (create_kernel_dangling st instance env docker Hinst) as H.
      simpl in H. by rewrite H.
  - intros key inst Hinst Hmax Hsize. simpl.
    rewrite (docker_create_kernel_eq _ _ _ _ _ Hinst). cbv zeta.
    rewrite bool_decide_eq_true_2 by done.
    pose proof (scan_ports_finds _ Hsize) as Hport.
    pose proof (scan_ports_smallest (default ∅ (used_ports inst))) as Hscan.
    destruct (scan_ports AgentPortRange (default ∅ (used_ports inst))) as [used' p].
    cbn [fst snd] in *.
    destruct (p =? 0) eqn:E; [by apply Z.eqb_eq in E|].
    destruct Hscan as [(-> & _)|(Hp & Hfree & -> & _)]; [done|].
    eexists _, p. split; [reflexivity|]. split; [done|]. split; [done|]. split; [done|].
    simpl. by apply list_lookup_insert_eq, (lookup_lt_Some _ _ _ Hinst).
Qed.

Section Dispatch.
Import events.

Lemma coroutines_callable cs n :
  Forall (λ c, accepts c.2 (2 + n) = true) cs → Forall (callable_with n) (coroutines cs).
Proof.
  intros Hcs. apply Forall_fmap. eapply Forall_impl; [exact Hcs|].
  intros [name sig] Hacc. by exists name, sig.
Qed.

Lemma dispatch_handlers_callable pre agent_id args items rest queue :
  Py.unpack args = Py.Val items →
  Forall (callable_with (length items)) pre →
  dispatch_handlers (pre ++ rest) agent_id args queue =
  dispatch_handlers rest agent_id args (queue ++ (schedule_of agent_id items <$> pre)).
Proof.
  intros Hitems Hpre. revert queue.
  induction Hpre as [|h pre (name & sig & -> & Hacc) _ IH]; intros queue; simpl.
  - by rewrite app_nil_r.
  - rewrite Hitems. simpl in Hacc. rewrite Hacc, IH. by rewrite <-app_assoc.
Qed.

(** A chain of coroutine functions that take the frame's arguments is
    scheduled whole, in registration order; an event name without handlers
    schedules nothing and raises nothing. *)
Lemma dispatch_callable d event_name agent_id args o items :
  first_arg args = Py.Val o →
  Py.unpack args = Py.Val items →
  Forall (callable_with (length items)) (chain d event_name) →
  dispatch d event_name agent_id args =
  (mkDispatcher (<[event_name := chain d event_name]> (handlers d))
     (loop d ++ (schedule_of agent_id items <$> chain d event_name)), None).
Proof.
  intros Hfirst Hitems Hchain. unfold dispatch. rewrite Hfirst. fold (chain d event_name).
  pose proof (dispatch_handlers_callable (chain d event_name) agent_id args items []
                (loop d) Hitems Hchain) as H.
  rewrite app_nil_r in H. by rewrite H.
Qed.

Lemma dispatch_unknown d event_name agent_id args o :
  first_arg args = Py.Val o →
  chain d event_name = [] →
  dispatch d event_name agent_id args =
  (mkDispatcher (<[event_name := []]> (handlers d)) (loop d), None).
Proof.
  intros Hfirst Hh. unfold dispatch. rewrite Hfirst. fold (chain d event_name).
  by rewrite Hh.
Qed.

(** A chain that holds an ordinary callable is never run through: the
    dispatcher stops at the callable, or before it. *)
Lemma dispatch_handlers_plain cs h post agent_id args : ∀ queue,
  ∃ e n,
    dispatch_handlers (coroutines cs ++ Plain h :: post) agent_id args queue
    = (queue ++ ((λ c, Task c.1 agent_id (items_of args)) <$> take n cs), Some e).
Proof.
  induction cs as [|[name sig] cs IH]; intros queue; simpl.
  - exists (Py.NameError "functools"), 0%nat. by rewrite app_nil_r.
  - unfold items_of. destruct (Py.unpack args) as [items|e] eqn:Hitems.
    + destruct (accepts sig _).
      * destruct (IH (queue ++ [Task name agent_id items])) as (e & n & ->).
        exists e, (S n). unfold items_of. rewrite Hitems. simpl.
        by rewrite <-app_assoc.
      * exists Py.TypeError, 0%nat. by rewrite app_nil_r.
    + exists e, 0%nat. by rewrite app_nil_r.
Qed.

End Dispatch.

(** C4.  When the chain registered for an event holds an ordinary
    (non-coroutine) callable after the coroutine functions [cs], a frame of
    that event is never dispatched to the whole chain, whatever its
    arguments: [dispatch] raises, having scheduled at most some first of
    [cs], and the subscriber's catch-all clause ends the subscriber, so no
    later frame is dispatched.  When the first argument can be read, the
    arguments unpack and every function of [cs] takes them, [dispatch]
    schedules exactly [cs] and then raises [NameError]: [functools] is not
    imported.  Neither the callable nor any handler after it is scheduled. *)
Theorem dispatch_plain_handler_raises
    (d : events.EventDispatcher) (f : events.Frame) (later : list events.Received)
    (cs : list (string * events.Signature)) (h : string) (post : list events.Handler) :
  events.handlers d !! events.event_name f
    = Some (coroutines cs ++ events.Plain h :: post) →
  (∃ e d' n,
      events.dispatch d (events.event_name f) (events.agent_id f) (events.args f)
        = (d', Some e)
      ∧ events.event_subscriber d (events.Decoded f :: later) = (d', events.Ended e)
      ∧ events.handlers d' = events.handlers d
      ∧ events.loop d'
        = events.loop d
          ++ ((λ c, events.Task c.1 (events.agent_id f) (items_of (events.args f)))
                <$> take n cs)
      ∧ ∀ items,
          events.loop d'
          ≠ events.loop d
            ++ (events.schedule_of (events.agent_id f) items
                  <$> (coroutines cs ++ events.Plain h :: post)))
  ∧ (∀ o items,
      events.first_arg (events.args f) = Py.Val o →
      Py.unpack (events.args f) = Py.Val items →
      Forall (λ c, events.accepts c.2 (2 + length items) = true) cs →
      let d' := events.mkDispatcher (events.handlers d)
                  (events.loop d
                   ++ ((λ c, events.Task c.1 (events.agent_id f) items) <$> cs)) in
      events.dispatch d (events.event_name f) (events.agent_id f) (events.args f)
        = (d', Some (Py.NameError "functools"))
      ∧ events.event_subscriber d (events.Decoded f :: later)
        = (d', events.Ended (Py.NameError "functools"))
      ∧ events.loop d'
        ≠ events.loop d
          ++ (events.schedule_of (events.agent_id f) items
                <$> (coroutines cs ++ events.Plain h :: post))).
Proof.
  intros Hh.
  assert (∀ (n : nat) (items items' : list Py.value),
             events.loop d
             ++ ((λ c, events.Task c.1 (events.agent_id f) items) <$> take n cs)
             ≠ events.loop d
               ++ (events.schedule_of (events.agent_id f) items'
                     <$> (coroutines cs ++ events.Plain h :: post))) as Hshort.
  { intros n items items' Heq. apply app_inv_head in Heq.
    apply (f_equal length) in Heq. unfold coroutines in Heq.
    rewrite !length_fmap, length_app, length_fmap, length_take in Heq. simpl in Heq. lia. }
  split.
  - unfold events.event_subscriber, events.dispatch.
    destruct (events.first_arg (events.args f)) as [o|e] eqn:Hfirst.
    + rewrite Hh. cbn [default from_option id].
      destruct (dispatch_handlers_plain cs h post (events.agent_id f) (events.args f)
                  (events.loop d)) as (e & n & ->).
      eexists e, _, n. split; [reflexivity|]. split; [reflexivity|]. simpl.
      split; [by apply insert_id|]. split; [done|]. intros items. apply Hshort.
    + exists e, d, 0%nat. split; [done|]. split; [done|]. split; [done|].
      split; [by rewrite app_nil_r|].
      intros items. rewrite <-(app_nil_r (events.loop d)) at 1.
      exact (Hshort 0%nat [] items).
  - intros o items Hfirst Hitems Hcs d'.
    assert (events.dispatch d (events.event_name f) (events.agent_id f) (events.args f)
            = (d', Some (Py.NameError "functools"))) as Hd.
    { unfold events.dispatch. rewrite Hfirst, Hh. cbn [default from_option id].
      rewrite (dispatch_handlers_callable _ _ _ items) by (done || by apply coroutines_callable).
      simpl. rewrite insert_id by done. subst d'. do 3 f_equal.
      unfold coroutines. rewrite <-list_fmap_compose. by apply list_fmap_ext. }
    split; [done|split].
    + simpl. by rewrite Hd.
    + subst d'; simpl. rewrite <-(firstn_all cs) at 1. apply Hshort.
Qed.

Lemma scan_ports_is_smallest (used : gset Z) p :
  5002 <= p < 5010 → p ∉ used → (∀ q, 5002 <= q < p → q ∈ used) →
  scan_ports AgentPortRange used = ({[p]} ∪ used, p).
Proof.
  intros Hp Hfree Hsmallest.
  pose proof (scan_ports_smallest used) as Hscan.
  destruct (scan_ports AgentPortRange used) as [used' p'].
  destruct Hscan as [(_ & _ & Hall)|(Hp' & Hfree' & -> & Hsmallest')].
  - exfalso. by apply Hfree, Hall.
  - assert (p' = p) as ->; [|done].
    destruct (Z.lt_trichotomy p' p) as [Hlt|[Heq|Hgt]]; [|done|].
    + exfalso. apply Hfree', Hsmallest. lia.
    + exfalso. apply Hfree, Hsmallest'. lia.
Qed.

(** C1 (as the code has it).  Under the local driver (the only one whose
    [create_kernel] returns), when the first available instance [inst] has
    [max_kernels < 8] and a smallest free port [p], and none of the five
    heartbeats is answered, a CREATE request is answered with FAILURE, an
    empty kernel id and the text "The created kernel did not respond!",
    and the coroutine returns.  No cleanup is done on this path: the record
    of the new kernel stays in the registry, [p] stays among the occupied
    ports of the instance, and the count of the instance stays one above
    its value before the request. *)
Theorem create_without_answer_keeps_kernel
    (req : ManagerRequest) (env : Env) (st : State)
    (i : nat) (key : string) (inst : Instance) (p : Z) :
  kernel_driver st = local →
  action req = CREATE →
  instance_registry st !! i = Some (key, inst) →
  available local inst = true →
  (∀ j key' inst', (j < i)%nat → instance_registry st !! j = Some (key', inst') →
                   available local inst' = false) →
  max_kernels inst < 8 →
  let used := default ∅ (used_ports inst) in
  5002 <= p < 5010 → p ∉ used → (∀ q, 5002 <= q < p → q ∈ used) →
  (∀ n, (n < 5)%nat → ping_ok (env_heartbeat env n) = false) →
  let kid := "local/" +:+ env_uuid env in
  let sock := agent_sock_url (ip inst) p in
  let k := mkKernel i kid "python34" sock None None None (PrivProc (env_pid env)) in
  let inst' := mkInstance (ip inst) (docker_port inst) (tag inst) (max_kernels inst)
                          (cur_kernels inst + 1) (Some ({[p]} ∪ used)) in
  handle_request req env st =
  Ok Return
     (mkState local
        (<[i := (key, inst')]> (instance_registry st))
        (<[kid := k]> (kernel_registry st))
        (trace st
         ++ [ERead req;
             ESpawn ["/usr/bin/python3"; "-m"; "sorna.kernel_agent"; "--kernel-id"; kid;
                     "--agent-port"; Py.str p]%string;
             ESleep 200]
         ++ failed_attempts sock env 0 5
         ++ [EWrite (mkResponse FAILURE "" (Text "The created kernel did not respond!"))])).
Proof.
  intros Hdrv Hact Hinst Hav Hfirst Hmax used Hp Hfree Hsmallest Hfail kid sock k inst'.
  rewrite (handle_request_create _ _ _ Hact), Hdrv.
  rewrite (find_avail_instance_some local (log (ERead req) st) i key inst Hinst Hav Hfirst).
  set (st1 := set_instances _ _).
  assert (instance_registry st1 !! i
          = Some (key, set_cur_kernels (cur_kernels inst + 1) inst)) as Hinst1.
  { subst st1; simpl. apply list_lookup_insert_eq. by eapply lookup_lt_Some. }
  change (create_kernel (driver_of local)) with LocalKernelDriver.create_kernel.
  rewrite (local_create_kernel_eq _ _ _ _ _ Hinst1). cbv zeta.
  change (max_kernels (set_cur_kernels _ inst)) with (max_kernels inst).
  change (used_ports (set_cur_kernels _ inst)) with (used_ports inst). fold used.
  rewrite bool_decide_eq_true_2 by done.
  rewrite (scan_ports_is_smallest used p Hp Hfree Hsmallest). cbn [fst snd].
  destruct (p =? 0) eqn:E; [apply Z.eqb_eq in E; lia|].
  fold kid.
  change (ip (set_cur_kernels _ inst)) with (ip inst). fold sock. fold k.
  rewrite (probe_loop_all_fail kid env k 5 0); [|done|by simpl; rewrite lookup_insert_eq|].
  2:{ intros n Hn. apply Hfail. lia. }
  subst st1. unfold log, add_trace, set_kernels, put_instance, set_instances.
  cbn -[failed_attempts].
  rewrite Hdrv, list_insert_insert_eq. f_equal. f_equal.
  rewrite <-!app_assoc. reflexivity.
Qed.

(** C1 refuted as stated: from the import-time state with the local
    driver, a CREATE whose kernel answers none of its heartbeats leaves the
    record ["local/5f1c"] in the registry. *)
Lemma probe_failure_leaks_kernel :
  (∀ n, ping_ok (env_heartbeat silent_env n) = false)
  ∧ ¬ probe_failure_destroys_kernel local_state create_request silent_env "local/5f1c".
Proof.
  split; [done|].
  intros (st' & Hrun & _ & Hgone & _).
  vm_compute in Hrun. injection Hrun as <-.
  vm_compute in Hgone. discriminate.
Qed.

Section Destroy.

Variables (st : State) (kid : string) (k : Kernel) (key : string) (inst : Instance)
          (used : gset Z) (n : string) (p : Z) (env : Env).
Hypothesis Hk : kernel_registry st !! kid = Some k.
Hypothesis Hinst : instance_registry st !! instance k = Some (key, inst).
Hypothesis Hused : used_ports inst = Some used.
Hypothesis Hurl : urllib.urlparse (agent_sock k) = Py.Val n.
Hypothesis Hport : urllib.port n = Py.Val (Some p).
Hypothesis Hin : p ∈ used.
Hypothesis Hcur : 1 <= cur_kernels inst.

Let released : list (string * Instance) :=
  <[instance k := (key, mkInstance (ip inst) (docker_port inst) (tag inst) (max_kernels inst)
                               (cur_kernels inst - 1) (Some (used ∖ {[p]})))]>
    (instance_registry st).

Let claimed : list (string * Instance) :=
  <[instance k := (key, set_cur_kernels (cur_kernels inst - 1) inst)]> (instance_registry st).

Lemma local_destroy_kernel_known pid :
  priv k = PrivProc pid →
  LocalKernelDriver.destroy_kernel kid env st =
  match env_child env with
  | ChildRunning =>
      Ok tt (mkState (kernel_driver st) released (delete kid (kernel_registry st))
                     (trace st ++ [ETerminate pid]))
  | ChildExited =>
      Raise Py.ProcessLookupError
            (mkState (kernel_driver st) claimed (kernel_registry st) (trace st))
  | ChildUnresponsive =>
      Blocked (mkState (kernel_driver st) claimed (kernel_registry st)
                       (trace st ++ [ETerminate pid]))
  end.
Proof.
  intros Hpriv. subst released claimed. unfold LocalKernelDriver.destroy_kernel.
  unfold bind at 1. unfold registry_get at 1. rewrite Hk.
  unfold bind at 1. unfold update_instance at 1. rewrite Hinst.
  set (st1 := set_instances _ _).
  assert (instance_registry st1 !! instance k
          = Some (key, set_cur_kernels (cur_kernels inst - 1) inst)) as Hinst1.
  { subst st1; simpl. apply list_lookup_insert_eq. by eapply lookup_lt_Some. }
  unfold bind at 1. unfold get_instance at 1. rewrite Hinst1.
  unfold bind at 1. unfold assert at 1. cbn [cur_kernels set_cur_kernels].
  rewrite bool_decide_eq_true_2 by lia. unfold ret at 1.
  rewrite Hpriv. unfold bind at 1. unfold ret at 1.
  destruct (env_child env); cbn [terminate wait];
    [|by destruct st|by destruct st].
  unfold bind at 1. unfold emit at 1.
  unfold bind at 1. unfold ret at 1.
  unfold bind at 1. rewrite Hurl. unfold lift_try at 1, ret at 1.
  unfold bind at 1. unfold used_ports_remove.
  unfold bind at 1. unfold get_instance at 1.
  change (instance_registry (log (ETerminate pid) st1)) with (instance_registry st1).
  rewrite Hinst1. cbn [used_ports set_cur_kernels]. rewrite Hused.
  unfold bind at 1. rewrite Hport. unfold lift_try at 1, ret at 1.
  rewrite decide_True by done.
  unfold update_instance.
  change (instance_registry (log (ETerminate pid) st1)) with (instance_registry st1).
  rewrite Hinst1.
  unfold registry_del. cbn [kernel_registry set_instances log]. subst st1.
  cbn [kernel_registry set_instances log]. rewrite Hk.
  unfold set_kernels, set_instances, log. cbn. rewrite list_insert_insert_eq.
  reflexivity.
Qed.

Lemma docker_destroy_kernel_known :
  DockerKernelDriver.destroy_kernel kid env st =
  Raise Py.NotImplementedError
        (mkState (kernel_driver st) released (delete kid (kernel_registry st)) (trace st)).
Proof.
  subst released. unfold DockerKernelDriver.destroy_kernel.
  unfold bind at 1. unfold registry_get at 1. rewrite Hk.
  unfold bind at 1. unfold update_instance at 1. rewrite Hinst.
  set (st1 := set_instances _ _).
  assert (instance_registry st1 !! instance k
          = Some (key, set_cur_kernels (cur_kernels inst - 1) inst)) as Hinst1.
  { subst st1; simpl. apply list_lookup_insert_eq. by eapply lookup_lt_Some. }
  unfold bind at 1. unfold get_instance at 1. rewrite Hinst1.
  unfold bind at 1. unfold assert at 1. cbn [cur_kernels set_cur_kernels].
  rewrite bool_decide_eq_true_2 by lia. unfold ret at 1.
  unfold bind at 1. rewrite Hurl. unfold lift_try at 1, ret at 1.
  unfold bind at 1. unfold used_ports_remove.
  unfold bind at 1. unfold get_instance at 1.
  rewrite Hinst1. cbn [used_ports set_cur_kernels]. rewrite Hused.
  unfold bind at 1. rewrite Hport. unfold lift_try at 1, ret at 1.
  rewrite decide_True by done.
  unfold update_instance. rewrite Hinst1.
  unfold bind at 1.
  unfold registry_del. cbn [kernel_registry set_instances]. subst st1.
  cbn [kernel_registry set_instances]. rewrite Hk.
  unfold set_kernels, set_instances, raise. cbn. rewrite list_insert_insert_eq.
  reflexivity.
Qed.

End Destroy.

(** A DESTROY of a registered kernel whose bookkeeping is in order, spelled
    out for both drivers and for every state of the child process. *)
Lemma handle_request_destroy_known
    (req : ManagerRequest) (env : Env) (st : State) (k : Kernel)
    (key : string) (inst : Instance) (used : gset Z) (n : string) (p : Z) :
  action req = DESTROY →
  kernel_registry st !! req_kernel_id req = Some k →
  instance_registry st !! instance k = Some (key, inst) →
  used_ports inst = Some used →
  urllib.urlparse (agent_sock k) = Py.Val n →
  urllib.port n = Py.Val (Some p) →
  p ∈ used →
  1 <= cur_kernels inst →
  let inst' := mkInstance (ip inst) (docker_port inst) (tag inst) (max_kernels inst)
                          (cur_kernels inst - 1) (Some (used ∖ {[p]})) in
  let after tr :=
    mkState (kernel_driver st)
            (<[instance k := (key, inst')]> (instance_registry st))
            (delete (req_kernel_id req) (kernel_registry st)) tr in
  let claimed tr :=
    mkState (kernel_driver st)
            (<[instance k := (key, set_cur_kernels (cur_kernels inst - 1) inst)]>
               (instance_registry st))
            (kernel_registry st) tr in
  match kernel_driver st with
  | local =>
      ∀ pid, priv k = PrivProc pid →
        handle_request req env st =
        match env_child env with
        | ChildRunning =>
            Ok Continue
               (after (trace st
                       ++ [ERead req; ETerminate pid;
                           EWrite (mkResponse SUCCESS (req_kernel_id req) (Text ""))]))
        | ChildExited =>
            Raise Py.ProcessLookupError (claimed (trace st ++ [ERead req]))
        | ChildUnresponsive =>
            Blocked (claimed (trace st ++ [ERead req; ETerminate pid]))
        end
  | docker =>
      handle_request req env st =
      Raise Py.NotImplementedError (after (trace st ++ [ERead req]))
  end
  ∧ kernel_registry (after []) !! req_kernel_id req = None
  ∧ instance_registry (after []) !! instance k = Some (key, inst')
  ∧ p ∉ used ∖ {[p]}.
Proof.
  intros Hact Hk Hinst Hused Hurl Hport Hin Hcur inst' after claimed.
  split; [|split; [|split]].
  - rewrite (handle_request_destroy _ _ _ Hact).
    rewrite bool_decide_eq_true_2 by eauto.
    destruct (kernel_driver st) eqn:Hdrv.
    + intros pid Hpriv.
      change (destroy_kernel (driver_of local)) with LocalKernelDriver.destroy_kernel.
      rewrite (local_destroy_kernel_known (log (ERead req) st) _ k key inst used n p env
                 Hk Hinst Hused Hurl Hport Hin Hcur pid Hpriv).
      subst after claimed.
      destruct (env_child env); unfold log; cbn; rewrite ?Hdrv, <-?app_assoc; reflexivity.
    + change (destroy_kernel (driver_of docker)) with DockerKernelDriver.destroy_kernel.
      rewrite (docker_destroy_kernel_known (log (ERead req) st) _ k key inst used n p env
                 Hk Hinst Hused Hurl Hport Hin Hcur).
      subst after. unfold log; cbn. rewrite Hdrv. reflexivity.
  - apply lookup_delete_eq.
  - simpl. apply list_lookup_insert_eq. by eapply lookup_lt_Some.
  - intros [_ Hne]%elem_of_difference. apply Hne. by apply elem_of_singleton.
Qed.

Lemma consistent_create st i key inst p kid k' tr :
  consistent st →
  instance_registry st !! i = Some (key, inst) →
  p ∉ occupied inst →
  instance k' = i → kernel_port k' = Some p →
  (kernel_driver st = local → ∃ pid, priv k' = PrivProc pid) →
  consistent
    (mkState (kernel_driver st)
       (<[i := (key, mkInstance (ip inst) (docker_port inst) (tag inst) (max_kernels inst)
                                (cur_kernels inst + 1) (Some ({[p]} ∪ occupied inst)))]>
          (instance_registry st))
       (<[kid := k']> (kernel_registry st)) tr).
Proof.
  intros [Hplaced Hdistinct Hcounted] Hinst Hfree Hk'i Hk'p Hk'priv.
  pose proof (lookup_lt_Some _ _ _ Hinst) as Hlt.
  split; simpl.
  - intros kid2 k2. rewrite lookup_insert. case_decide as Hkid.
    + intros [= <-]. rewrite Hk'i. eexists _, _, p.
      rewrite list_lookup_insert_eq by done. split; [done|]. split; [done|].
      split; [|done]. unfold occupied; simpl.
      apply elem_of_union. left. by apply elem_of_singleton.
    + intros Hk2. destruct (Hplaced _ _ Hk2) as (key2 & inst2 & p2 & Hi2 & Hp2 & Hin2 & Hpriv2).
      destruct (decide (instance k2 = i)) as [Heq|Hne].
      * rewrite Heq in *. rewrite list_lookup_insert_eq by done.
        rewrite Hinst in Hi2. injection Hi2 as <- <-.
        eexists _, _, p2. split; [done|]. split; [done|]. split; [|done].
        unfold occupied at 1; simpl. apply elem_of_union. by right.
      * rewrite list_lookup_insert_ne by done. eauto 10.
  - intros kid1 kid2 k1 k2 Hne. rewrite !lookup_insert.
    case_decide as H1; case_decide as H2.
    + congruence.
    + intros [= <-] Hk2 Hsame. rewrite Hk'p.
      destruct (Hplaced _ _ Hk2) as (key2 & inst2 & p2 & Hi2 & Hp2 & Hin2 & _).
      rewrite <-Hsame, Hk'i, Hinst in Hi2. injection Hi2 as <- <-.
      rewrite Hp2. intros [= ->]. done.
    + intros Hk1 [= <-] Hsame. rewrite Hk'p.
      destruct (Hplaced _ _ Hk1) as (key1 & inst1 & p1 & Hi1 & Hp1 & Hin1 & _).
      rewrite Hsame, Hk'i, Hinst in Hi1. injection Hi1 as <- <-.
      rewrite Hp1. intros [= ->]. done.
    + by apply Hdistinct.
  - intros j keyj instj. destruct (decide (j = i)) as [->|Hne].
    + rewrite list_lookup_insert_eq by done. intros [= <- <-].
      unfold occupied at 1; simpl.
      rewrite size_union by by apply disjoint_singleton_l. rewrite size_singleton.
      specialize (Hcounted _ _ _ Hinst). lia.
    + rewrite list_lookup_insert_ne by done. apply Hcounted.
Qed.

Lemma consistent_destroy st kid k key inst p tr :
  consistent st →
  kernel_registry st !! kid = Some k →
  instance_registry st !! instance k = Some (key, inst) →
  kernel_port k = Some p →
  p ∈ occupied inst →
  consistent
    (mkState (kernel_driver st)
       (<[instance k := (key, mkInstance (ip inst) (docker_port inst) (tag inst)
                                         (max_kernels inst) (cur_kernels inst - 1)
                                         (Some (occupied inst ∖ {[p]})))]>
          (instance_registry st))
       (delete kid (kernel_registry st)) tr).
Proof.
  intros [Hplaced Hdistinct Hcounted] Hk Hinst Hp Hin.
  pose proof (lookup_lt_Some _ _ _ Hinst) as Hlt.
  split; simpl.
  - intros kid2 k2. rewrite lookup_delete. case_decide as Hkid; [done|].
    intros Hk2. destruct (Hplaced _ _ Hk2) as (key2 & inst2 & p2 & Hi2 & Hp2 & Hin2 & Hpriv2).
    destruct (decide (instance k2 = instance k)) as [Heq|Hne].
    + rewrite Heq in *. rewrite list_lookup_insert_eq by done.
      rewrite Hinst in Hi2. injection Hi2 as <- <-.
      eexists _, _, p2. split; [done|]. split; [done|]. split; [|done].
      unfold occupied at 1; simpl.
      apply elem_of_difference. split; [done|]. rewrite elem_of_singleton.
      intros ->. apply (Hdistinct kid2 kid k2 k); try done. congruence.
    + rewrite list_lookup_insert_ne by done. eauto 10.
  - intros kid1 kid2 k1 k2 Hne. rewrite !lookup_delete.
    case_decide; [done|]. case_decide; [done|]. by apply Hdistinct.
  - intros j keyj instj. destruct (decide (j = instance k)) as [->|Hne].
    + rewrite list_lookup_insert_eq by done. intros [= <- <-].
      unfold occupied at 1; simpl.
      specialize (Hcounted _ _ _ Hinst).
      assert (size (occupied inst) = S (size (occupied inst ∖ {[p]}))) as Hsz.
      { rewrite (union_difference_L {[p]} (occupied inst)) at 1
          by by apply singleton_subseteq_l.
        rewrite size_union, size_singleton; [done|].
        apply disjoint_singleton_l. intros [_ Hne]%elem_of_difference.
        apply Hne. by apply elem_of_singleton. }
      lia.
    + rewrite list_lookup_insert_ne by done. apply Hcounted.
Qed.


Lemma consistent_ext st st' :
  kernel_driver st' = kernel_driver st →
  instance_registry st' = instance_registry st →
  kernel_registry st' = kernel_registry st →
  consistent st → consistent st'.
Proof.
  intros Hd Hi Hk [Hplaced Hdistinct Hcounted].
  split; rewrite ?Hd, ?Hi, ?Hk; done.
Qed.

Lemma consistent_registered st kid k :
  consistent st → kernel_registry st !! kid = Some k →
  ∃ key inst used n p,
    instance_registry st !! instance k = Some (key, inst)
    ∧ used_ports inst = Some used
    ∧ urllib.urlparse (agent_sock k) = Py.Val n
    ∧ urllib.port n = Py.Val (Some p)
    ∧ kernel_port k = Some p
    ∧ p ∈ used
    ∧ 1 <= cur_kernels inst
    ∧ (kernel_driver st = local → ∃ pid, priv k = PrivProc pid).
Proof.
  intros [Hplaced _ Hcounted] Hk.
  destruct (Hplaced _ _ Hk) as (key & inst & p & Hi & Hp & Hin & Hpriv).
  specialize (Hcounted _ _ _ Hi).
  unfold occupied in *. destruct (used_ports inst) as [used|] eqn:Hused; simpl in *.
  - pose proof Hp as Hp'. unfold kernel_port in Hp'.
    destruct (urllib.urlparse (agent_sock k)) as [n|] eqn:Hurl; [|done].
    destruct (urllib.port n) as [[p'|]|] eqn:Hport; try done.
    injection Hp' as ->.
    exists key, inst, used, n, p. repeat split; try done.
    assert (size used ≠ 0%nat); [|lia].
    intros Hz. apply size_empty_inv in Hz.
    apply (not_elem_of_empty (C := gset Z) p). by apply Hz.
  - by apply not_elem_of_empty in Hin.
Qed.

Lemma scan_of_some t l n r :
  scan_of t l n = Some r →
  ∃ i key inst, r = (n + i)%nat ∧ l !! i = Some (key, inst) ∧ available t inst = true.
Proof.
  revert n. induction l as [|[key inst] rest IH]; intros n.
  - destruct t; discriminate.
  - rewrite scan_of_step. destruct (available t inst) eqn:Hav.
    + intros [= <-]. exists 0%nat, key, inst. split; [lia|done].
    + intros (i & key' & inst' & -> & Hi & Hav')%IH.
      exists (S i), key', inst'. split; [lia|done].
Qed.

Lemma find_avail_instance_inv t st o st1 :
  find_avail_instance (driver_of t) st = Ok o st1 →
  match o with
  | None => st1 = st
  | Some i =>
      ∃ key inst,
        instance_registry st !! i = Some (key, inst)
        ∧ available t inst = true
        ∧ st1 = put_instance i key (set_cur_kernels (cur_kernels inst + 1) inst) st
  end.
Proof.
  rewrite find_avail_instance_unfold.
  destruct (scan_of t (instance_registry st) 0) as [r|] eqn:Hscan.
  - apply scan_of_some in Hscan as (i & key & inst & -> & Hi & Hav). simpl.
    munfold. rewrite Hi. intros [= <- <-]. eauto.
  - by intros [= <- <-].
Qed.

Lemma ping_kernel_ok kernel_id hb st b st' :
  ping_kernel kernel_id hb st = Ok b st' → ∃ e, st' = log e st.
Proof.
  unfold ping_kernel. munfold. destruct (_ !! kernel_id); [|done].
  destruct (hb_reply hb); intros [= <- <-]; eauto.
Qed.

Lemma probe_loop_ok kernel_id env n : ∀ tries st b st',
  (5 - tries = n)%nat →
  probe_loop kernel_id env tries st = Ok b st' → ∃ es, st' = add_trace es st.
Proof.
  induction n as [|n IH]; intros tries st b st' Hn; rewrite probe_loop_eq.
  - destruct (decide (tries < 5)%nat); [lia|]. intros [= <- <-].
    exists []. by rewrite add_trace_nil.
  - destruct (decide (tries < 5)%nat); [|lia].
    destruct (ping_kernel kernel_id (env_heartbeat env tries) st)
      as [[|] st1|e st1|st1] eqn:Hping; try done.
    + intros [= <- <-]. apply ping_kernel_ok in Hping as [e ->]. by exists [e].
    + apply ping_kernel_ok in Hping as [e ->].
      intros (es & ->)%IH; [|lia].
      rewrite !log_add_trace, !add_trace_add. eauto.
Qed.

Lemma get_socket_info_ok kernel_id answer st u st' :
  get_socket_info kernel_id answer st = Ok u st' →
  ∃ k i o e,
    kernel_registry st !! kernel_id = Some k
    ∧ st' = set_kernels (<[kernel_id := set_socks i o e k]> (kernel_registry st))
                        (log (ESocketInfo (agent_sock k)) st).
Proof.
  unfold get_socket_info. munfold.
  destruct (kernel_registry st !! kernel_id) as [k|] eqn:Hk; [|done].
  destruct answer as [[[i o] e]|]; [|done].
  intros [= <- <-]. eauto 10.
Qed.

Section UrlRoundTrip.
Import Py urllib.

Lemma contains_app c a b : contains c (a +:+ b) = contains c a || contains c b.
Proof. induction a as [|x a IH]; simpl; [done|]. by rewrite IH, orb_assoc. Qed.

Lemma contains_head c s : contains c (String c s) = true.
Proof. simpl. by rewrite Ascii.eqb_refl. Qed.

Lemma plain_host_contains c s :
  plain_host s = true → contains c "/?#@[]:" = true → contains c s = false.
Proof.
  intros Hplain Hc. induction s as [|x s IH]; simpl; [done|].
  apply andb_prop in Hplain as [Hx Hs]. rewrite (IH Hs), orb_false_r.
  destruct (Ascii.eqb_spec x c) as [->|]; [|done].
  cbv beta in Hx. by rewrite Hc in Hx.
Qed.

Lemma digits_contains c s :
  all_chars is_digit s = true → is_digit c = false → contains c s = false.
Proof.
  intros Hdig Hc. induction s as [|x s IH]; simpl; [done|].
  apply andb_prop in Hdig as [Hx Hs]. rewrite (IH Hs), orb_false_r.
  destruct (Ascii.eqb_spec x c) as [->|]; [|done]. congruence.
Qed.

Lemma partition_first sep a b :
  contains sep a = false → partition sep (a +:+ String sep b) = Some (a, b).
Proof.
  induction a as [|x a IH]; simpl.
  - by rewrite Ascii.eqb_refl.
  - intros [Hx Ha]%orb_false_elim. rewrite Hx. by rewrite (IH Ha).
Qed.

Lemma partition_absent sep s : contains sep s = false → partition sep s = None.
Proof.
  induction s as [|x s IH]; simpl; [done|].
  intros [Hx Hs]%orb_false_elim. by rewrite Hx, (IH Hs).
Qed.

Lemma rpartition_tail_absent sep s : contains sep s = false → rpartition_tail sep s = None.
Proof.
  induction s as [|x s IH]; simpl; [done|].
  intros [Hx Hs]%orb_false_elim. by rewrite (IH Hs), Hx.
Qed.

Lemma splitnetloc_whole s :
  (∀ c, contains c "/?#" = true → contains c s = false) → splitnetloc s = s.
Proof.
  induction s as [|x s IH]; intros Hs; cbn [splitnetloc]; [done|].
  destruct (contains x "/?#") eqn:Hx.
  - specialize (Hs x Hx). by rewrite contains_head in Hs.
  - rewrite IH; [done|]. intros c Hc. specialize (Hs c Hc). cbn [contains] in Hs.
    by apply orb_false_elim in Hs as [_ ?].
Qed.

(** A socket address built by [create_kernel] from a host without
    reserved characters is parsed back to its port. *)
Lemma urlparse_agent_sock host d :
  plain_host host = true → all_chars is_digit d = true →
  urlparse ("tcp://" +:+ host +:+ ":" +:+ d) = Val (host +:+ ":" +:+ d)
  ∧ hostinfo_port (host +:+ ":" +:+ d) = Some d.
Proof.
  intros Hhost Hd.
  assert (∀ c, contains c "/?#@[]:" = true → c ≠ ":"%char →
               contains c (host +:+ ":" +:+ d) = false) as Hnone.
  { intros c Hc Hcolon. rewrite !contains_app, (plain_host_contains c host Hhost Hc).
    rewrite (digits_contains c d Hd);
      [|by revert Hc; clear; destruct c as [[] [] [] [] [] [] [] []]].
    cbn [contains]. rewrite !orb_false_r. apply Ascii.eqb_neq. congruence. }
  assert (splitnetloc (host +:+ ":" +:+ d) = host +:+ ":" +:+ d) as Hloc.
  { apply splitnetloc_whole. intros c Hc. apply Hnone.
    - by revert Hc; clear; destruct c as [[] [] [] [] [] [] [] []].
    - by intros ->. }
  split.
  - unfold urlparse, strip_scheme.
    change ("tcp://" +:+ host +:+ ":" +:+ d)
      with ("tcp" +:+ String ":" (String "/" (String "/" (host +:+ ":" +:+ d)))).
    rewrite partition_first by reflexivity.
    change (negb ("tcp" =? "")%string && all_chars scheme_char "tcp"
            && (_ || negb (all_chars is_digit (String "/" _)))) with true.
    cbv iota. rewrite Hloc, !Hnone by done. reflexivity.
  - unfold hostinfo_port.
    rewrite rpartition_tail_absent by by apply Hnone.
    cbn [default from_option id].
    rewrite (partition_absent "[") by by apply Hnone.
    change (host +:+ ":" +:+ d) with (host +:+ String ":" d).
    rewrite partition_first by by apply plain_host_contains.
    reflexivity.
Qed.

Lemma kernel_port_plain_host k host p :
  agent_sock k = agent_sock_url host p →
  plain_host host = true → 5002 <= p < 5010 →
  kernel_port k = Some p.
Proof.
  intros Hsock Hhost Hp. unfold kernel_port, agent_sock_url in *. rewrite Hsock.
  assert (all_chars is_digit (Py.str p) = true ∧ int (Py.str p) = Val p) as [Hd Hint].
  { assert (p = 5002 ∨ p = 5003 ∨ p = 5004 ∨ p = 5005 ∨ p = 5006 ∨ p = 5007
            ∨ p = 5008 ∨ p = 5009) as Hcases by lia.
    destruct Hcases as [->|[->|[->|[->|[->|[->|[->| ->]]]]]]]; by vm_compute. }
  destruct (urlparse_agent_sock host (Py.str p) Hhost Hd) as [-> Hport].
  unfold port. rewrite Hport, Hint. by rewrite bool_decide_eq_true_2 by lia.
Qed.
End UrlRoundTrip.

Lemma kernel_port_loopback k p :
  agent_sock k = agent_sock_url "127.0.0.1" p → 5002 <= p < 5010 →
  kernel_port k = Some p.
Proof. intros Hsock Hp. by apply (kernel_port_plain_host k "127.0.0.1" p). Qed.

Lemma handle_request_consistent req env st c st' :
  kernel_driver st = local → consistent st →
  handle_request req env st = Ok c st' →
  kernel_driver st' = local ∧ consistent st'.
Proof.
  intros Hdrv Hcons. destruct (action req) eqn:Hact.
  - rewrite (handle_request_ping _ _ _ Hact). intros [= <- <-].
    split; [done|]. by apply (consistent_ext st).
  - rewrite (handle_request_create _ _ _ Hact), Hdrv.
    destruct (find_avail_instance _ _) as [[i|] st1|e st1|st1] eqn:Hfind; try done.
    + apply find_avail_instance_inv in Hfind as (key & inst & Hi & Hav & ->).
      change (instance_registry (log (ERead req) st)) with (instance_registry st) in Hi.
      apply andb_prop in Hav as [Hip _]. apply String.eqb_eq in Hip.
      pose proof (lookup_lt_Some _ _ _ Hi) as Hlt.
      set (st1 := put_instance _ _ _ _).
      assert (instance_registry st1 !! i
              = Some (key, set_cur_kernels (cur_kernels inst + 1) inst)) as Hinst1.
      { subst st1; simpl. by apply list_lookup_insert_eq. }
      change (create_kernel (driver_of local)) with LocalKernelDriver.create_kernel.
      rewrite (local_create_kernel_eq _ _ _ _ _ Hinst1). cbv zeta.
      change (used_ports (set_cur_kernels _ inst)) with (used_ports inst).
      change (ip (set_cur_kernels _ inst)) with (ip inst).
      destruct (bool_decide _); [|done].
      pose proof (scan_ports_smallest (default ∅ (used_ports inst))) as Hscan.
      destruct (scan_ports AgentPortRange (default ∅ (used_ports inst))) as [used' p].
      cbn [fst snd].
      destruct (p =? 0) eqn:E; [done|]. apply Z.eqb_neq in E.
      destruct Hscan as [(-> & _)|(Hp & Hfree & -> & _)]; [done|].
      set (kid := "local/" +:+ env_uuid env).
      set (k := mkKernel _ _ _ _ _ _ _ _).
      assert (kernel_port k = Some p) as Hkp.
      { apply kernel_port_loopback; [|done]. subst k; simpl. by rewrite Hip. }
      destruct (probe_loop _ _ _ _) as [[|] st3|e st3|st3] eqn:Hprobe; try done.
      * apply (probe_loop_ok _ _ 5) in Hprobe as [es ->]; [|done].
        unfold bind at 1.
        destruct (get_socket_info _ _ _) as [u st4|e st4|st4] eqn:Hgs; try done.
        apply get_socket_info_ok in Hgs as (k0 & si & so & se & Hk0 & ->).
        simpl in Hk0. rewrite lookup_insert_eq in Hk0. injection Hk0 as <-.
        unfold bind at 1.
        destruct (registry_get _ _) as [k1 st5|e st5|st5] eqn:Hget; try done.
        unfold registry_get in Hget. destruct (_ !! kid); [|done].
        injection Hget as <- <-. intros [= <- <-].
        split; [done|].
        eapply consistent_ext;
          [| | |apply (consistent_create st i key inst p kid (set_socks si so se k) []
                         Hcons Hi Hfree eq_refl Hkp)]; simpl.
        -- done.
        -- subst st1; simpl. by rewrite list_insert_insert_eq.
        -- subst st1; simpl. by rewrite insert_insert_eq.
        -- intros _. simpl. eauto.
      * apply (probe_loop_ok _ _ 5) in Hprobe as [es ->]; [|done].
        intros [= <- <-]. split; [done|].
        eapply consistent_ext;
          [| | |apply (consistent_create st i key inst p kid k []
                         Hcons Hi Hfree eq_refl Hkp)]; simpl.
        -- done.
        -- subst st1; simpl. by rewrite list_insert_insert_eq.
        -- done.
        -- intros _. simpl. eauto.
    + apply find_avail_instance_inv in Hfind as ->. intros [= <- <-].
      split; [done|]. by apply (consistent_ext st).
  - rewrite (handle_request_destroy _ _ _ Hact), Hdrv.
    case_bool_decide as Hknown.
    + destruct Hknown as [k Hk].
      destruct (consistent_registered _ _ _ Hcons Hk)
        as (key & inst & used & n & p & Hi & Hused & Hurl & Hport & Hkp & Hin & Hcur & Hpriv).
      destruct (Hpriv Hdrv) as [pid Hpid].
      change (destroy_kernel (driver_of local)) with LocalKernelDriver.destroy_kernel.
      rewrite (local_destroy_kernel_known (log (ERead req) st) _ k key inst used n p env
                 Hk Hi Hused Hurl Hport Hin Hcur pid Hpid).
      destruct (env_child env); [|done..].
      intros [= <- <-]. split; [done|].
      assert (p ∈ occupied inst) as Hocc by (unfold occupied; by rewrite Hused).
      eapply consistent_ext;
        [| | |apply (consistent_destroy st _ k key inst p [] Hcons Hk Hi Hkp Hocc)]; simpl.
      * done.
      * unfold occupied. by rewrite Hused.
      * done.
    + intros [= <- <-]. split; [done|]. by apply (consistent_ext st).
Qed.

Lemma consistent_no_kernels st :
  kernel_registry st = ∅ →
  (∀ i key inst, instance_registry st !! i = Some (key, inst) →
                 Z.of_nat (size (occupied inst)) <= cur_kernels inst) →
  consistent st.
Proof.
  intros Hempty Hcounted. split; [| |done].
  - intros kid k. rewrite Hempty. intros Hk. discriminate Hk.
  - intros kid1 kid2 k1 k2 _. rewrite Hempty. intros Hk. discriminate Hk.
Qed.

Lemma consistent_import_time t :
  consistent (mkState t (instance_registry initial_state) ∅ []).
Proof.
  apply consistent_no_kernels; [done|].
  intros [|i] key inst Hi; [|discriminate Hi].
  injection Hi as <- <-. vm_compute. discriminate.
Qed.

(** Every state in which the coroutine awaits a request under the local
    driver is consistent, provided the first one was. *)
Lemma handle_api_consistent pre : ∀ st st1,
  kernel_driver st = local → consistent st →
  handle_api pre st = (AwaitingRequest, st1) →
  kernel_driver st1 = local ∧ consistent st1.
Proof.
  induction pre as [|[req env] pre IH]; intros st st1 Hdrv Hcons; simpl.
  - by intros [= <-].
  - destruct (handle_request req env st) as [[|] st'|e st'|st'] eqn:Hreq; try done.
    destruct (handle_request_consistent _ _ _ _ _ Hdrv Hcons Hreq) as [Hdrv' Hcons'].
    by apply IH.
Qed.


Lemma local_state_with_kernel_consistent : consistent local_state_with_kernel.
Proof.
  apply (handle_request_consistent create_request answering_env local_state Continue);
    [reflexivity|apply (consistent_import_time local)|vm_compute; reflexivity].
Qed.


(** * The theorems at concrete inputs *)

Lemma create_without_answer_keeps_kernel_witness :
  ∃ st', handle_request create_request silent_env local_state = Ok Return st'
         ∧ last (trace st') = Some (EWrite no_answer_response)
         ∧ is_Some (kernel_registry st' !! "local/5f1c")
         ∧ instance_registry st' !! 0%nat
           = Some ("test"%string, mkInstance "127.0.0.1" 2375 "" 2 1 (Some ({[5002]} ∪ ∅))).
Proof.
  eexists. split.
  - apply (create_without_answer_keeps_kernel create_request silent_env local_state
             0 "test" test_instance 5002).
    + reflexivity.
    + reflexivity.
    + reflexivity.
    + reflexivity.
    + intros j key' inst' Hj. lia.
    + reflexivity.
    + lia.
    + apply not_elem_of_empty.
    + intros q Hq. lia.
    + intros n Hn. reflexivity.
  - split; [|split].
    + cbn [trace]. rewrite !app_assoc. apply last_snoc.
    + cbn [kernel_registry]. rewrite lookup_insert_eq. eauto.
    + reflexivity.
Defined.


Lemma docker_create_kernel_never_returns_witness :
  ∃ st' p,
    create_kernel (driver_of docker) 0 silent_env initial_state
    = Raise Py.AttributeError st'
    ∧ trace st' = [EDocker "tcp://127.0.0.1:2375"]
    ∧ 5002 <= p < 5010
    ∧ (p ∉ (∅ : gset Z))
    ∧ instance_registry st' !! 0%nat
      = Some ("test"%string, set_used_ports (Some ({[p]} ∪ ∅)) test_instance).
Proof.
  apply (proj2 (proj2 (proj2 (docker_create_kernel_never_returns initial_state 0 silent_env)))
           "test" test_instance).
  - reflexivity.
  - cbn. lia.
  - cbn. rewrite size_empty. lia.
Defined.

Lemma dispatch_plain_handler_raises_witness :
  events.event_subscriber heartbeat_dispatcher
    [events.Decoded heartbeat_frame; events.Decoded heartbeat_frame]
  = (events.mkDispatcher (events.handlers heartbeat_dispatcher)
       [events.Task "update_instance" "i-01" [Py.VStr "alive"]],
     events.Ended (Py.NameError "functools")).
Proof.
  refine (proj1 (proj2 (proj2 (dispatch_plain_handler_raises heartbeat_dispatcher
                                 heartbeat_frame [events.Decoded heartbeat_frame]
                                 [("update_instance"%string, three_parameters)]
                                 "count_heartbeat"
                                 [events.Coroutine "refresh_stats" three_parameters] _)
                          (Some (Py.VStr "alive")) [Py.VStr "alive"] _ _ _))).
  - vm_compute. reflexivity.
  - reflexivity.
  - reflexivity.
  - repeat constructor.
Defined.

Lemma create_without_available_instance_witness :
  handle_request create_request silent_env full_state
  = Ok Return
       (mkState local (instance_registry full_state) ∅
          [ERead create_request; EWrite no_instance_response]).
Proof.
  apply (create_without_available_instance create_request silent_env full_state).
  - reflexivity.
  - intros [|i] key inst Hi.
    + injection Hi as <- <-. reflexivity.
    + discriminate.
Defined.

Lemma find_avail_instance_first_available_witness :
  find_avail_instance (driver_of local) three_instances
  = Ok (Some 2%nat)
       (mkState local
          [("remote"%string, mkInstance "10.0.0.5" 2375 "" 2 0 None);
           ("busy"%string, mkInstance "127.0.0.1" 2375 "" 1 1 (Some ({[5002]} ∪ ∅)));
           ("test"%string, mkInstance "127.0.0.1" 2375 "" 2 1 None)]
          ∅ [])
  ∧ find_avail_instance (driver_of local) full_state = Ok None full_state.
Proof.
  split.
  - apply (proj1 (find_avail_instance_first_available local three_instances)
             2%nat "test" test_instance).
    + reflexivity.
    + reflexivity.
    + intros [|[|j]] key' inst' Hj Hlook.
      * injection Hlook as <- <-. reflexivity.
      * injection Hlook as <- <-. reflexivity.
      * lia.
  - apply (proj2 (find_avail_instance_first_available local full_state)).
    intros [|i] key inst Hi.
    + injection Hi as <- <-. reflexivity.
    + discriminate.
Defined.


Lemma probe_loop_five_attempts_witness :
  probe_loop "local/5f1c" answering_env 0 local_state_with_kernel
  = Ok true
       (add_trace [EHeartbeat "tcp://127.0.0.1:5002" "tok"; ESleep 1000;
                   EHeartbeat "tcp://127.0.0.1:5002" "tok"; ESleep 1000;
                   EHeartbeat "tcp://127.0.0.1:5002" "tok"]
                  local_state_with_kernel)
  ∧ probe_loop "local/5f1c" silent_env 0 local_state_with_kernel
    = Ok false
         (add_trace (failed_attempts "tcp://127.0.0.1:5002" silent_env 0 5)
                    local_state_with_kernel).
Proof.
  assert (kernel_registry local_state_with_kernel !! "local/5f1c" = Some created_kernel)
    as Hk by (vm_compute; reflexivity).
  split.
  - apply (proj1 (proj2 (probe_loop_five_attempts "local/5f1c" answering_env
                           local_state_with_kernel) created_kernel Hk) 2%nat).
    + lia.
    + intros [|[|i]] Hi; [reflexivity|reflexivity|lia].
    + reflexivity.
  - apply (proj2 (proj2 (probe_loop_five_attempts "local/5f1c" silent_env
                           local_state_with_kernel) created_kernel Hk)).
    intros i Hi. reflexivity.
Defined.

Lemma registry_keys_are_kernel_ids_witness :
  keys_match_ids
    (kernel_registry (final (create_kernel (driver_of local) 0 answering_env local_state)))
  ∧ keys_match_ids
      (kernel_registry
         (final (destroy_kernel (driver_of local) "local/5f1c" exited_env
                   local_state_with_kernel))).
Proof.
  split.
  - apply (proj2 (registry_keys_are_kernel_ids local local_state)).
    intros key k Hk. discriminate Hk.
  - apply (proj2 (registry_keys_are_kernel_ids local local_state_with_kernel)).
    intros key k.
    change (kernel_registry local_state_with_kernel)
      with (<["local/5f1c"%string := created_kernel]> (∅ : gmap string Kernel)).
    rewrite lookup_insert. case_decide.
    + intros Hk. injection Hk as <-. by subst key.
    + intros Hk. discriminate Hk.
Defined.

Lemma failure_reply_ends_handle_api_witness :
  handle_api [(mkRequest PING "" "abc", silent_env);
              (create_request, silent_env);
              (mkRequest PING "" "def", silent_env)] full_state
  = (Returned,
     mkState local (instance_registry full_state) ∅
       [ERead (mkRequest PING "" "abc"); EWrite (mkResponse PONG "" (Text "abc"));
        ERead create_request; EWrite no_instance_response]).
Proof.
  refine (proj2 (proj2 (proj2
            (failure_reply_ends_handle_api
               [(mkRequest PING "" "abc", silent_env)] [(mkRequest PING "" "def", silent_env)]
               create_request silent_env full_state _ _ Return no_instance_response
               _ _ _ _)))).
  - reflexivity.
  - reflexivity.
  - reflexivity.
  - reflexivity.
Defined.

Section Keeps.

Context (P : KernelDriverTypes → list (string * Instance) * gmap string Kernel → Prop).

Lemma keeps_bind {A B} (m : M A) (k : A → M B) :
  keeps P m → (∀ a, keeps P (k a)) → keeps P (bind m k).
Proof.
  intros Hm Hk st HP. unfold bind. specialize (Hm st HP).
  destruct (m st) as [a st'|e st'|st']; simpl in *; [by apply Hk|done..].
Qed.

Lemma keeps_ret {A} (a : A) : keeps P (ret a).
Proof. by intros st. Qed.

Lemma keeps_raise {A} e : keeps P (raise (A := A) e).
Proof. by intros st. Qed.

Lemma keeps_emit e : keeps P (emit e).
Proof. by intros st. Qed.

Lemma keeps_assert line b : keeps P (assert line b).
Proof. intros st. by destruct b. Qed.

Lemma keeps_lift_try {A} (t : Py.try A) : keeps P (lift_try t).
Proof. intros st. by destruct t. Qed.

Lemma keeps_get_instance ref : keeps P (get_instance ref).
Proof. intros st. unfold get_instance. by destruct (_ !! ref) as [[]|]. Qed.

Lemma keeps_registry_get kid : keeps P (registry_get kid).
Proof. intros st. unfold registry_get. by destruct (_ !! kid). Qed.

Lemma keeps_add_trace es st :
  P (kernel_driver st) (registries st) →
  P (kernel_driver (add_trace es st)) (registries (add_trace es st)).
Proof. done. Qed.

Hypothesis Hclosed : step_closed P.

Lemma keeps_unclaim ref :
  keeps P (update_instance ref (fun i => set_cur_kernels (cur_kernels i - 1) i)).
Proof.
  intros st HP. unfold update_instance.
  destruct (instance_registry st !! ref) as [[key inst]|] eqn:Hi; [|done].
  simpl. by apply (Hclosed _ _ _ (step_unclaim _ _ _ _ _ Hi)).
Qed.

Lemma keeps_registry_set k : keeps P (registry_set (kernel_id k) k).
Proof. intros st HP. simpl. by apply (Hclosed _ _ _ (step_enter _ _ k)). Qed.

Lemma keeps_registry_del kid : keeps P (registry_del kid).
Proof.
  intros st HP. unfold registry_del. destruct (_ !! kid); [|done].
  simpl. by apply (Hclosed _ _ _ (step_remove _ _ kid)).
Qed.

Lemma keeps_used_ports_remove ref agent_url : keeps P (used_ports_remove ref agent_url).
Proof.
  intros st HP. unfold used_ports_remove. munfold.
  destruct (instance_registry st !! ref) as [[key inst]|] eqn:Hi; [|done].
  destruct (used_ports inst) as [used|] eqn:Hused; [|done].
  destruct (urllib.port agent_url) as [[p|]|e]; simpl; try done.
  destruct (decide (p ∈ used)) as [Hin|]; [|done].
  rewrite Hi. simpl.
  by apply (Hclosed _ _ _ (step_release _ _ _ _ _ _ _ Hi Hused Hin)).
Qed.

Lemma keeps_lazy st i key inst :
  instance_registry st !! i = Some (key, inst) →
  P (kernel_driver st) (registries st) →
  P (kernel_driver st) (registries (put_instance i key
                   (set_used_ports (Some (default ∅ (used_ports inst))) inst) st)).
Proof.
  intros Hi HP. destruct (used_ports inst) as [used|] eqn:Hused; simpl.
  - rewrite put_instance_id; [done|]. rewrite Hi. do 2 f_equal.
    destruct inst; simpl in *; by subst.
  - by apply (Hclosed _ _ _ (step_init _ _ _ _ _ Hi Hused)).
Qed.

Lemma keeps_reserved st i key inst :
  instance_registry st !! i = Some (key, inst) →
  P (kernel_driver st) (registries st) →
  P (kernel_driver st) (registries (put_instance i key
       (set_used_ports (Some (scan_ports AgentPortRange (default ∅ (used_ports inst))).1)
          inst) st)).
Proof.
  intros Hi HP.
  pose proof (keeps_lazy st i key inst Hi HP) as Hlazy.
  pose proof (scan_ports_smallest (default ∅ (used_ports inst))) as Hscan.
  destruct (scan_ports AgentPortRange (default ∅ (used_ports inst))) as [used' p].
  destruct Hscan as [(_ & -> & _)|(Hp & Hfree & -> & _)]; simpl; [done|].
  pose proof (put_instance_lookup i key
                (set_used_ports (Some (default ∅ (used_ports inst))) inst) st _ Hi) as Hi1.
  pose proof (Hclosed _ _ _ (step_reserve _ (kernel_registry st) _ _ _ _ p Hi1 eq_refl Hp Hfree)
                Hlazy) as Hres.
  cbn in Hres. rewrite list_insert_insert_eq in Hres. exact Hres.
Qed.

Lemma available_spare t inst :
  available t inst = true → cur_kernels inst < max_kernels inst.
Proof.
  destruct t; simpl.
  - intros [_ H]%andb_prop. by apply bool_decide_eq_true in H.
  - intros H. by apply bool_decide_eq_true in H.
Qed.

Lemma keeps_find_avail_instance t : keeps P (find_avail_instance (driver_of t)).
Proof.
  intros st HP. rewrite find_avail_instance_unfold.
  destruct (scan_of t (instance_registry st) 0) as [r|] eqn:Hscan; [|done].
  apply scan_of_some in Hscan as (i & key & inst & -> & Hi & Hav). simpl.
  munfold. rewrite Hi. simpl.
  apply (Hclosed _ _ _ (step_claim _ _ _ _ _ Hi (available_spare _ _ Hav))), HP.
Qed.

Lemma keeps_create_kernel t instance env : keeps P (create_kernel (driver_of t) instance env).
Proof.
  intros st HP.
  destruct (instance_registry st !! instance) as [[key inst]|] eqn:Hi.
  - pose proof (keeps_lazy st instance key inst Hi HP) as Hlazy.
    pose proof (keeps_reserved st instance key inst Hi HP) as Hres.
    rewrite create_kernel_eq. destruct t.
    + rewrite (local_create_kernel_eq _ _ _ _ _ Hi). cbv zeta.
      destruct (bool_decide _); [|done]. destruct (_ =? 0); [done|].
      refine (Hclosed _ _ _ (step_enter _ _ (mkKernel _ _ _ _ _ _ _ _)) Hres).
    + rewrite (docker_create_kernel_eq _ _ _ _ _ Hi). cbv zeta.
      destruct (bool_decide _); [|done]. by destruct (_ =? 0).
  - by rewrite (create_kernel_dangling st instance env t Hi).
Qed.

Lemma keeps_terminate pid child : keeps P (terminate pid child).
Proof. intros st HP. by destruct child. Qed.

Lemma keeps_wait child : keeps P (wait child).
Proof. intros st HP. by destruct child. Qed.

Lemma keeps_destroy_kernel t kid env : keeps P (destroy_kernel (driver_of t) kid env).
Proof.
  destruct t; simpl.
  - unfold LocalKernelDriver.destroy_kernel.
    apply keeps_bind; [apply keeps_registry_get|]. intros kernel.
    apply keeps_bind; [apply keeps_unclaim|]. intros _.
    apply keeps_bind; [apply keeps_get_instance|]. intros inst.
    apply keeps_bind; [apply keeps_assert|]. intros _.
    apply keeps_bind.
    { destruct (priv kernel); (apply keeps_ret || apply keeps_raise). }
    intros pid.
    apply keeps_bind; [apply keeps_terminate|]. intros _.
    apply keeps_bind; [apply keeps_wait|]. intros _.
    apply keeps_bind; [apply keeps_lift_try|]. intros agent_url.
    apply keeps_bind; [apply keeps_used_ports_remove|]. intros _.
    apply keeps_registry_del.
  - unfold DockerKernelDriver.destroy_kernel.
    apply keeps_bind; [apply keeps_registry_get|]. intros kernel.
    apply keeps_bind; [apply keeps_unclaim|]. intros _.
    apply keeps_bind; [apply keeps_get_instance|]. intros inst.
    apply keeps_bind; [apply keeps_assert|]. intros _.
    apply keeps_bind; [apply keeps_lift_try|]. intros agent_url.
    apply keeps_bind; [apply keeps_used_ports_remove|]. intros _.
    apply keeps_bind; [apply keeps_registry_del|]. intros _.
    apply keeps_raise.
Qed.

Lemma ping_kernel_final kid hb st :
  ∃ es, final (ping_kernel kid hb st) = add_trace es st.
Proof.
  unfold ping_kernel. munfold. destruct (_ !! kid).
  - destruct (hb_reply hb); by eexists [_].
  - exists []. by rewrite add_trace_nil.
Qed.

Lemma probe_loop_final kid env n : ∀ tries st,
  (5 - tries = n)%nat →
  ∃ es, final (probe_loop kid env tries st) = add_trace es st.
Proof.
  induction n as [|n IH]; intros tries st Hn; rewrite probe_loop_eq.
  - destruct (decide (tries < 5)%nat); [lia|]. exists []. by rewrite add_trace_nil.
  - destruct (decide (tries < 5)%nat); [|lia].
    destruct (ping_kernel_final kid (env_heartbeat env tries) st) as [es Hes].
    destruct (ping_kernel kid (env_heartbeat env tries) st)
      as [[|] st1|e st1|st1]; simpl in *; subst; eauto.
    destruct (IH (S tries) (log (ESleep 1000) (add_trace es st)) ltac:(lia)) as [es' ->].
    rewrite log_add_trace, !add_trace_add. eauto.
Qed.

Lemma keeps_probe_loop kid env st :
  P (kernel_driver st) (registries st) →
  P (kernel_driver (final (probe_loop kid env 0 st)))
    (registries (final (probe_loop kid env 0 st))).
Proof.
  intros HP. destruct (probe_loop_final kid env 5 0 st eq_refl) as [es ->]. done.
Qed.

Lemma keeps_get_socket_info kid answer : keeps P (get_socket_info kid answer).
Proof.
  intros st HP. unfold get_socket_info. munfold.
  destruct (kernel_registry st !! kid) as [k|] eqn:Hk; [|done].
  destruct answer as [[[i o] e]|]; [|done]. simpl.
  by apply (Hclosed _ _ _ (step_sockets _ _ _ _ (Some i) (Some o) (Some e) Hk)).
Qed.

Lemma keeps_handle_request req env : keeps P (handle_request req env).
Proof.
  intros st HP. destruct (action req) eqn:Hact.
  - by rewrite (handle_request_ping _ _ _ Hact).
  - rewrite (handle_request_create _ _ _ Hact).
    pose proof (keeps_find_avail_instance (kernel_driver st) (log (ERead req) st) HP) as H1.
    destruct (find_avail_instance _ _) as [[i|] st1|e st1|st1]; simpl in H1; try done.
    pose proof (keeps_create_kernel (kernel_driver st) i env st1 H1) as H2.
    destruct (create_kernel _ _ _ _) as [kid st2|e st2|st2]; simpl in H2; try done.
    pose proof (keeps_probe_loop kid env (log (ESleep 200) st2) H2) as H3.
    destruct (probe_loop _ _ _ _) as [[|] st3|e st3|st3]; simpl in H3; try done.
    refine (keeps_bind (get_socket_info kid (env_socket_info env)) _ _ _ st3 H3).
    { apply keeps_get_socket_info. }
    intros _.
    apply keeps_bind; [apply keeps_registry_get|]. intros kernel.
    apply keeps_bind; [apply keeps_emit|]. intros _. apply keeps_ret.
  - rewrite (handle_request_destroy _ _ _ Hact).
    destruct (bool_decide _); [|done].
    pose proof (keeps_destroy_kernel (kernel_driver st) (req_kernel_id req) env
                  (log (ERead req) st) HP) as H1.
    destruct (destroy_kernel _ _ _ _) as [[] st1|e st1|st1]; simpl in H1; done.
Qed.

Lemma keeps_handle_api inputs : ∀ st,
  P (kernel_driver st) (registries st) →
  P (kernel_driver (handle_api inputs st).2) (registries (handle_api inputs st).2).
Proof.
  induction inputs as [|[req env] rest IH]; intros st HP; simpl; [done|].
  pose proof (keeps_handle_request req env st HP) as H1.
  destruct (handle_request req env st) as [[|] st'|e st'|st']; simpl in *; auto.
Qed.

End Keeps.

Section LocalCreate.

Variables (req : ManagerRequest) (env : Env) (st : State)
          (i : nat) (key : string) (inst : Instance) (p : Z).
Hypothesis Hdrv : kernel_driver st = local.
Hypothesis Hact : action req = CREATE.
Hypothesis Hinst : instance_registry st !! i = Some (key, inst).
Hypothesis Hav : available local inst = true.
Hypothesis Hfirst : ∀ j key' inst', (j < i)%nat →
  instance_registry st !! j = Some (key', inst') → available local inst' = false.
Hypothesis Hmax : max_kernels inst < 8.
Hypothesis Hp : 5002 <= p < 5010.
Hypothesis Hfree : p ∉ occupied inst.
Hypothesis Hsmallest : ∀ q, 5002 <= q < p → q ∈ occupied inst.

Let kid : string := "local/" +:+ env_uuid env.
Let sock : string := agent_sock_url (ip inst) p.
Let placed : State :=
  mkState local
    (<[i := (key, mkInstance (ip inst) (docker_port inst) (tag inst) (max_kernels inst)
                             (cur_kernels inst + 1) (Some ({[p]} ∪ occupied inst)))]>
       (instance_registry st))
    (<[kid := mkKernel i kid "python34" sock None None None (PrivProc (env_pid env))]>
       (kernel_registry st))
    (trace st
     ++ [ERead req;
         ESpawn ["/usr/bin/python3"; "-m"; "sorna.kernel_agent"; "--kernel-id"; kid;
                 "--agent-port"; Py.str p]%string;
         ESleep 200]).

(** The CREATE branch up to the probe loop, under the local driver. *)
Lemma handle_request_create_placed :
  handle_request req env st =
  match probe_loop kid env 0 placed with
  | Ok true st3 =>
      (run get_socket_info kid (env_socket_info env) in
       let* kernel := registry_get kid in
       run write SUCCESS kid
             (Json [("agent_sock", Some (agent_sock kernel));
                    ("stdin_sock", None);
                    ("stdout_sock", stdout_sock kernel);
                    ("stderr_sock", stderr_sock kernel)]%string) in
       ret Continue) st3
  | Ok false st3 => Ok Return (log (EWrite no_answer_response) st3)
  | Raise e st3 => Raise e st3
  | Blocked st3 => Blocked st3
  end.
Proof.
  rewrite (handle_request_create _ _ _ Hact), Hdrv.
  rewrite (find_avail_instance_some local (log (ERead req) st) i key inst Hinst Hav Hfirst).
  set (st1 := set_instances _ _).
  assert (instance_registry st1 !! i
          = Some (key, set_cur_kernels (cur_kernels inst + 1) inst)) as Hinst1.
  { subst st1; simpl. apply list_lookup_insert_eq. by eapply lookup_lt_Some. }
  change (create_kernel (driver_of local)) with LocalKernelDriver.create_kernel.
  rewrite (local_create_kernel_eq _ _ _ _ _ Hinst1). cbv zeta.
  change (max_kernels (set_cur_kernels _ inst)) with (max_kernels inst).
  change (used_ports (set_cur_kernels _ inst)) with (used_ports inst).
  change (default ∅ (used_ports inst)) with (occupied inst).
  rewrite bool_decide_eq_true_2 by done.
  rewrite (scan_ports_is_smallest (occupied inst) p Hp Hfree Hsmallest). cbn [fst snd].
  destruct (p =? 0) eqn:E; [apply Z.eqb_eq in E; lia|].
  change (ip (set_cur_kernels _ inst)) with (ip inst).
  match goal with |- match probe_loop _ _ _ ?s with _ => _ end = _ =>
    replace s with placed; [reflexivity|] end.
  subst placed st1. unfold log, set_kernels, put_instance, set_instances. cbn.
  rewrite Hdrv, list_insert_insert_eq. f_equal. rewrite <-!app_assoc. reflexivity.
Qed.

End LocalCreate.

Lemma handle_request_create_answered
    (req : ManagerRequest) (env : Env) (st : State)
    (i : nat) (key : string) (inst : Instance) (p : Z) (j : nat)
    (stdin stdout stderr : string) :
  kernel_driver st = local →
  action req = CREATE →
  instance_registry st !! i = Some (key, inst) →
  available local inst = true →
  (∀ j' key' inst', (j' < i)%nat → instance_registry st !! j' = Some (key', inst') →
                    available local inst' = false) →
  max_kernels inst < 8 →
  5002 <= p < 5010 → p ∉ occupied inst → (∀ q, 5002 <= q < p → q ∈ occupied inst) →
  (j < 5)%nat →
  (∀ n, (n < j)%nat → ping_ok (env_heartbeat env n) = false) →
  ping_ok (env_heartbeat env j) = true →
  env_socket_info env = Some (stdin, stdout, stderr) →
  let kid := "local/" +:+ env_uuid env in
  let sock := agent_sock_url (ip inst) p in
  handle_request req env st =
  Ok Continue
     (mkState local
        (<[i := (key, mkInstance (ip inst) (docker_port inst) (tag inst) (max_kernels inst)
                                 (cur_kernels inst + 1) (Some ({[p]} ∪ occupied inst)))]>
           (instance_registry st))
        (<[kid := mkKernel i kid "python34" sock (Some stdin) (Some stdout) (Some stderr)
                           (PrivProc (env_pid env))]>
           (kernel_registry st))
        (trace st
         ++ [ERead req;
             ESpawn ["/usr/bin/python3"; "-m"; "sorna.kernel_agent"; "--kernel-id"; kid;
                     "--agent-port"; Py.str p]%string;
             ESleep 200]
         ++ failed_attempts sock env 0 j
         ++ [heartbeat_of sock env j; ESocketInfo sock;
             EWrite (mkResponse SUCCESS kid
                       (Json [("agent_sock", Some sock); ("stdin_sock", None);
                              ("stdout_sock", Some stdout);
                              ("stderr_sock", Some stderr)]%string))])).
Proof.
  intros Hdrv Hact Hinst Hav Hfirst Hmax Hp Hfree Hsmallest Hj Hfail Hok Hinfo kid sock.
  rewrite (handle_request_create_placed req env st i key inst p
             Hdrv Hact Hinst Hav Hfirst Hmax Hp Hfree Hsmallest). cbv zeta.
  fold kid. fold sock.
  erewrite (probe_loop_first_success kid env _ j 0); [|lia|by simpl; rewrite lookup_insert_eq| |done].
  2:{ intros n Hn. apply Hfail. lia. }
  rewrite Hinfo. unfold get_socket_info, write. munfold. cbn -[failed_attempts].
  rewrite !lookup_insert_eq. cbn -[failed_attempts]. rewrite !lookup_insert_eq.
  unfold log, add_trace, set_kernels, set_socks. cbn -[failed_attempts].
  rewrite insert_insert_eq.
  f_equal. f_equal. rewrite <-!app_assoc. reflexivity.
Qed.

(** X11.  A CREATE under the local driver whose kernel answers a ping
    but whose agent never answers the socket-info request leaves the
    coroutine waiting inside [get_socket_info]: no response is written, the
    kernel stays registered with its three stream sockets unset, and the
    instance keeps the incremented count and the reserved port. *)
Theorem create_waits_for_socket_info
    (req : ManagerRequest) (env : Env) (st : State)
    (i : nat) (key : string) (inst : Instance) (p : Z) (j : nat) :
  kernel_driver st = local →
  action req = CREATE →
  instance_registry st !! i = Some (key, inst) →
  available local inst = true →
  (∀ j' key' inst', (j' < i)%nat → instance_registry st !! j' = Some (key', inst') →
                    available local inst' = false) →
  max_kernels inst < 8 →
  5002 <= p < 5010 → p ∉ occupied inst → (∀ q, 5002 <= q < p → q ∈ occupied inst) →
  (j < 5)%nat →
  (∀ n, (n < j)%nat → ping_ok (env_heartbeat env n) = false) →
  ping_ok (env_heartbeat env j) = true →
  env_socket_info env = None →
  let kid := "local/" +:+ env_uuid env in
  let sock := agent_sock_url (ip inst) p in
  handle_request req env st =
  Blocked
     (mkState local
        (<[i := (key, mkInstance (ip inst) (docker_port inst) (tag inst) (max_kernels inst)
                                 (cur_kernels inst + 1) (Some ({[p]} ∪ occupied inst)))]>
           (instance_registry st))
        (<[kid := mkKernel i kid "python34" sock None None None (PrivProc (env_pid env))]>
           (kernel_registry st))
        (trace st
         ++ [ERead req;
             ESpawn ["/usr/bin/python3"; "-m"; "sorna.kernel_agent"; "--kernel-id"; kid;
                     "--agent-port"; Py.str p]%string;
             ESleep 200]
         ++ failed_attempts sock env 0 j
         ++ [heartbeat_of sock env j; ESocketInfo sock])).
Proof.
  intros Hdrv Hact Hinst Hav Hfirst Hmax Hp Hfree Hsmallest Hj Hfail Hok Hinfo kid sock.
  rewrite (handle_request_create_placed req env st i key inst p
             Hdrv Hact Hinst Hav Hfirst Hmax Hp Hfree Hsmallest). cbv zeta.
  fold kid. fold sock.
  erewrite (probe_loop_first_success kid env _ j 0); [|lia|by simpl; rewrite lookup_insert_eq| |done].
  2:{ intros n Hn. apply Hfail. lia. }
  rewrite Hinfo. unfold get_socket_info, write. munfold. cbn -[failed_attempts].
  rewrite !lookup_insert_eq. unfold log, add_trace. cbn -[failed_attempts].
  f_equal. f_equal. rewrite <-!app_assoc. reflexivity.
Qed.

Lemma agent_sock_parse host p :
  plain_host host = true → 5002 <= p < 5010 →
  ∃ n, urllib.urlparse (agent_sock_url host p) = Py.Val n
       ∧ urllib.port n = Py.Val (Some p).
Proof.
  intros Hhost Hp. unfold agent_sock_url.
  assert (Py.all_chars Py.is_digit (Py.str p) = true ∧ Py.int (Py.str p) = Py.Val p)
    as [Hd Hint].
  { assert (p = 5002 ∨ p = 5003 ∨ p = 5004 ∨ p = 5005 ∨ p = 5006 ∨ p = 5007
            ∨ p = 5008 ∨ p = 5009) as Hcases by lia.
    destruct Hcases as [->|[->|[->|[->|[->|[->|[->| ->]]]]]]]; by vm_compute. }
  destruct (urlparse_agent_sock host (Py.str p) Hhost Hd) as [Hurl Hport].
  eexists. split; [exact Hurl|].
  unfold urllib.port. rewrite Hport, Hint. by rewrite bool_decide_eq_true_2 by lia.
Qed.

Lemma available_local_loopback inst :
  available local inst = true → ip inst = "127.0.0.1"%string.
Proof. intros [H _]%andb_prop. by apply String.eqb_eq. Qed.

(** X12.  Under the local driver, on an instance whose count is not
    negative, a successful CREATE followed by a DESTROY of the id it
    returned, served while the kernel's child process is still running, is
    answered with SUCCESS and undoes the creation: the instance has its old
    count and its old occupied ports (with [used_ports] now initialised),
    every other instance is untouched, and the kernel id is no longer
    registered. *)
Theorem create_then_destroy_restores
    (req del : ManagerRequest) (env env' : Env) (st : State)
    (i : nat) (key : string) (inst : Instance) (p : Z) (j : nat)
    (stdin stdout stderr : string) :
  kernel_driver st = local →
  action req = CREATE →
  instance_registry st !! i = Some (key, inst) →
  available local inst = true →
  (∀ j' key' inst', (j' < i)%nat → instance_registry st !! j' = Some (key', inst') →
                    available local inst' = false) →
  max_kernels inst < 8 →
  0 <= cur_kernels inst →
  5002 <= p < 5010 → p ∉ occupied inst → (∀ q, 5002 <= q < p → q ∈ occupied inst) →
  (j < 5)%nat →
  (∀ n, (n < j)%nat → ping_ok (env_heartbeat env n) = false) →
  ping_ok (env_heartbeat env j) = true →
  env_socket_info env = Some (stdin, stdout, stderr) →
  action del = DESTROY →
  req_kernel_id del = "local/" +:+ env_uuid env →
  env_child env' = ChildRunning →
  ∃ st',
    handle_api [(req, env); (del, env')] st = (AwaitingRequest, st')
    ∧ last (trace st') = Some (EWrite (mkResponse SUCCESS (req_kernel_id del) (Text "")))
    ∧ instance_registry st'
      = <[i := (key, set_used_ports (Some (occupied inst)) inst)]> (instance_registry st)
    ∧ kernel_registry st' = delete (req_kernel_id del) (kernel_registry st).
Proof.
  intros Hdrv Hact Hinst Hav Hfirst Hmax Hcur Hp Hfree Hsmallest Hj Hfail Hok Hinfo
         Hdel Hid Hchild.
  pose proof (handle_request_create_answered req env st i key inst p j stdin stdout stderr
                Hdrv Hact Hinst Hav Hfirst Hmax Hp Hfree Hsmallest Hj Hfail Hok Hinfo)
    as Hcreate.
  cbv zeta in Hcreate. simpl. rewrite Hcreate. clear Hcreate.
  set (st1 := mkState _ _ _ _).
  pose proof (lookup_lt_Some _ _ _ Hinst) as Hlt.
  destruct (agent_sock_parse (ip inst) p) as (n & Hurl & Hport); [|done|].
  { by rewrite (available_local_loopback inst Hav). }
  destruct (handle_request_destroy_known del env' st1
              (mkKernel i (req_kernel_id del) "python34" (agent_sock_url (ip inst) p)
                        (Some stdin) (Some stdout) (Some stderr) (PrivProc (env_pid env)))
              key
              (mkInstance (ip inst) (docker_port inst) (tag inst) (max_kernels inst)
                          (cur_kernels inst + 1) (Some ({[p]} ∪ occupied inst)))
              ({[p]} ∪ occupied inst) n p Hdel) as (Hrun & _).
  - subst st1; simpl. rewrite Hid. by rewrite lookup_insert_eq.
  - subst st1; simpl. by apply list_lookup_insert_eq.
  - done.
  - done.
  - done.
  - apply elem_of_union. left. by apply elem_of_singleton.
  - simpl. lia.
  - simpl in Hrun. rewrite (Hrun (env_pid env) eq_refl), Hchild.
    eexists. split; [reflexivity|]. split; [|split].
    + cbn [trace]. rewrite last_app. reflexivity.
    + subst st1; cbn. rewrite list_insert_insert_eq. do 3 f_equal.
      unfold set_used_ports. f_equal; [lia|]. f_equal.
      apply set_eq. intros q. rewrite elem_of_difference, elem_of_union, elem_of_singleton.
      split; [intros [[->|Hq] Hne]; done|]. intros Hq. split; [by right|]. by intros ->.
    + subst st1; cbn. rewrite <-Hid. by rewrite delete_insert_eq.
Qed.

(** X10.  A CREATE under the local driver whose kernel answers the
    [j]-th ping ([j < 5]) and whose agent reports its sockets is answered
    with SUCCESS: the body carries the agent socket and the reported stdout
    and stderr sockets, while [stdin_sock] is always null although the
    registry stores the reported one; exactly [j + 1] heartbeats were sent;
    only the new kernel's entry and the chosen instance's entry changed. *)
Theorem create_answers_success
    (req : ManagerRequest) (env : Env) (st : State)
    (i : nat) (key : string) (inst : Instance) (p : Z) (j : nat)
    (stdin stdout stderr : string) :
  kernel_driver st = local →
  action req = CREATE →
  instance_registry st !! i = Some (key, inst) →
  available local inst = true →
  (∀ j' key' inst', (j' < i)%nat → instance_registry st !! j' = Some (key', inst') →
                    available local inst' = false) →
  max_kernels inst < 8 →
  5002 <= p < 5010 → p ∉ occupied inst → (∀ q, 5002 <= q < p → q ∈ occupied inst) →
  (j < 5)%nat →
  (∀ n, (n < j)%nat → ping_ok (env_heartbeat env n) = false) →
  ping_ok (env_heartbeat env j) = true →
  env_socket_info env = Some (stdin, stdout, stderr) →
  let kid := "local/" +:+ env_uuid env in
  let sock := agent_sock_url (ip inst) p in
  ∃ st',
    handle_request req env st = Ok Continue st'
    ∧ last (trace st')
      = Some (EWrite (mkResponse SUCCESS kid
                        (Json [("agent_sock", Some sock); ("stdin_sock", None);
                               ("stdout_sock", Some stdout);
                               ("stderr_sock", Some stderr)]%string)))
    ∧ heartbeats (trace st') = (heartbeats (trace st) + S j)%nat
    ∧ kernel_registry st' !! kid
      = Some (mkKernel i kid "python34" sock (Some stdin) (Some stdout) (Some stderr)
                       (PrivProc (env_pid env)))
    ∧ (∀ kid', kid' ≠ kid → kernel_registry st' !! kid' = kernel_registry st !! kid')
    ∧ instance_registry st' !! i
      = Some (key, mkInstance (ip inst) (docker_port inst) (tag inst) (max_kernels inst)
                              (cur_kernels inst + 1) (Some ({[p]} ∪ occupied inst)))
    ∧ (∀ i', i' ≠ i → instance_registry st' !! i' = instance_registry st !! i').
Proof.
  intros Hdrv Hact Hinst Hav Hfirst Hmax Hp Hfree Hsmallest Hj Hfail Hok Hinfo kid sock.
  eexists. split.
  { exact (handle_request_create_answered req env st i key inst p j stdin stdout stderr
             Hdrv Hact Hinst Hav Hfirst Hmax Hp Hfree Hsmallest Hj Hfail Hok Hinfo). }
  cbn [trace kernel_registry instance_registry].
  split; [|split; [|split; [|split; [|split]]]].
  - rewrite !last_app. reflexivity.
  - rewrite !heartbeats_app, heartbeats_failed_attempts.
    unfold heartbeats; simpl. lia.
  - by rewrite lookup_insert_eq.
  - intros kid' Hne. by rewrite lookup_insert_ne.
  - apply list_lookup_insert_eq. by eapply lookup_lt_Some.
  - intros i' Hne. by rewrite list_lookup_insert_ne.
Qed.

Lemma handle_request_read_only req env st :
  read_only st req →
  handle_request req env st
  = Ok Continue (add_trace [ERead req; EWrite (read_only_answer req)] st).
Proof.
  unfold read_only_answer. intros [Hact|[Hact Hnone]].
  - rewrite (handle_request_ping _ _ _ Hact), Hact.
    by rewrite !log_add_trace, add_trace_add.
  - rewrite (handle_request_destroy _ _ _ Hact), Hact, Hnone.
    rewrite bool_decide_eq_false_2 by by intros [? ?].
    by rewrite !log_add_trace, add_trace_add.
Qed.

(** X9.  A run of [handle_api] over requests that are each a PING or a
    DESTROY of an unregistered id answers them one by one in arrival order
    (PONG echoing the body, or INVALID_INPUT), touches neither registry,
    contacts no agent, and ends waiting for the next request. *)
Theorem read_only_requests_are_answered_in_order
    (inputs : list (ManagerRequest * Env)) (st : State) :
  Forall (λ x, read_only st x.1) inputs →
  handle_api inputs st
  = (AwaitingRequest,
     add_trace (flat_map (λ x, [ERead x.1; EWrite (read_only_answer x.1)]) inputs) st).
Proof.
  revert st. induction inputs as [|[req env] rest IH]; intros st Hall; simpl.
  - by rewrite add_trace_nil.
  - apply Forall_cons in Hall as [Hreq Hrest]. simpl in Hreq.
    rewrite (handle_request_read_only req env st Hreq).
    rewrite IH; [by rewrite add_trace_add|].
    eapply Forall_impl; [exact Hrest|]. intros [req' env'] Hro. exact Hro.
Qed.

(** X14.  [destroy_kernel] of either driver decrements the instance's
    count before it checks it: when the call ends in an exception other than
    the docker driver's final [NotImplementedError], the kernel is still
    registered and the count has already been decremented; in particular a
    registered kernel on an instance whose count is below one fails the
    assertion and leaves the count one lower. *)
Theorem failed_destroy_is_not_rolled_back
    (t : KernelDriverTypes) (st : State) (kid : string) (k : Kernel)
    (key : string) (inst : Instance) (env : Env) :
  kernel_registry st !! kid = Some k →
  instance_registry st !! instance k = Some (key, inst) →
  (∀ e st',
      destroy_kernel (driver_of t) kid env st = Raise e st' →
      e ≠ Py.NotImplementedError →
      kernel_registry st' = kernel_registry st
      ∧ instance_registry st'
        = <[instance k := (key, set_cur_kernels (cur_kernels inst - 1) inst)]>
            (instance_registry st))
  ∧ (cur_kernels inst < 1 →
     destroy_kernel (driver_of t) kid env st
     = Raise (Py.AssertionError (match t with docker => 155 | local => 203 end))
             (put_instance (instance k) key
                (set_cur_kernels (cur_kernels inst - 1) inst) st)).
Proof.
  intros Hk Hi. pose proof (lookup_lt_Some _ _ _ Hi) as Hlt.
  destruct st as [drv l m tr]. simpl in Hk, Hi, Hlt.
  assert (∀ (e0 e : Py.exn) (st' s : State),
             kernel_registry s = m →
             instance_registry s
             = <[instance k := (key, set_cur_kernels (cur_kernels inst - 1) inst)]> l →
             Raise (A := unit) e0 s = Raise e st' →
             kernel_registry st' = m
             ∧ instance_registry st'
               = <[instance k := (key, set_cur_kernels (cur_kernels inst - 1) inst)]> l)
    as Hstop.
  { intros e0 e st' s Hm Hl [= _ <-]. done. }
  split.
  - intros e st'. cbn [kernel_registry instance_registry].
    destruct t; simpl;
      unfold LocalKernelDriver.destroy_kernel, DockerKernelDriver.destroy_kernel;
      mcompute; rewrite Hk; mcompute; rewrite Hi; mcompute;
      rewrite list_lookup_insert_eq by done; mcompute;
      (destruct (bool_decide _); mcompute; [|by intros H _; eapply Hstop; [| |exact H]]).
    + destruct (priv k); mcompute; try by intros H _; eapply Hstop; [| |exact H].
      destruct (env_child env); mcompute;
        [|by intros H _; eapply Hstop; [| |exact H]|discriminate].
      destruct (urllib.urlparse _); mcompute; [|by intros H _; eapply Hstop; [| |exact H]].
      rewrite list_lookup_insert_eq by done. mcompute. cbn [used_ports set_cur_kernels].
      destruct (used_ports inst); mcompute; [|by intros H _; eapply Hstop; [| |exact H]].
      destruct (urllib.port _) as [[p|]|]; mcompute; try by intros H _; eapply Hstop; [| |exact H].
      destruct (decide _); mcompute; [|by intros H _; eapply Hstop; [| |exact H]].
      rewrite list_lookup_insert_eq by done. mcompute. rewrite Hk. discriminate.
    + destruct (urllib.urlparse _); mcompute; [|by intros H _; eapply Hstop; [| |exact H]].
      rewrite list_lookup_insert_eq by done. mcompute. cbn [used_ports set_cur_kernels].
      destruct (used_ports inst); mcompute; [|by intros H _; eapply Hstop; [| |exact H]].
      destruct (urllib.port _) as [[p|]|]; mcompute; try by intros H _; eapply Hstop; [| |exact H].
      destruct (decide _); mcompute; [|by intros H _; eapply Hstop; [| |exact H]].
      rewrite list_lookup_insert_eq by done. mcompute. rewrite Hk. mcompute.
      intros [= <- <-] Hne. done.
  - intros Hcur.
    destruct t; simpl;
      unfold LocalKernelDriver.destroy_kernel, DockerKernelDriver.destroy_kernel,
             put_instance;
      mcompute; rewrite Hk; mcompute; rewrite Hi; mcompute;
      rewrite list_lookup_insert_eq by done; mcompute;
      cbn [cur_kernels set_cur_kernels];
      rewrite bool_decide_eq_false_2 by lia; reflexivity.
Qed.

(** X15.  Under the docker driver a CREATE for which an instance is
    available is never answered and registers nothing: [handle_request]
    ends in an exception after reading the request and before any write,
    the kernel registry is as before, and the chosen instance keeps the
    incremented count.  The exception is one of the two assertions of
    [create_kernel], an exception of the docker client, or [AttributeError]
    at [container.id].  When the instance has [max_kernels <= 8] and a free
    port, the smallest free port stays reserved, the docker daemon has been
    contacted, and the exception is the client's or, when the client
    returned, the [AttributeError]. *)
Theorem docker_create_is_never_answered
    (req : ManagerRequest) (env : Env) (st : State)
    (i : nat) (key : string) (inst : Instance) :
  kernel_driver st = docker →
  action req = CREATE →
  instance_registry st !! i = Some (key, inst) →
  available docker inst = true →
  (∀ j key' inst', (j < i)%nat → instance_registry st !! j = Some (key', inst') →
                   available docker inst' = false) →
  let url := "tcp://" +:+ ip inst +:+ ":" +:+ Py.str (docker_port inst) in
  let failure := from_option Py.Foreign Py.AttributeError (env_docker env) in
  ∃ e st',
    handle_request req env st = Raise e st'
    ∧ kernel_registry st' = kernel_registry st
    ∧ (trace st' = trace st ++ [ERead req]
       ∨ trace st' = trace st ++ [ERead req; EDocker url])
    ∧ (∃ inst', instance_registry st' !! i = Some (key, inst')
                ∧ cur_kernels inst' = cur_kernels inst + 1)
    ∧ (e = Py.AssertionError 126 ∨ e = Py.AssertionError 132 ∨ e = failure)
    ∧ (max_kernels inst <= 8 → (size (occupied inst) < 8)%nat →
       e = failure
       ∧ trace st' = trace st ++ [ERead req; EDocker url]
       ∧ ∃ p, 5002 <= p < 5010 ∧ (p ∉ occupied inst)
              ∧ (∀ q, 5002 <= q < p → q ∈ occupied inst)
              ∧ instance_registry st' !! i
                = Some (key, mkInstance (ip inst) (docker_port inst) (tag inst)
                                        (max_kernels inst) (cur_kernels inst + 1)
                                        (Some ({[p]} ∪ occupied inst)))).
Proof.
  intros Hdrv Hact Hinst Hav Hfirst url failure.
  pose proof (lookup_lt_Some _ _ _ Hinst) as Hlt.
  rewrite (handle_request_create _ _ _ Hact), Hdrv.
  rewrite (find_avail_instance_some docker (log (ERead req) st) i key inst Hinst Hav Hfirst).
  set (st1 := set_instances _ _).
  assert (instance_registry st1 !! i
          = Some (key, set_cur_kernels (cur_kernels inst + 1) inst)) as Hinst1.
  { subst st1; simpl. by apply list_lookup_insert_eq. }
  change (create_kernel (driver_of docker)) with DockerKernelDriver.create_kernel.
  rewrite (docker_create_kernel_eq _ _ _ _ _ Hinst1). cbv zeta.
  change (max_kernels (set_cur_kernels _ inst)) with (max_kernels inst).
  change (used_ports (set_cur_kernels _ inst)) with (used_ports inst).
  change (ip (set_cur_kernels _ inst)) with (ip inst).
  change (docker_port (set_cur_kernels _ inst)) with (docker_port inst).
  change (default ∅ (used_ports inst)) with (occupied inst).
  fold url. fold failure.
  assert (∀ u, instance_registry (put_instance i key
                 (set_used_ports u (set_cur_kernels (cur_kernels inst + 1) inst)) st1) !! i
               = Some (key, set_used_ports u (set_cur_kernels (cur_kernels inst + 1) inst)))
    as Hput.
  { intros u. by apply (put_instance_lookup _ _ _ _ _ Hinst1). }
  pose proof (scan_ports_smallest (occupied inst)) as Hscan.
  destruct (scan_ports AgentPortRange (occupied inst)) as [used' p] eqn:Hsp.
  cbn [fst snd].
  case_bool_decide as Hmax.
  - destruct (p =? 0) eqn:E.
    + eexists _, _. split; [reflexivity|]. split; [done|]. split; [by left|].
      split; [eauto|]. split; [auto|]. intros _ Hsize. apply Z.eqb_eq in E.
      pose proof (scan_ports_finds (occupied inst) Hsize) as Hfound.
      rewrite Hsp in Hfound. done.
    + apply Z.eqb_neq in E.
      destruct Hscan as [(-> & _)|(Hp & Hfree & -> & Hsmallest)]; [done|].
      assert (trace (log (EDocker url) (put_instance i key
                (set_used_ports (Some ({[p]} ∪ occupied inst))
                   (set_cur_kernels (cur_kernels inst + 1) inst)) st1))
              = trace st ++ [ERead req; EDocker url]) as Htrace.
      { subst st1; simpl. by rewrite <-app_assoc. }
      eexists _, _. split; [reflexivity|]. split; [done|]. split; [by right|].
      split; [eexists; split; [exact (Hput _)|done]|].
      split; [auto|]. intros _ _. split; [done|]. split; [done|].
      exists p. split; [done|]. split; [done|]. split; [done|].
      exact (Hput _).
  - eexists _, _. split; [reflexivity|]. split; [done|]. split; [by left|].
    split; [eexists; split; [exact (Hput _)|done]|].
    split; [auto|]. intros Hle. done.
Qed.

(** X13.  Under the local driver, in a consistent state (in which every
    registered kernel holds its child process, has its port among the
    occupied ports of its instance, and no instance has more occupied ports
    than its count), destroying a registered kernel twice, the first time
    while its child process is still running, terminates the process once:
    the first DESTROY is answered with SUCCESS and removes the record, the
    second one is answered with INVALID_INPUT and changes nothing. *)
Theorem destroy_twice
    (req : ManagerRequest) (env env' : Env) (st : State) (k : Kernel) :
  kernel_driver st = local →
  consistent st →
  action req = DESTROY →
  kernel_registry st !! req_kernel_id req = Some k →
  env_child env = ChildRunning →
  ∃ pid st1,
    priv k = PrivProc pid
    ∧ handle_request req env st = Ok Continue st1
    ∧ kernel_registry st1 = delete (req_kernel_id req) (kernel_registry st)
    ∧ handle_api [(req, env); (req, env')] st
      = (AwaitingRequest,
         mkState local (instance_registry st1) (kernel_registry st1)
           (trace st
            ++ [ERead req; ETerminate pid;
                EWrite (mkResponse SUCCESS (req_kernel_id req) (Text ""));
                ERead req;
                EWrite (mkResponse INVALID_INPUT "" (Text "No such kernel."))])).
Proof.
  intros Hdrv Hcons Hact Hk Hchild.
  destruct (consistent_registered _ _ _ Hcons Hk)
    as (key & inst & used & n & p & Hi & Hused & Hurl & Hport & Hkp & Hin & Hcur & Hpriv).
  destruct (Hpriv Hdrv) as [pid Hpid].
  destruct (handle_request_destroy_known req env st k key inst used n p
              Hact Hk Hi Hused Hurl Hport Hin Hcur) as (Hrun & _).
  rewrite Hdrv in Hrun. specialize (Hrun pid Hpid). rewrite Hchild in Hrun.
  eexists pid, _. split; [done|]. split; [exact Hrun|]. split; [done|].
  simpl. rewrite Hrun.
  rewrite handle_request_read_only.
  - unfold add_trace, read_only_answer. cbn. rewrite Hact, <-app_assoc. reflexivity.
  - right. split; [done|]. simpl. apply lookup_delete_eq.
Qed.

Section Invariants.

Lemma all_instances_insert Q (l : list (string * Instance)) (i : nat) key inst :
  all_instances Q l → Q inst → all_instances Q (<[i := (key, inst)]> l).
Proof.
  intros Hall HQ j key' inst' Hj.
  apply list_lookup_insert_Some in Hj as [(-> & [= <- <-] & _)|[_ Hj]]; [done|].
  by apply (Hall j key').
Qed.

Lemma static_insert (l : list (string * Instance)) (i : nat) key inst inst' :
  l !! i = Some (key, inst) →
  static (key, inst') = static (key, inst) →
  static <$> <[i := (key, inst')]> l = static <$> l.
Proof.
  intros Hi Hs. rewrite list_fmap_insert, Hs.
  apply list_insert_id. by rewrite list_lookup_fmap, Hi.
Qed.

Lemma in_place_closed d0 (s0 : list (string * (string * Z * string * Z))) :
  step_closed (λ d r, d = d0 ∧ static <$> r.1 = s0).
Proof.
  intros d r r' Hstep [Hd Hs]. split; [done|]. rewrite <-Hs.
  destruct Hstep; simpl; try done; by eapply static_insert.
Qed.

Lemma within_capacity_closed :
  step_closed (λ _ r, all_instances (λ inst, cur_kernels inst <= max_kernels inst) r.1).
Proof.
  intros d r r' Hstep Hall.
  destruct Hstep as [l m i key inst Hi Hlt|l m i key inst Hi|l m i key inst Hi _
                     |l m i key inst used p Hi _ _ _|l m i key inst used p Hi _ _
                     | | |]; simpl in *; try done;
    (apply all_instances_insert; [done|]); specialize (Hall _ _ _ Hi); simpl in *; lia.
Qed.

Lemma ports_in_range_closed :
  step_closed (λ _ r, all_instances (λ inst, ∀ p, p ∈ occupied inst → 5002 <= p < 5010) r.1).
Proof.
  intros d r r' Hstep Hall.
  destruct Hstep as [l m i key inst Hi Hlt|l m i key inst Hi|l m i key inst Hi Hnone
                     |l m i key inst used p Hi Hused Hp Hfree
                     |l m i key inst used p Hi Hused Hin
                     | | |]; simpl in *; try done;
    (apply all_instances_insert; [done|]); specialize (Hall _ _ _ Hi);
    unfold occupied in *; simpl in *.
  - exact Hall.
  - exact Hall.
  - intros q Hq. by apply not_elem_of_empty in Hq.
  - rewrite Hused in Hall. simpl in Hall.
    intros q [->%elem_of_singleton|Hq]%elem_of_union; [done|by apply Hall].
  - rewrite Hused in Hall. simpl in Hall. intros q [Hq _]%elem_of_difference.
    by apply Hall.
Qed.

Lemma keys_match_ids_closed : step_closed (λ _ r, keys_match_ids r.2).
Proof.
  intros d r r' Hstep Hkeys.
  destruct Hstep as [| | | | |l m k|l m kid k i o e Hk|l m kid]; simpl in *; try done.
  - apply (keys_match_ids_entered m); [right; eauto|done].
  - intros key k'. rewrite lookup_insert. case_decide as Hkey; [|apply Hkeys].
    intros [= <-]. subst key. simpl. by apply Hkeys.
  - by apply (keys_match_ids_deleted kid m); [right|].
Qed.

End Invariants.

(** X1.  Whatever requests arrive and however the coroutine ends,
    [handle_api] never changes the selected driver, never adds, removes or
    reorders an instance, and never changes the key, address, docker port,
    tag or [max_kernels] of one: only [cur_kernels] and [used_ports] move. *)
Theorem handle_api_leaves_instances_in_place
    (inputs : list (ManagerRequest * Env)) (st : State) :
  kernel_driver (handle_api inputs st).2 = kernel_driver st
  ∧ static <$> instance_registry (handle_api inputs st).2
    = static <$> instance_registry st.
Proof.
  apply (keeps_handle_api (λ d r, d = kernel_driver st
                                 ∧ static <$> r.1 = static <$> instance_registry st)
           (in_place_closed _ _) inputs st).
  by split.
Qed.

(** X2.  If no instance holds more kernels than its [max_kernels], then
    the same is true after any run of [handle_api], for either driver and
    whether the run ends by a return, an exception or a wait. *)
Theorem handle_api_respects_capacity
    (inputs : list (ManagerRequest * Env)) (st : State) :
  all_instances (λ inst, cur_kernels inst <= max_kernels inst) (instance_registry st) →
  all_instances (λ inst, cur_kernels inst <= max_kernels inst)
                (instance_registry (handle_api inputs st).2).
Proof.
  intros Hall. pose proof within_capacity_closed as Hclosed.
  exact (keeps_handle_api _ Hclosed inputs st Hall).
Qed.

(** X3.  If the occupied ports of every instance lie in the agent port
    range [5002, 5010), they still do after any run of [handle_api],
    whatever its outcome; so no instance ever has more than eight. *)
Theorem handle_api_keeps_ports_in_range
    (inputs : list (ManagerRequest * Env)) (st : State) :
  all_instances (λ inst, ∀ p, p ∈ occupied inst → 5002 <= p < 5010)
                (instance_registry st) →
  all_instances (λ inst, (∀ p, p ∈ occupied inst → 5002 <= p < 5010)
                         ∧ (size (occupied inst) ≤ 8)%nat)
                (instance_registry (handle_api inputs st).2).
Proof.
  intros Hall i key inst Hi.
  pose proof (keeps_handle_api _ ports_in_range_closed inputs st Hall i key inst Hi) as Hin.
  simpl in Hin. split; [done|].
  assert (occupied inst ⊆ list_to_set AgentPortRange) as Hsub.
  { intros p Hp. apply elem_of_list_to_set, AgentPortRange_elem. by apply Hin. }
  apply subseteq_size in Hsub.
  rewrite size_list_to_set in Hsub by apply NoDup_seqZ. exact Hsub.
Qed.

(** X4.  If every key of the kernel registry is the [kernel_id] of its
    record, this is still so after any run of [handle_api]: through
    creation, the filling-in of the endpoints by [get_socket_info], and
    destruction, and also when the run ends in an exception. *)
Theorem handle_api_keeps_keys_matching_ids
    (inputs : list (ManagerRequest * Env)) (st : State) :
  keys_match_ids (kernel_registry st) →
  keys_match_ids (kernel_registry (handle_api inputs st).2).
Proof.
  intros Hkeys. pose proof keys_match_ids_closed as Hclosed.
  exact (keeps_handle_api _ Hclosed inputs st Hkeys).
Qed.

Section Events.
Import events.

Lemma chain_add_handler d e h e' :
  chain (add_handler d e h) e' = if decide (e = e') then chain d e ++ [h] else chain d e'.
Proof.
  unfold chain, add_handler. simpl. rewrite lookup_insert.
  case_decide; [by subst|done].
Qed.

Lemma dispatch_chain d e a args d' r e' :
  dispatch d e a args = (d', r) → chain d' e' = chain d e'.
Proof.
  unfold dispatch, chain.
  destruct (first_arg args); [|by intros [= <- _]].
  destruct (dispatch_handlers _ _ _ _) as [queue x]. intros [= <- _]. simpl.
  rewrite lookup_insert. case_decide as He; [|done]. subst e'.
  by destruct (handlers d !! e).
Qed.

Lemma dispatchable_chain d d' f :
  (∀ e, chain d' e = chain d e) → dispatchable d f → dispatchable d' f.
Proof. intros Hsame. unfold dispatchable. by rewrite Hsame. Qed.

Lemma dispatch_dispatchable d f :
  dispatchable d f →
  ∃ d', dispatch d (event_name f) (agent_id f) (args f) = (d', None)
        ∧ loop d' = loop d ++ tasks_for d f.
Proof.
  intros [[o Hfirst] [Hnil|(items & Hitems & Hall)]].
  - rewrite (dispatch_unknown _ _ _ _ o Hfirst Hnil). eexists. split; [done|].
    simpl. unfold tasks_for. rewrite Hnil. by rewrite app_nil_r.
  - rewrite (dispatch_callable _ _ _ _ o items Hfirst Hitems Hall).
    eexists. split; [done|]. simpl. unfold tasks_for, items_of. by rewrite Hitems.
Qed.

Lemma dispatch_handlers_none hs a args : ∀ queue queue',
  dispatch_handlers hs a args queue = (queue', None) →
  hs = [] ∨ ∃ items, Py.unpack args = Py.Val items
                     ∧ Forall (callable_with (length items)) hs.
Proof.
  induction hs as [|[name sig|name] hs IH]; intros queue queue'; simpl; [by left| |done].
  destruct (Py.unpack args) as [items|e] eqn:Hitems; [|done].
  destruct (accepts sig _) eqn:Hacc; [|done].
  intros Hrest. right. exists items. split; [done|].
  apply Forall_cons. split; [by exists name, sig|].
  destruct (IH _ _ Hrest) as [->|(items' & [= <-] & Hall)]; [by apply Forall_nil|done].
Qed.

Lemma dispatch_none d f d' :
  dispatch d (event_name f) (agent_id f) (args f) = (d', None) → dispatchable d f.
Proof.
  unfold dispatch. destruct (first_arg (args f)) as [o|e] eqn:Hfirst; [|done].
  fold (chain d (event_name f)).
  destruct (dispatch_handlers _ _ _ _) as [queue [e|]] eqn:Hrun; [done|].
  intros _. split; [eauto|]. by apply (dispatch_handlers_none _ _ _ _ _ Hrun).
Qed.

End Events.

(** X5.  Handlers registered with [add_handler] for one event name are
    kept in registration order behind those already there, and
    registering for one name changes neither the chain of another name
    nor what is scheduled on the loop. *)
Theorem add_handler_keeps_registration_order
    (d : events.EventDispatcher) (e : string) (hs : list events.Handler) :
  let d' := foldl (λ d h, events.add_handler d e h) d hs in
  chain d' e = chain d e ++ hs
  ∧ (∀ e', e' ≠ e → chain d' e' = chain d e')
  ∧ events.loop d' = events.loop d.
Proof.
  revert d. induction hs as [|h hs IH]; intros d; simpl.
  - by rewrite app_nil_r.
  - destruct (IH (events.add_handler d e h)) as (Hchain & Hother & Hloop).
    split; [|split].
    + rewrite Hchain, chain_add_handler, decide_True by done. by rewrite <-app_assoc.
    + intros e' Hne. rewrite (Hother e' Hne), chain_add_handler.
      by rewrite decide_False by done.
    + by rewrite Hloop.
Qed.

(** X6.  The subscriber keeps reading exactly as long as every message
    it receives decodes to a dispatchable frame: one whose first argument
    can be read for the log line and, unless no handler is registered for
    its event name, whose arguments unpack and whose handlers are all
    coroutine functions taking that many arguments.  The tasks created are
    then those of the first frame's chain in registration order, then those
    of the second frame, and so on (so two frames of one event name reach a
    handler in arrival order); a frame whose event name has no handlers adds
    no task, and no chain is changed.  Any other message (one that does not
    decode, arguments that are a map without the key [0] or a number, a
    handler that takes another number of arguments or is not a coroutine
    function) ends the subscriber. *)
Theorem subscriber_schedules_in_arrival_order
    (d : events.EventDispatcher) (received : list events.Received) :
  (Forall (dispatchable_message d) received →
   ∃ d',
     events.event_subscriber d received = (d', events.Reading)
     ∧ events.loop d' = events.loop d ++ flat_map (tasks_of d) received
     ∧ ∀ e, chain d' e = chain d e)
  ∧ (∀ d', events.event_subscriber d received = (d', events.Reading) →
           Forall (dispatchable_message d) received).
Proof.
  split.
  - revert d. induction received as [|r rest IH]; intros d Hall; simpl.
    + exists d. by rewrite app_nil_r.
    + apply Forall_cons in Hall as [(f & -> & Hf) Hrest].
      destruct (dispatch_dispatchable d f Hf) as (d1 & Hdisp & Hloop1).
      rewrite Hdisp.
      assert (∀ e, chain d1 e = chain d e) as Hsame
        by (intros e; exact (dispatch_chain _ _ _ _ _ _ e Hdisp)).
      destruct (IH d1) as (d' & Hrun & Hloop & Hchains).
      { eapply Forall_impl; [exact Hrest|]. intros r (f' & -> & Hf').
        exists f'. split; [done|]. by apply (dispatchable_chain d). }
      exists d'. split; [done|]. split.
      * rewrite Hloop, Hloop1, <-app_assoc. do 2 f_equal.
        apply flat_map_ext. intros [f'|e]; [|done].
        unfold tasks_of, tasks_for. by rewrite Hsame.
      * intros e. by rewrite Hchains.
  - revert d. induction received as [|[f|e] rest IH]; intros d d'; simpl;
      [by intros _; apply Forall_nil| |done].
    destruct (events.dispatch _ _ _ _) as [d1 [e|]] eqn:Hdisp; [done|].
    intros Hrun. apply Forall_cons. split.
    + exists f. split; [done|]. by apply (dispatch_none d f d1).
    + eapply Forall_impl; [exact (IH d1 d' Hrun)|]. intros r (f' & -> & Hf').
      exists f'. split; [done|]. apply (dispatchable_chain d1); [|done].
      intros e. symmetry. exact (dispatch_chain _ _ _ _ _ _ e Hdisp).
Qed.

(** X7.  The socket address [create_kernel] writes for a port of the
    agent range and a host without URL delimiters is read back by
    [destroy_kernel] as that port: releasing the port of such a kernel
    removes exactly the port that was reserved for it. *)
Theorem agent_port_is_read_back
    (st : State) (ref : nat) (key : string) (inst : Instance) (used : gset Z)
    (host : string) (p : Z) :
  plain_host host = true →
  5002 <= p < 5010 →
  instance_registry st !! ref = Some (key, inst) →
  used_ports inst = Some used →
  p ∈ used →
  ∃ agent_url,
    urllib.urlparse (agent_sock_url host p) = Py.Val agent_url
    ∧ urllib.port agent_url = Py.Val (Some p)
    ∧ used_ports_remove ref agent_url st
      = Ok tt (put_instance ref key (set_used_ports (Some (used ∖ {[p]})) inst) st).
Proof.
  intros Hhost Hp Hi Hused Hin.
  destruct (agent_sock_parse host p Hhost Hp) as (n & Hurl & Hport).
  exists n. split; [done|]. split; [done|].
  destruct st as [drv l m tr]. simpl in Hi.
  unfold used_ports_remove, put_instance. mcompute. rewrite Hi. mcompute.
  rewrite Hused, Hport. mcompute. rewrite decide_True by done. by rewrite Hi.
Qed.

Section ConsistentRuns.

Lemma consistent_bump st i key inst inst' tr :
  consistent st →
  instance_registry st !! i = Some (key, inst) →
  occupied inst ⊆ occupied inst' →
  Z.of_nat (size (occupied inst')) <= cur_kernels inst' →
  consistent (mkState (kernel_driver st) (<[i := (key, inst')]> (instance_registry st))
                      (kernel_registry st) tr).
Proof.
  intros [Hplaced Hdistinct Hcounted] Hi Hocc Hcur.
  pose proof (lookup_lt_Some _ _ _ Hi) as Hlt.
  split; simpl; [|done|].
  - intros kid k Hk.
    destruct (Hplaced _ _ Hk) as (key2 & inst2 & p2 & Hi2 & Hp2 & Hin2 & Hpriv2).
    destruct (decide (instance k = i)) as [Heq|Hne].
    + rewrite Heq in *. rewrite list_lookup_insert_eq by done.
      rewrite Hi in Hi2. injection Hi2 as <- <-.
      eexists _, _, p2. split; [done|]. split; [done|]. split; [by apply Hocc|done].
    + rewrite list_lookup_insert_ne by done. eauto 10.
  - intros j keyj instj Hj.
    apply list_lookup_insert_Some in Hj as [(-> & [= <- <-] & _)|[_ Hj]]; [done|].
    by apply (Hcounted j keyj).
Qed.

Variables (req : ManagerRequest) (env : Env) (st : State).
Hypothesis Hcons : consistent st.

Lemma claimed_consistent i key inst X s :
  instance_registry st !! i = Some (key, inst) →
  occupied X = occupied inst → cur_kernels X = cur_kernels inst + 1 →
  kernel_driver s = kernel_driver st →
  instance_registry s = <[i := (key, X)]> (instance_registry st) →
  kernel_registry s = kernel_registry st →
  consistent s.
Proof.
  intros Hi Hocc Hcur Hd Hl Hm.
  apply (consistent_ext (mkState (kernel_driver st) (<[i := (key, X)]> (instance_registry st))
                                 (kernel_registry st) [])); try done.
  apply (consistent_bump st i key inst X [] Hcons Hi); [by rewrite Hocc|].
  rewrite Hocc, Hcur. pose proof (ports_counted st Hcons _ _ _ Hi). lia.
Qed.

Lemma reserved_consistent i key inst p X s :
  instance_registry st !! i = Some (key, inst) →
  p ∉ occupied inst →
  occupied X = {[p]} ∪ occupied inst → cur_kernels X = cur_kernels inst + 1 →
  kernel_driver s = kernel_driver st →
  instance_registry s = <[i := (key, X)]> (instance_registry st) →
  kernel_registry s = kernel_registry st →
  consistent s.
Proof.
  intros Hi Hfree Hocc Hcur Hd Hl Hm.
  apply (consistent_ext (mkState (kernel_driver st) (<[i := (key, X)]> (instance_registry st))
                                 (kernel_registry st) [])); try done.
  apply (consistent_bump st i key inst X [] Hcons Hi).
  - rewrite Hocc. apply union_subseteq_r.
  - rewrite Hocc, Hcur, size_union by by apply disjoint_singleton_l.
    rewrite size_singleton. pose proof (ports_counted st Hcons _ _ _ Hi). lia.
Qed.

Lemma created_consistent i key inst p kid k s :
  kernel_driver st = local →
  instance_registry st !! i = Some (key, inst) →
  available local inst = true →
  5002 <= p < 5010 → p ∉ occupied inst →
  instance k = i → agent_sock k = agent_sock_url (ip inst) p →
  (∃ pid, priv k = PrivProc pid) →
  kernel_driver s = kernel_driver st →
  instance_registry s
  = <[i := (key, mkInstance (ip inst) (docker_port inst) (tag inst) (max_kernels inst)
                            (cur_kernels inst + 1) (Some ({[p]} ∪ occupied inst)))]>
      (instance_registry st) →
  kernel_registry s = <[kid := k]> (kernel_registry st) →
  consistent s.
Proof.
  intros Hloc Hi Hav Hp Hfree Hki Hsock Hpriv Hd Hl Hm.
  assert (plain_host (ip inst) = true) as Hplain
    by by rewrite (available_local_loopback inst Hav).
  eapply consistent_ext;
    [| | |apply (consistent_create st i key inst p kid k [] Hcons Hi Hfree Hki
                   (kernel_port_plain_host k (ip inst) p Hsock Hplain Hp))]; done.
Qed.

Lemma handle_request_create_consistent :
  action req = CREATE → consistent (final (handle_request req env st)).
Proof.
  intros Hact. rewrite (handle_request_create _ _ _ Hact).
  rewrite find_avail_instance_unfold.
  change (instance_registry (log (ERead req) st)) with (instance_registry st).
  destruct (scan_of (kernel_driver st) (instance_registry st) 0) as [r|] eqn:Hscan;
    [|by apply (consistent_ext st)].
  apply scan_of_some in Hscan as (i & key & inst & -> & Hi & Hav). simpl.
  pose proof (lookup_lt_Some _ _ _ Hi) as Hlt.
  munfold. change (instance_registry (log (ERead req) st)) with (instance_registry st).
  rewrite Hi.
  set (st1 := set_instances _ _).
  assert (instance_registry st1 !! i
          = Some (key, set_cur_kernels (cur_kernels inst + 1) inst)) as Hinst1.
  { subst st1; simpl. by apply list_lookup_insert_eq. }
  assert (∀ X s,
             occupied X = occupied inst → cur_kernels X = cur_kernels inst + 1 →
             kernel_driver s = kernel_driver st →
             instance_registry s = <[i := (key, X)]> (instance_registry st1) →
             kernel_registry s = kernel_registry st →
             consistent s) as Hclaimed.
  { intros X s Hocc Hcur Hd Hl Hm.
    apply (claimed_consistent i key inst X s Hi Hocc Hcur Hd); [|done].
    rewrite Hl. subst st1; simpl. by rewrite list_insert_insert_eq. }
  assert (∀ p X s,
             p ∉ occupied inst →
             occupied X = {[p]} ∪ occupied inst → cur_kernels X = cur_kernels inst + 1 →
             kernel_driver s = kernel_driver st →
             instance_registry s = <[i := (key, X)]> (instance_registry st1) →
             kernel_registry s = kernel_registry st →
             consistent s) as Hreserved.
  { intros p X s Hfree Hocc Hcur Hd Hl Hm.
    apply (reserved_consistent i key inst p X s Hi Hfree Hocc Hcur Hd); [|done].
    rewrite Hl. subst st1; simpl. by rewrite list_insert_insert_eq. }
  pose proof (scan_ports_smallest (occupied inst)) as Hports.
  rewrite create_kernel_eq. destruct (kernel_driver st) eqn:Hdrv.
  - assert (∀ p kid k s,
               5002 <= p < 5010 → p ∉ occupied inst →
               instance k = i → agent_sock k = agent_sock_url (ip inst) p →
               (∃ pid, priv k = PrivProc pid) →
               kernel_driver s = local →
               instance_registry s
               = <[i := (key, set_used_ports (Some ({[p]} ∪ occupied inst))
                                (set_cur_kernels (cur_kernels inst + 1) inst))]>
                   (instance_registry st1) →
               kernel_registry s = <[kid := k]> (kernel_registry st) →
               consistent s) as Hcreated.
    { intros p kid k s Hp Hfree Hki Hsock Hpriv Hd Hl Hm.
      apply (created_consistent i key inst p kid k s Hdrv Hi Hav Hp Hfree Hki Hsock Hpriv);
        [by rewrite Hdrv| |done].
      rewrite Hl. subst st1; simpl. by rewrite list_insert_insert_eq. }
    rewrite (local_create_kernel_eq _ _ _ _ _ Hinst1). cbv zeta.
    change (used_ports (set_cur_kernels _ inst)) with (used_ports inst).
    change (ip (set_cur_kernels _ inst)) with (ip inst).
    change (default ∅ (used_ports inst)) with (occupied inst).
    destruct (bool_decide _);
      [|by apply (Hclaimed (set_used_ports (Some (occupied inst))
                              (set_cur_kernels (cur_kernels inst + 1) inst)))].
    destruct (scan_ports AgentPortRange (occupied inst)) as [used' p]. cbn [fst snd].
    destruct Hports as [(-> & -> & _)|(Hp & Hfree & -> & _)].
    { by apply (Hclaimed (set_used_ports (Some (occupied inst))
                             (set_cur_kernels (cur_kernels inst + 1) inst))). }
    destruct (p =? 0) eqn:E; [apply Z.eqb_eq in E; lia|].
    set (kid := "local/" +:+ env_uuid env).
    set (k := mkKernel _ _ _ _ _ _ _ _).
    set (st2 := set_kernels _ _).
    destruct (probe_loop_final kid env 5 0 (log (ESleep 200) st2) eq_refl) as [es Hes].
    destruct (probe_loop kid env 0 (log (ESleep 200) st2)) as [[|] st3|e st3|st3];
      simpl in Hes; subst st3; simpl;
      try by apply (Hcreated p kid k); eauto.
    unfold get_socket_info. mcompute. cbn. rewrite lookup_insert_eq.
    destruct (env_socket_info env) as [[[si so] se]|]; mcompute; cbn.
    + rewrite lookup_insert_eq. cbn.
      apply (Hcreated p kid (set_socks (Some si) (Some so) (Some se) k)); eauto.
      cbn. by rewrite insert_insert_eq.
    + by apply (Hcreated p kid k); eauto.
  - rewrite (docker_create_kernel_eq _ _ _ _ _ Hinst1). cbv zeta.
    change (used_ports (set_cur_kernels _ inst)) with (used_ports inst).
    change (ip (set_cur_kernels _ inst)) with (ip inst).
    change (default ∅ (used_ports inst)) with (occupied inst).
    destruct (bool_decide _);
      [|by apply (Hclaimed (set_used_ports (Some (occupied inst))
                              (set_cur_kernels (cur_kernels inst + 1) inst)))].
    destruct (scan_ports AgentPortRange (occupied inst)) as [used' p]. cbn [fst snd].
    destruct Hports as [(-> & -> & _)|(Hp & Hfree & -> & _)].
    { by apply (Hclaimed (set_used_ports (Some (occupied inst))
                             (set_cur_kernels (cur_kernels inst + 1) inst))). }
    destruct (p =? 0) eqn:E; [apply Z.eqb_eq in E; lia|].
    by apply (Hreserved p (set_used_ports (Some ({[p]} ∪ occupied inst))
                             (set_cur_kernels (cur_kernels inst + 1) inst))).
Qed.

Hypothesis Hchild :
  kernel_driver st = local → action req = DESTROY → env_child env = ChildRunning.

Lemma handle_request_consistent_final : consistent (final (handle_request req env st)).
Proof.
  destruct (action req) eqn:Hact.
  - rewrite (handle_request_ping _ _ _ Hact). by apply (consistent_ext st).
  - by apply handle_request_create_consistent.
  - rewrite (handle_request_destroy _ _ _ Hact).
    case_bool_decide as Hknown; [|by apply (consistent_ext st)].
    destruct Hknown as [k Hk].
    destruct (consistent_registered _ _ _ Hcons Hk)
      as (key & inst & used & n & p & Hi & Hused & Hurl & Hport & Hkp & Hin & Hcur & Hpriv).
    assert (p ∈ occupied inst) as Hocc by (unfold occupied; by rewrite Hused).
    pose proof (consistent_destroy st _ k key inst p [] Hcons Hk Hi Hkp Hocc) as Hafter.
    unfold occupied in Hafter. rewrite Hused in Hafter. simpl in Hafter.
    destruct (kernel_driver st) eqn:Hdrv.
    + destruct (Hpriv eq_refl) as [pid Hpid].
      change (destroy_kernel (driver_of local)) with LocalKernelDriver.destroy_kernel.
      rewrite (local_destroy_kernel_known (log (ERead req) st) _ k key inst used n p env
                 Hk Hi Hused Hurl Hport Hin Hcur pid Hpid).
      rewrite (Hchild eq_refl eq_refl).
      eapply consistent_ext; [| | |exact Hafter]; done.
    + change (destroy_kernel (driver_of docker)) with DockerKernelDriver.destroy_kernel.
      rewrite (docker_destroy_kernel_known (log (ERead req) st) _ k key inst used n p env
                 Hk Hi Hused Hurl Hport Hin Hcur).
      eapply consistent_ext; [| | |exact Hafter]; done.
Qed.

End ConsistentRuns.

(** X8.  Consistency of the registries (every registered kernel refers
    to an existing instance, has the port of its agent socket among the
    occupied ports of that instance and, under the local driver, holds its
    child process; kernels of one instance have different ports; no instance
    has more occupied ports than its count) is kept by every run of
    [handle_api], however it ends, under the docker driver, and under the
    local driver as long as every DESTROY is served while the child process
    of the kernel is still running and exits on the signal.  (A DESTROY
    served after the child has exited, or while it does not exit, stops
    between lowering the count and releasing the port.) *)
Theorem handle_api_keeps_registries_consistent
    (inputs : list (ManagerRequest * Env)) (st : State) :
  (kernel_driver st = local →
   Forall (λ x, action x.1 = DESTROY → env_child x.2 = ChildRunning) inputs) →
  consistent st →
  consistent (handle_api inputs st).2.
Proof.
  revert st. induction inputs as [|[req env] rest IH]; intros st Hchild Hcons; simpl; [done|].
  assert (kernel_driver st = local → action req = DESTROY → env_child env = ChildRunning)
    as Hhead.
  { intros Hloc. specialize (Hchild Hloc). by apply Forall_cons in Hchild as [H _]. }
  pose proof (handle_request_consistent_final req env st Hcons Hhead) as Hfinal.
  assert (kernel_driver (handle_api [(req, env)] st).2 = kernel_driver st
          ∧ static <$> instance_registry (handle_api [(req, env)] st).2
            = static <$> instance_registry st) as [Hdrv _].
  { by apply (keeps_handle_api
                (λ d r, d = kernel_driver st
                        ∧ static <$> r.1 = static <$> instance_registry st)
                (in_place_closed _ _) [(req, env)] st). }
  simpl in Hdrv.
  destruct (handle_request req env st) as [[|] st'|e st'|st']; simpl in *; try done.
  apply IH; [|done]. rewrite Hdrv. intros Hloc. specialize (Hchild Hloc).
  by apply Forall_cons in Hchild as [_ H].
Qed.

(** * The further properties at concrete inputs *)

Lemma handle_api_respects_capacity_witness :
  all_instances (λ inst, cur_kernels inst <= max_kernels inst)
    (instance_registry
       (handle_api [(create_request, answering_env); (create_request, silent_env)]
                   local_state).2).
Proof.
  apply (handle_api_respects_capacity
           [(create_request, answering_env); (create_request, silent_env)] local_state).
  intros [|i] key inst Hi; [|discriminate Hi].
  injection Hi as <- <-. cbn. lia.
Defined.

Lemma handle_api_keeps_ports_in_range_witness :
  all_instances (λ inst, (∀ p, p ∈ occupied inst → 5002 <= p < 5010)
                         ∧ (size (occupied inst) ≤ 8)%nat)
    (instance_registry
       (handle_api [(create_request, answering_env); (create_request, silent_env)]
                   local_state).2).
Proof.
  apply (handle_api_keeps_ports_in_range
           [(create_request, answering_env); (create_request, silent_env)] local_state).
  intros [|i] key inst Hi; [|discriminate Hi].
  injection Hi as <- <-. intros p Hp. by apply not_elem_of_empty in Hp.
Defined.

Lemma handle_api_keeps_keys_matching_ids_witness :
  keys_match_ids
    (kernel_registry
       (handle_api [(create_request, answering_env); (destroy_request, silent_env)]
                   local_state).2).
Proof.
  apply (handle_api_keeps_keys_matching_ids
           [(create_request, answering_env); (destroy_request, silent_env)] local_state).
  intros key k Hk. discriminate Hk.
Defined.

Lemma coroutine_dispatcher_dispatchable :
  Forall (dispatchable_message coroutine_dispatcher)
    [events.Decoded heartbeat_frame; events.Decoded unknown_frame;
     events.Decoded terminated_frame; events.Decoded heartbeat_frame].
Proof.
  assert (dispatchable coroutine_dispatcher heartbeat_frame) as Hheartbeat.
  { split; [by eexists|]. right. exists [Py.VStr "alive"]. split; [done|].
    assert (chain coroutine_dispatcher (events.event_name heartbeat_frame)
            = [events.Coroutine "update_instance" three_parameters;
               events.Coroutine "refresh_stats" three_parameters]) as ->
      by (vm_compute; reflexivity).
    constructor; [by eexists _, _|]. constructor; [by eexists _, _|]. constructor. }
  constructor; [by eexists|]. constructor.
  { eexists. split; [done|]. split; [by eexists|]. left. vm_compute. reflexivity. }
  constructor; [|constructor; [by eexists|constructor]].
  eexists. split; [done|]. split; [by eexists|]. right.
  exists [Py.VInt 0; Py.VStr "reason"]. split; [done|].
  assert (chain coroutine_dispatcher (events.event_name terminated_frame)
          = [events.Coroutine "forget_kernel" any_arguments]) as ->
    by (vm_compute; reflexivity).
  constructor; [by eexists _, _|]. constructor.
Qed.

Lemma subscriber_schedules_in_arrival_order_witness :
  (∃ d',
     events.event_subscriber coroutine_dispatcher
       [events.Decoded heartbeat_frame; events.Decoded unknown_frame;
        events.Decoded terminated_frame; events.Decoded heartbeat_frame]
     = (d', events.Reading)
     ∧ events.loop d'
       = [events.Task "update_instance" "i-01" [Py.VStr "alive"];
          events.Task "refresh_stats" "i-01" [Py.VStr "alive"];
          events.Task "forget_kernel" "i-01" [Py.VInt 0; Py.VStr "reason"];
          events.Task "update_instance" "i-01" [Py.VStr "alive"];
          events.Task "refresh_stats" "i-01" [Py.VStr "alive"]])
  ∧ events.event_subscriber coroutine_dispatcher
      [events.Decoded map_frame; events.Decoded heartbeat_frame]
    = (coroutine_dispatcher, events.Ended Py.KeyError).
Proof.
  split; [|vm_compute; reflexivity].
  destruct (proj1 (subscriber_schedules_in_arrival_order coroutine_dispatcher
                     [events.Decoded heartbeat_frame; events.Decoded unknown_frame;
                      events.Decoded terminated_frame; events.Decoded heartbeat_frame])
              coroutine_dispatcher_dispatchable) as (d' & Hrun & Hloop & _).
  exists d'. split; [exact Hrun|]. rewrite Hloop. vm_compute. reflexivity.
Defined.

Lemma agent_port_is_read_back_witness :
  ∃ agent_url,
    urllib.urlparse (agent_sock_url "127.0.0.1" 5002) = Py.Val agent_url
    ∧ urllib.port agent_url = Py.Val (Some 5002)
    ∧ used_ports_remove 0 agent_url uncounted_state
      = Ok tt (put_instance 0 "test"
                 (set_used_ports (Some (({[5002]} ∪ ∅) ∖ {[5002]}))
                    (mkInstance "127.0.0.1" 2375 "" 2 0 (Some ({[5002]} ∪ ∅))))
                 uncounted_state).
Proof.
  apply (agent_port_is_read_back uncounted_state 0 "test"
           (mkInstance "127.0.0.1" 2375 "" 2 0 (Some ({[5002]} ∪ ∅))) ({[5002]} ∪ ∅)
           "127.0.0.1" 5002).
  - reflexivity.
  - lia.
  - reflexivity.
  - reflexivity.
  - apply elem_of_union. left. by apply elem_of_singleton.
Defined.

Lemma handle_api_keeps_registries_consistent_witness :
  consistent
    (handle_api [(create_request, answering_env); (create_request, silent_env);
                 (destroy_request, silent_env)] local_state).2.
Proof.
  apply (handle_api_keeps_registries_consistent
           [(create_request, answering_env); (create_request, silent_env);
            (destroy_request, silent_env)] local_state).
  - intros _. repeat (apply Forall_cons; split); [by intros _..|exact (Forall_nil_2 _)].
  - apply (consistent_import_time local).
Defined.

Lemma read_only_requests_are_answered_in_order_witness :
  handle_api [(mkRequest PING "" "abc", silent_env);
              (mkRequest DESTROY "local/none" "", silent_env);
              (mkRequest PING "" "def", silent_env)] local_state_with_kernel
  = (AwaitingRequest,
     add_trace [ERead (mkRequest PING "" "abc");
                EWrite (mkResponse PONG "" (Text "abc"));
                ERead (mkRequest DESTROY "local/none" "");
                EWrite (mkResponse INVALID_INPUT "" (Text "No such kernel."));
                ERead (mkRequest PING "" "def");
                EWrite (mkResponse PONG "" (Text "def"))]
               local_state_with_kernel).
Proof.
  apply (read_only_requests_are_answered_in_order
           [(mkRequest PING "" "abc", silent_env);
            (mkRequest DESTROY "local/none" "", silent_env);
            (mkRequest PING "" "def", silent_env)] local_state_with_kernel).
  repeat (apply Forall_cons; split); [| | |exact (Forall_nil_2 _)].
  - left. reflexivity.
  - right. split; [reflexivity|]. vm_compute. reflexivity.
  - left. reflexivity.
Defined.

Lemma create_answers_success_witness :
  ∃ st',
    handle_request create_request answering_env local_state = Ok Continue st'
    ∧ last (trace st')
      = Some (EWrite (mkResponse SUCCESS "local/5f1c"
                        (Json [("agent_sock", Some "tcp://127.0.0.1:5002");
                               ("stdin_sock", None);
                               ("stdout_sock", Some "ipc://out");
                               ("stderr_sock", Some "ipc://err")]%string)))
    ∧ kernel_registry st' !! "local/5f1c" = Some created_kernel.
Proof.
  destruct (create_answers_success create_request answering_env local_state
              0 "test" test_instance 5002 2 "ipc://in" "ipc://out" "ipc://err")
    as (st' & Hrun & Hlast & _ & Hk & _).
  - reflexivity.
  - reflexivity.
  - reflexivity.
  - reflexivity.
  - intros j' key' inst' Hj. lia.
  - reflexivity.
  - lia.
  - apply not_elem_of_empty.
  - intros q Hq. lia.
  - lia.
  - intros [|[|n]] Hn; [reflexivity|reflexivity|lia].
  - reflexivity.
  - reflexivity.
  - exists st'. split; [exact Hrun|]. split; [exact Hlast|exact Hk].
Defined.

Lemma create_waits_for_socket_info_witness :
  ∃ st',
    handle_request create_request
      (mkEnv "5f1c" 4242 None ChildRunning (env_heartbeat answering_env) None) local_state
    = Blocked st'
    ∧ last (trace st') = Some (ESocketInfo "tcp://127.0.0.1:5002").
Proof.
  eexists. split.
  - apply (create_waits_for_socket_info create_request
             (mkEnv "5f1c" 4242 None ChildRunning (env_heartbeat answering_env) None) local_state
             0 "test" test_instance 5002 2).
    + reflexivity.
    + reflexivity.
    + reflexivity.
    + reflexivity.
    + intros j' key' inst' Hj. lia.
    + reflexivity.
    + lia.
    + apply not_elem_of_empty.
    + intros q Hq. lia.
    + lia.
    + intros [|[|n]] Hn; [reflexivity|reflexivity|lia].
    + reflexivity.
    + reflexivity.
  - cbn [trace]. rewrite !last_app. reflexivity.
Defined.

Lemma create_then_destroy_restores_witness :
  ∃ st',
    handle_api [(create_request, answering_env); (destroy_request, silent_env)] local_state
    = (AwaitingRequest, st')
    ∧ instance_registry st'
      = [("test"%string, mkInstance "127.0.0.1" 2375 "" 2 0 (Some ∅))]
    ∧ kernel_registry st' = ∅.
Proof.
  destruct (create_then_destroy_restores create_request destroy_request
              answering_env silent_env local_state
              0 "test" test_instance 5002 2 "ipc://in" "ipc://out" "ipc://err")
    as (st' & Hrun & _ & Hl & Hm).
  - reflexivity.
  - reflexivity.
  - reflexivity.
  - reflexivity.
  - intros j' key' inst' Hj. lia.
  - reflexivity.
  - cbn. lia.
  - lia.
  - apply not_elem_of_empty.
  - intros q Hq. lia.
  - lia.
  - intros [|[|n]] Hn; [reflexivity|reflexivity|lia].
  - reflexivity.
  - reflexivity.
  - reflexivity.
  - reflexivity.
  - reflexivity.
  - exists st'. split; [exact Hrun|]. split; [exact Hl|]. rewrite Hm. reflexivity.
Defined.

Lemma destroy_twice_witness :
  ∃ st',
    handle_api [(destroy_request, silent_env); (destroy_request, silent_env)]
               local_state_with_kernel
    = (AwaitingRequest, st')
    ∧ last (trace st')
      = Some (EWrite (mkResponse INVALID_INPUT "" (Text "No such kernel."))).
Proof.
  destruct (destroy_twice destroy_request silent_env silent_env local_state_with_kernel
              created_kernel eq_refl local_state_with_kernel_consistent
              eq_refl eq_refl eq_refl)
    as (pid & st1 & _ & _ & _ & Hrun).
  eexists. split; [exact Hrun|]. cbn [trace]. rewrite last_app. reflexivity.
Defined.

Lemma failed_destroy_is_not_rolled_back_witness :
  destroy_kernel (driver_of local) "local/5f1c" silent_env uncounted_state
  = Raise (Py.AssertionError 203)
          (mkState local
             [("test"%string, mkInstance "127.0.0.1" 2375 "" 2 (-1) (Some ({[5002]} ∪ ∅)))]
             (<["local/5f1c"%string := created_kernel]> ∅) []).
Proof.
  apply (proj2 (failed_destroy_is_not_rolled_back local uncounted_state "local/5f1c"
                  created_kernel "test"
                  (mkInstance "127.0.0.1" 2375 "" 2 0 (Some ({[5002]} ∪ ∅))) silent_env
                  eq_refl eq_refl)).
  cbn. lia.
Defined.

Lemma docker_create_is_never_answered_witness :
  ∃ st',
    handle_request create_request silent_env initial_state = Raise Py.AttributeError st'
    ∧ kernel_registry st' = ∅
    ∧ trace st' = [ERead create_request; EDocker "tcp://127.0.0.1:2375"].
Proof.
  destruct (docker_create_is_never_answered create_request silent_env initial_state
              0 "test" test_instance)
    as (e & st' & Hrun & Hregistry & _ & _ & _ & Hfree).
  - reflexivity.
  - reflexivity.
  - reflexivity.
  - reflexivity.
  - intros j key' inst' Hj. lia.
  - destruct Hfree as (-> & Htrace & _).
    + cbn. lia.
    + cbn. rewrite size_empty. lia.
    + exists st'. split; [exact Hrun|]. split; [exact Hregistry|exact Htrace].
Defined.
